(** * Chart preparation of the Chart Analysis page

    A shallow embedding of [generateChartData], the click handler of
    [ChartAnalysisPage] (src/unnamed/part_001, lines 74-119), and of the
    ECMAScript operations it calls: property reads on the rows, [parseFloat],
    [||], [+], property reads and writes on the object literal [aggregated],
    [Object.keys] and [Object.values].

    - Numbers are IEEE 754 binary64 values, Rocq's primitive [float]; the
      decimal text of a number and the number of a decimal text are computed
      with correct rounding.
    - Strings are sequences of code units below 256, Rocq's [string].
    - A row is an ordinary object, a finite map from column names to
      scalars; a column that a row does not have is looked up in
      [Object.prototype] and reads as [undefined] when it is not there
      either.
    - [aggregated] is an ordinary object: its own properties are kept in
      creation order, [Object.keys] lists array indices first, and a name it
      does not own is looked up in [Object.prototype].
    - The handler is given a second time on a heap, where the rows are
      objects the page refers to and [aggregated] is an object the handler
      creates; this is where what a run leaves behind is visible.

    The last part, Further properties, is about the rest of the page
    ([fetchExcelData], [handleConfigChange], [handleSaveChart],
    [renderChart] and the data preview, with the requests in flight and the
    toasts as an explicit state), the request interceptor of the API client
    (src/unnamed/part_000) and the dashboard with its two timers
    (src/chart-nexus-excel-main/src/pages/Dashboard.tsx). *)

From Stdlib Require Import ZArith List String Ascii Bool Lia Floats.
From Stdlib Require Import Permutation Sorted Zpower.
Import ListNotations.

Local Open Scope string_scope.
Local Open Scope Z_scope.

(** ** ECMAScript values and conversions *)

Module JS.

(** The scalars a decoded spreadsheet cell can hold; [VUndefined] is what
    reading a property that is nowhere to be found evaluates to.  [VObject]
    is an object with the default conversions, known by the text it converts
    to: the built-in functions and [Object.prototype] itself, which a read of
    a property finds when the object read has no property of its own under
    the name. *)
Inductive value : Type :=
| VUndefined
| VNull
| VBool (b : bool)
| VNum (f : float)
| VStr (s : string)
| VObject (text : string).

(** *** Decimal digits *)

Definition digitChar (d : Z) : ascii := ascii_of_N (48 + Z.to_N d).

Definition isDigit (c : ascii) : bool :=
  let n := N_of_ascii c in ((48 <=? n) && (n <=? 57))%N.

Definition digitVal (c : ascii) : Z := Z.of_N (N_of_ascii c) - 48.

(** Decimal digits of a non-negative integer, most significant first. *)
Fixpoint digitsAux (fuel : nat) (n : Z) (acc : string) : string :=
  match fuel with
  | O => acc
  | S fuel' =>
      let acc' := String (digitChar (n mod 10)) acc in
      if n <? 10 then acc' else digitsAux fuel' (n / 10) acc'
  end.

Definition decimalDigits (n : Z) : string :=
  digitsAux (S (Z.to_nat (Z.log2 n))) n "".

Fixpoint zeros (n : nat) : string :=
  match n with O => "" | S n' => String "0" (zeros n') end.

(** Number of decimal digits of a positive integer. *)
Definition numDigits (n : Z) : Z := Z.of_nat (String.length (decimalDigits n)).

(** *** Rounding a positive rational to binary64

    [roundRatio sx num den] is the binary64 value nearest to [num / den]
    (ties to even), with sign [sx]; [num] and [den] are positive.  The
    quotient is taken with more than 64 significant bits and the position of
    the remainder is handed to the rounding of [SpecFloat]. *)

Definition roundRatio (sx : bool) (num den : Z) : spec_float :=
  let k := Z.max 0 (66 + Z.log2 den - Z.log2 num) in
  let scaled := num * 2 ^ k in
  let q := scaled / den in
  let r := scaled mod den in
  let loc :=
    if r =? 0 then loc_Exact else loc_Inexact (Z.compare (2 * r) den) in
  binary_round_aux prec emax sx q (- k) loc.

(** The binary64 value nearest to [m * 10 ^ e10], for [m >= 0]. *)
Definition roundDecimal (sx : bool) (m e10 : Z) : spec_float :=
  if m =? 0 then S754_zero sx
  else if 0 <=? e10 then roundRatio sx (m * 10 ^ e10) 1
  else roundRatio sx m (10 ^ (- e10)).

(** *** Number::toString (radix 10) *)

Definition sfEqb (a b : spec_float) : bool :=
  match a, b with
  | S754_finite s1 m1 e1, S754_finite s2 m2 e2 =>
      Bool.eqb s1 s2 && Pos.eqb m1 m2 && Z.eqb e1 e2
  | _, _ => false
  end.

(** [n] with [10 ^ (n - 1) <= num / den < 10 ^ n]. *)
Definition decimalExponent (num den : Z) : Z :=
  let t := numDigits num - numDigits den in
  let ge := if 0 <=? t then den * 10 ^ t <=? num else den <=? num * 10 ^ (- t) in
  if ge then t + 1 else t.

(** The shortest digit string [s] of [k] digits and the exponent [n] such
    that [s * 10 ^ (n - k)] rounds to the number [m * 2 ^ e]; among the
    candidates of that length the one closest to the number, the even one on
    a tie.  A candidate [10 ^ k] is the single digit 1 one decade up. *)
Fixpoint shortestFrom (fuel : nat) (k : Z) (x : spec_float) (num den n : Z)
  : Z * Z * Z :=
  let p := n - k in
  let snum := if 0 <=? p then num else num * 10 ^ (- p) in
  let sden := if 0 <=? p then den * 10 ^ p else den in
  let lo := snum / sden in
  let hi := lo + 1 in
  let ok s := (0 <? s) && sfEqb (roundDecimal false s p) x in
  let c := Z.compare (2 * snum) ((2 * lo + 1) * sden) in
  let hiFirst :=
    match c with Gt => true | Lt => false | Eq => Z.odd lo end in
  let fst_ := if hiFirst then hi else lo in
  let snd_ := if hiFirst then lo else hi in
  let pick s := if s =? 10 ^ k then (1, 1, n + 1) else (s, k, n) in
  if ok fst_ then pick fst_
  else if ok snd_ then pick snd_
  else match fuel with
       | O => pick fst_
       | S fuel' => shortestFrom fuel' (k + 1) x num den n
       end.

Definition shortest (m : positive) (e : Z) : Z * Z * Z :=
  let num := if 0 <=? e then Zpos m * 2 ^ e else Zpos m in
  let den := if 0 <=? e then 1 else 2 ^ (- e) in
  shortestFrom 16 1 (S754_finite false m e) num den (decimalExponent num den).

(** The text of a positive finite number from its digits [s] (there are [k]
    of them) and its decimal exponent [n]. *)
Definition formatDecimal (s k n : Z) : string :=
  let ds := decimalDigits s in
  if (k <=? n) && (n <=? 21) then
    ds ++ zeros (Z.to_nat (n - k))
  else if (0 <? n) && (n <=? 21) then
    substring 0 (Z.to_nat n) ds ++ "." ++
    substring (Z.to_nat n) (Z.to_nat (k - n)) ds
  else if (-6 <? n) && (n <=? 0) then
    "0." ++ zeros (Z.to_nat (- n)) ++ ds
  else
    let ex := n - 1 in
    let etxt := (if ex <? 0 then "-" else "+") ++ decimalDigits (Z.abs ex) in
    if k =? 1 then ds ++ "e" ++ etxt
    else substring 0 1 ds ++ "." ++
         substring 1 (Z.to_nat (k - 1)) ds ++ "e" ++ etxt.

Definition numberToString (x : float) : string :=
  match Prim2SF x with
  | S754_nan => "NaN"
  | S754_zero _ => "0"
  | S754_infinity s => if s then "-Infinity" else "Infinity"
  | S754_finite sx m e =>
      let '(s, k, n) := shortest m e in
      (if sx then "-" else "") ++ formatDecimal s k n
  end.

(** *** ToString, ToBoolean *)

Definition ToString (v : value) : string :=
  match v with
  | VUndefined => "undefined"
  | VNull => "null"
  | VBool b => if b then "true" else "false"
  | VNum f => numberToString f
  | VStr s => s
  | VObject text => text
  end.

(** A number is falsy when it is NaN, [+0] or [-0]. *)
Definition truthyNumber (f : float) : bool :=
  negb (PrimFloat.is_nan f || PrimFloat.eqb f 0%float).

Definition ToBoolean (v : value) : bool :=
  match v with
  | VUndefined | VNull => false
  | VBool b => b
  | VNum f => truthyNumber f
  | VStr s => negb (String.eqb s "")
  | VObject _ => true
  end.

(** *** parseFloat *)

(** White space and line terminators among the code units below 256. *)
Definition isWhiteSpace (c : ascii) : bool :=
  let n := N_of_ascii c in
  ((9 <=? n) && (n <=? 13) || (n =? 32) || (n =? 160))%N.

Fixpoint trimStart (s : string) : string :=
  match s with
  | String c s' => if isWhiteSpace c then trimStart s' else s
  | EmptyString => s
  end.

(** Reads the longest run of decimal digits: the integer they spell after
    [acc], how many there are, and the rest of the text. *)
Fixpoint readDigits (s : string) (acc cnt : Z) : Z * Z * string :=
  match s with
  | String c s' =>
      if isDigit c then readDigits s' (acc * 10 + digitVal c) (cnt + 1)
      else (acc, cnt, s)
  | EmptyString => (acc, cnt, s)
  end.

(** The exponent part [e], [E] with an optional sign and at least one
    digit; absent or incomplete it counts as zero. *)
Definition readExponent (s : string) : Z :=
  match s with
  | String c s1 =>
      if (Ascii.eqb c "e" || Ascii.eqb c "E")%bool then
        let '(neg, s2) :=
          match s1 with
          | String "-" t => (true, t)
          | String "+" t => (false, t)
          | _ => (false, s1)
          end in
        let '(ex, cnt, _) := readDigits s2 0 0 in
        if cnt =? 0 then 0 else if neg then - ex else ex
      else 0
  | EmptyString => 0
  end.

(** The value of the longest prefix that is a StrUnsignedDecimalLiteral,
    with sign [sx]; NaN when there is none. *)
Definition parseUnsigned (sx : bool) (s : string) : spec_float :=
  if prefix "Infinity" s then S754_infinity sx
  else
    let '(ip, icnt, s1) := readDigits s 0 0 in
    match s1 with
    | String "." s2 =>
        let '(m, fcnt, s3) := readDigits s2 ip 0 in
        if (icnt =? 0) && (fcnt =? 0) then S754_nan
        else roundDecimal sx m (readExponent s3 - fcnt)
    | _ =>
        if icnt =? 0 then S754_nan
        else roundDecimal sx ip (readExponent s1)
    end.

Definition parseFloatString (s : string) : float :=
  SF2Prim
    match trimStart s with
    | String "-" t => parseUnsigned true t
    | String "+" t => parseUnsigned false t
    | t => parseUnsigned false t
    end.

Definition parseFloat (v : value) : float := parseFloatString (ToString v).

(** *** The addition operator

    The number an operand of [+] stands for; none for a string, and none
    for an object, whose primitive value is its text. *)

Definition ToNumeric (v : value) : option float :=
  match v with
  | VUndefined => Some nan
  | VNull => Some 0%float
  | VBool b => Some (if b then 1%float else 0%float)
  | VNum f => Some f
  | VStr _ => None
  | VObject _ => None
  end.

(** [a + b]: concatenation as soon as one operand is a string. *)
Definition add (a b : value) : value :=
  match ToNumeric a, ToNumeric b with
  | Some x, Some y => VNum (x + y)%float
  | _, _ => VStr (ToString a ++ ToString b)
  end.

End JS.

(** ** Ordinary objects used as string-keyed maps *)

Module Obj.
Import JS.

(** The own properties of an object created by the literal [{}], in the
    order of their creation. *)
Definition object : Type := list (string * value).

Fixpoint lookup (k : string) (o : object) : option value :=
  match o with
  | [] => None
  | (k', v) :: o' => if String.eqb k k' then Some v else lookup k o'
  end.

Fixpoint update (k : string) (v : value) (o : object) : object :=
  match o with
  | [] => []
  | (k', v') :: o' =>
      if String.eqb k k' then (k', v) :: o' else (k', v') :: update k v o'
  end.

(** The function-valued properties every such object inherits from
    [Object.prototype]. *)
Definition prototypeMethods : list string :=
  [ "constructor"; "hasOwnProperty"; "isPrototypeOf"; "propertyIsEnumerable";
    "toLocaleString"; "toString"; "valueOf"; "__defineGetter__";
    "__defineSetter__"; "__lookupGetter__"; "__lookupSetter__" ].

(** What an inherited property turns into under [+]: the text of the
    built-in function, or of [Object.prototype] itself for the accessor
    [__proto__]; [None] for a name that is not inherited. *)
Definition inheritedText (k : string) : option string :=
  if String.eqb k "__proto__" then Some "[object Object]"
  else if String.eqb k "constructor" then
    Some "function Object() { [native code] }"
  else if existsb (String.eqb k) prototypeMethods then
    Some ("function " ++ k ++ "() { [native code] }")
  else None.

(** [o[k] = v].  The setter of [__proto__] ignores a primitive; any other
    key updates the own property or creates it after the existing ones. *)
Definition set (o : object) (k : string) (v : value) : object :=
  if String.eqb k "__proto__" then o
  else match lookup k o with
       | Some _ => update k v o
       | None => (o ++ [(k, v)])%list
       end.

(** An array index is the canonical decimal text of an integer from 0 to
    2^32 - 2. *)
Fixpoint allDigits (s : string) : bool :=
  match s with
  | EmptyString => true
  | String c s' => isDigit c && allDigits s'
  end.

Definition indexValue (k : string) : Z := fst (fst (readDigits k 0 0)).

Definition isArrayIndex (k : string) : bool :=
  match k with
  | EmptyString => false
  | String c rest =>
      allDigits k
      && (negb (Ascii.eqb c "0") || String.eqb rest "")
      && (indexValue k <=? 4294967294)
  end.

Fixpoint insertByIndex (p : string * value) (l : object) : object :=
  match l with
  | [] => [p]
  | q :: l' =>
      if indexValue (fst p) <=? indexValue (fst q) then p :: l
      else q :: insertByIndex p l'
  end.

Definition sortByIndex (l : object) : object :=
  fold_right insertByIndex [] l.

(** The own properties in the order of OrdinaryOwnPropertyKeys: array
    indices ascending, then the other keys in creation order. *)
Definition ownEntries (o : object) : object :=
  (sortByIndex (filter (fun p => isArrayIndex (fst p)) o)
   ++ filter (fun p => negb (isArrayIndex (fst p))) o)%list.

Definition keys (o : object) : list string := map fst (ownEntries o).
Definition values (o : object) : list value := map snd (ownEntries o).

End Obj.

(** ** The page *)

Import JS.
Local Open Scope list_scope.

(** A row of the decoded sheet: column name to cell, the cells in the order
    of the columns. *)
Definition Row : Type := list (string * value).

(** [row[column]]: the cell of the row under the column; for a column the
    row does not have, what the row inherits from [Object.prototype] under
    that name, a built-in function or [Object.prototype] itself; and
    [undefined] when there is nothing to inherit. *)
Fixpoint rowGet (row : Row) (column : string) : value :=
  match row with
  | [] =>
      match Obj.inheritedText column with
      | Some text => VObject text
      | None => VUndefined
      end
  | (c, v) :: row' => if String.eqb column c then v else rowGet row' column
  end.

Definition Dataset : Type := list Row.

(** [excelData]: the record the server returned, of which the handler reads
    [data]. *)
Record ExcelRecord : Type := { data : Dataset }.

Record ChartConfig : Type :=
  { type : string; title : string; xAxis : string; yAxis : string }.

(** The two shapes of the single entry of [datasets]. *)
Inductive ChartDataset : Type :=
| PieDataset (data : list value) (backgroundColor : list string)
| XYDataset (label : string) (data : list float)
    (backgroundColor : option string) (borderColor : string)
    (borderWidth : Z) (fill : bool).

Record ChartData : Type :=
  { labels : list value; datasets : list ChartDataset }.

Record PageState : Type :=
  { excelData : option ExcelRecord;
    columns : list string;
    chartConfig : ChartConfig;
    chartData : option ChartData }.

Definition piePalette : list string :=
  [ "#FF6384"; "#36A2EB"; "#FFCE56"; "#4BC0C0"; "#9966FF"; "#FF9F40" ].

(** [parseFloat(cell) || 0] *)
Definition numberOrZero (cell : value) : float :=
  let x := parseFloat cell in if truthyNumber x then x else 0%float.

(** [(aggregated[category] || 0) + value] *)
Definition accumulated (aggregated : Obj.object) (category : string)
  (v : float) : value :=
  match Obj.lookup category aggregated with
  | Some cur => JS.add (if ToBoolean cur then cur else VNum 0) (VNum v)
  | None =>
      match Obj.inheritedText category with
      | Some text => VStr (String.append text (numberToString v))
      | None => JS.add (VNum 0) (VNum v)
      end
  end.

(** The body of the [forEach] callback of the pie branch. *)
Definition pieStep (cfg : ChartConfig) (aggregated : Obj.object) (row : Row)
  : Obj.object :=
  let category := ToString (rowGet row (xAxis cfg)) in
  let v := numberOrZero (rowGet row (yAxis cfg)) in
  Obj.set aggregated category (accumulated aggregated category v).

Definition pieAggregate (cfg : ChartConfig) (rows : Dataset) : Obj.object :=
  fold_left (pieStep cfg) rows [].

(** What [generateChartData] hands to [setChartData]; [None] when it
    returns at the guard without calling it.  This is the function the
    specification calls [aggregate]. *)
Definition aggregate (excel : option ExcelRecord) (cfg : ChartConfig)
  : option ChartData :=
  match excel with
  | None => None
  | Some rec =>
      if String.eqb (xAxis cfg) "" || String.eqb (yAxis cfg) "" then None
      else
        let rows := data rec in
        if String.eqb (type cfg) "pie" then
          let aggregated := pieAggregate cfg rows in
          Some {| labels := map VStr (Obj.keys aggregated);
                  datasets := [PieDataset (Obj.values aggregated) piePalette] |}
        else
          let labels := map (fun row => rowGet row (xAxis cfg)) rows in
          let values := map (fun row => numberOrZero (rowGet row (yAxis cfg))) rows in
          Some {| labels := labels;
                  datasets :=
                    [XYDataset (yAxis cfg) values
                       (if String.eqb (type cfg) "bar"
                        then Some "rgba(54, 162, 235, 0.6)" else None)
                       "rgba(54, 162, 235, 1)" 2 false] |}
  end.

(** The click handler on the page state. *)
Definition generateChartData (st : PageState) : PageState :=
  match aggregate (excelData st) (chartConfig st) with
  | Some cd =>
      {| excelData := excelData st; columns := columns st;
         chartConfig := chartConfig st; chartData := Some cd |}
  | None => st
  end.

(** ** The handler on the heap

    The same handler with the objects it touches kept in a heap: the rows
    of [excelData.data] are objects the page holds references to, and
    [aggregated] is an object the handler creates.  A reference is the index
    of the object in the heap. *)

Module Heap.

Definition heap : Type := list Obj.object.

Definition deref (h : heap) (a : nat) : Obj.object := nth a h [].

(** The heap with the object at [a] replaced. *)
Fixpoint write (h : heap) (a : nat) (o : Obj.object) : heap :=
  match h, a with
  | [], _ => []
  | _ :: h', O => o :: h'
  | x :: h', S a' => x :: write h' a' o
  end.

(** The state the handler runs in: the heap, the references to the rows of
    the loaded record, the configuration and the chart. *)
Record Machine : Type :=
  { objects : heap;
    rows : option (list nat);
    config : ChartConfig;
    chart : option ChartData }.

(** The callback of [forEach]: it reads the row at [r] and writes one
    property of the object at [aggregated]. *)
Definition pieBody (cfg : ChartConfig) (aggregated : nat) (h : heap) (r : nat)
  : heap :=
  let row := deref h r in
  let category := ToString (rowGet row (xAxis cfg)) in
  let v := numberOrZero (rowGet row (yAxis cfg)) in
  write h aggregated
    (Obj.set (deref h aggregated) category
       (accumulated (deref h aggregated) category v)).

Definition generateChartData (m : Machine) : Machine :=
  match rows m with
  | None => m
  | Some rs =>
      let cfg := config m in
      if String.eqb (xAxis cfg) "" || String.eqb (yAxis cfg) "" then m
      else if String.eqb (type cfg) "pie" then
        (* [const aggregated = {}]: a new object, after the ones there are *)
        let aggregated := List.length (objects m) in
        let h := fold_left (pieBody cfg aggregated) rs (objects m ++ [[]]) in
        {| objects := h; rows := rows m; config := cfg;
           chart :=
             Some {| labels := map VStr (Obj.keys (deref h aggregated));
                     datasets :=
                       [PieDataset (Obj.values (deref h aggregated))
                          piePalette] |} |}
      else
        let h := objects m in
        {| objects := h; rows := rows m; config := cfg;
           chart :=
             Some {| labels := map (fun r => rowGet (deref h r) (xAxis cfg)) rs;
                     datasets :=
                       [XYDataset (yAxis cfg)
                          (map (fun r => numberOrZero
                                           (rowGet (deref h r) (yAxis cfg))) rs)
                          (if String.eqb (type cfg) "bar"
                           then Some "rgba(54, 162, 235, 0.6)" else None)
                          "rgba(54, 162, 235, 1)" 2 false] |} |}
  end.

(** The dataset the machine holds: the rows its references lead to. *)
Definition dataset (m : Machine) : option ExcelRecord :=
  match rows m with
  | Some rs => Some {| data := map (deref (objects m)) rs |}
  | None => None
  end.

(** Every reference to a row leads to an object of the heap. *)
Definition wellFormed (m : Machine) : Prop :=
  forall rs r, rows m = Some rs -> In r rs -> (r < List.length (objects m))%nat.

End Heap.

(** ** Notions the statements use *)

(** The grouping key of a row: its x-axis cell as a property key. *)
Definition keyOf (cfg : ChartConfig) (row : Row) : string :=
  ToString (rowGet row (xAxis cfg)).

(** The number a row contributes: its y-axis cell through
    [parseFloat(...) || 0]. *)
Definition valueOf (cfg : ChartConfig) (row : Row) : float :=
  numberOrZero (rowGet row (yAxis cfg)).

(** The value sequence of a chart: the [data] of its single dataset. *)
Definition chartValues (cd : ChartData) : list value :=
  match datasets cd with
  | [PieDataset d _] => d
  | [XYDataset _ d _ _ _ _] => map VNum d
  | _ => []
  end.

(** The column names the page offers: [Object.keys(data[0])], as
    [fetchExcelData] sets them. *)
Definition columnsOf (D : Dataset) : list string :=
  match D with
  | [] => []
  | row :: _ => map fst row
  end.

Definition hasColumn (row : Row) (column : string) : bool :=
  existsb (fun p => String.eqb column (fst p)) row.

(** A scalar: any value but an object. *)
Definition isScalar (v : value) : bool :=
  match v with
  | VObject _ => false
  | _ => true
  end.

(** What a row without the column reads under it. *)
Definition inheritedCell (column : string) : value :=
  match Obj.inheritedText column with
  | Some text => VObject text
  | None => VUndefined
  end.

(** The row, an object with one property per name, has the cell [v] of its
    own under the column. *)
Definition ownCell (row : Row) (column : string) (v : value) : Prop :=
  NoDup (map fst row) /\ In (column, v) row.

(** No series at all, or a series without points. *)
Definition emptySeries (r : option ChartData) : Prop :=
  r = None \/ exists cd, r = Some cd /\ labels cd = [] /\ chartValues cd = [].

(** One more row on a key's total: [(total || 0) + v]. *)
Definition addToTotal (acc v : float) : float :=
  ((if truthyNumber acc then acc else 0) + v)%float.

(** The total a key accumulates over the numbers [vs] of its rows, in row
    order, from an absent property. *)
Definition runningTotal (vs : list float) : float :=
  fold_left addToTotal vs 0%float.

(** The rows grouped under the key [k]. *)
Definition rowsOf (cfg : ChartConfig) (k : string) (D : Dataset) : Dataset :=
  filter (fun row => String.eqb (keyOf cfg row) k) D.

(** Summing a value sequence from 0 with [+], as a reader of the chart
    would. *)
Definition sumValues (vs : list value) : value :=
  fold_left JS.add vs (VNum 0).

(** Summing the numbers of all rows from 0, in row order. *)
Definition sumRows (cfg : ChartConfig) (D : Dataset) : value :=
  fold_left (fun acc row => JS.add acc (VNum (valueOf cfg row))) D (VNum 0).

(** [k] and [k'] both occur in [l] and the first [k] comes before the
    first [k']. *)
Fixpoint precedes (k k' : string) (l : list string) : bool :=
  match l with
  | [] => false
  | x :: l' =>
      if String.eqb x k' then false
      else if String.eqb x k then existsb (String.eqb k') l'
      else precedes k k' l'
  end.

(** [n] is the number of distinct elements of [xs]. *)
Definition distinctCount {A : Type} (xs : list A) (n : nat) : Prop :=
  exists l, NoDup l /\ (forall x, In x l <-> In x xs) /\ List.length l = n.

(** Text that begins, after leading white space and an optional sign, with
    a digit, with a dot and a digit, or with [Infinity]. *)
Definition startsNumeric (s : string) : bool :=
  let unsigned t :=
    prefix "Infinity" t ||
    match t with
    | String "." (String c _) => isDigit c
    | String c _ => isDigit c
    | EmptyString => false
    end in
  match trimStart s with
  | String "-" t => unsigned t
  | String "+" t => unsigned t
  | t => unsigned t
  end.

(** ** Integers in binary64

    The representation of an integer of fewer than 54 bits: 53 significant
    bits and the exponent that goes with them. *)

Definition safeInt (z : Z) : Prop := Z.abs z < 2 ^ 53.

Definition intMantissa (z : Z) : positive :=
  Z.to_pos (Z.abs z * 2 ^ (52 - Z.log2 (Z.abs z))).

Definition intExponent (z : Z) : Z := Z.log2 (Z.abs z) - 52.

Definition canonInt (z : Z) : spec_float :=
  match z with
  | Z0 => S754_zero false
  | Zpos _ => S754_finite false (intMantissa z) (intExponent z)
  | Zneg _ => S754_finite true (intMantissa z) (intExponent z)
  end.

(** The number that is the integer [z]. *)
Definition ofZ (z : Z) : float := SF2Prim (canonInt z).

(** The integer part of a finite number, 0 for the others. *)
Definition toZ (f : float) : Z :=
  match Prim2SF f with
  | S754_finite s m e =>
      cond_Zopp s (if 0 <=? e then Zpos m * 2 ^ e else Zpos m / 2 ^ (- e))
  | _ => 0
  end.

(** The number is an integer of fewer than 54 bits. *)
Definition isSafeInteger (f : float) : Prop := ofZ (toZ f) = f.

(** The decimal text of an integer. *)
Definition integerText (n : Z) : string :=
  if n <? 0 then String "-" (decimalDigits (- n)) else decimalDigits n.

(** The cell holds the integer [n], of fewer than 53 bits, as a number or
    as its decimal text. *)
Definition holdsInteger (cell : value) (n : Z) : Prop :=
  Z.abs n < 2 ^ 52 /\ (cell = VNum (ofZ n) \/ cell = VStr (integerText n)).

Definition sumOver {A : Type} (h : A -> Z) (l : list A) : Z :=
  fold_right (fun x s => h x + s) 0 l.

(** ** Own keys of the aggregation object *)

(** What a write does to the list of own keys. *)
Definition addKey (l : list string) (k : string) : list string :=
  if String.eqb k "__proto__" then l
  else if existsb (String.eqb k) l then l
  else (l ++ [k])%list.

(** First occurrences, in order. *)
Fixpoint nub (l : list string) : list string :=
  match l with
  | [] => []
  | x :: l' => x :: filter (fun y => negb (String.eqb y x)) (nub l')
  end.

Definition notProto (k : string) : bool := negb (String.eqb k "__proto__").

Definition leIndex (a b : string) : Prop := Obj.indexValue a <= Obj.indexValue b.

(** How the text of a number can begin: a digit, a minus sign, [NaN] or
    [Infinity]. *)
Definition numberLead (c : ascii) : bool :=
  isDigit c || Ascii.eqb c "-" || Ascii.eqb c "N" || Ascii.eqb c "I".

(** ** Sample data *)

Definition regionSales (region sales : value) : Row :=
  [("region", region); ("sales", sales)].

Definition request (chartType : string) : ChartConfig :=
  {| type := chartType; title := ""; xAxis := "region"; yAxis := "sales" |}.

Definition sampleRows : Dataset :=
  [ regionSales (VStr "A") (VStr "10");
    regionSales (VStr "B") (VStr "20");
    regionSales (VStr "A") (VStr "5") ].

Definition samplePage (chartType : string) (previous : option ChartData)
  : PageState :=
  {| excelData := Some {| data := sampleRows |};
     columns := ["region"; "sales"];
     chartConfig := request chartType;
     chartData := previous |}.

(** A request whose axes were never chosen, on a page that already shows a
    chart. *)
Definition unsetRequest : ChartConfig :=
  {| type := "bar"; title := ""; xAxis := ""; yAxis := "" |}.

Definition unsetPage : PageState :=
  {| excelData := Some {| data := sampleRows |};
     columns := ["region"; "sales"];
     chartConfig := unsetRequest;
     chartData := Some {| labels := [VStr "old"]; datasets := [] |} |}.

(** A request that names a column the sheet does not have. *)
Definition cityRequest : ChartConfig :=
  {| type := "bar"; title := ""; xAxis := "city"; yAxis := "sales" |}.

(** Two rows whose categories are the number 1 and the text [1]. *)
Definition mixedRows : Dataset :=
  [ regionSales (VNum 1) (VStr "10"); regionSales (VStr "1") (VStr "20") ].

(** Two rows whose categories are years, the later year first. *)
Definition yearRows : Dataset :=
  [ regionSales (VStr "2024") (VStr "10");
    regionSales (VStr "2023") (VStr "20") ].

(** Five rows with numeric cells: 1e16, 1 and -1e16 under A, 1 and 1
    under B. *)
Definition ledgerRows : Dataset :=
  [ regionSales (VStr "A") (VNum 1e16);
    regionSales (VStr "B") (VNum 1);
    regionSales (VStr "A") (VNum 1);
    regionSales (VStr "A") (VNum (-1e16));
    regionSales (VStr "B") (VNum 1) ].

(** Categories that are names of properties of [Object.prototype]. *)
Definition inheritedRows : Dataset :=
  [ regionSales (VStr "__proto__") (VStr "10");
    regionSales (VStr "constructor") (VStr "10");
    regionSales (VStr "constructor") (VStr "5") ].

(** A total that passes through NaN. *)
Definition infiniteRows : Dataset :=
  [ regionSales (VStr "A") (VStr "Infinity");
    regionSales (VStr "A") (VStr "-Infinity");
    regionSales (VStr "A") (VStr "5") ].

(** A sheet with a blank value cell, a value cell of text, and a row with
    text for a value and no category. *)
Definition patchyRows : Dataset :=
  [ regionSales (VStr "A") (VStr "10");
    [("region", VStr "B")];
    regionSales (VStr "A") (VStr "abc");
    [("sales", VStr "n/a")] ].

(** ** The rest of the chart page

    [ChartAnalysisPage] keeps, besides the four state variables of
    [PageState], the flags [loading] and [saving] and reads [fileId] from
    the address.  Its asynchronous handlers are split at their [await]: the
    part that runs on the click, and the part that runs when the request
    settles. *)

Inductive Toast : Type :=
| ToastError (message : string)
| ToastSuccess (message : string).

Module Analysis.

(** The page.  [otherConfig] holds the properties of [chartConfig] besides
    [type], [title], [xAxis] and [yAxis]: [handleConfigChange] takes any
    property name. *)
Record Page : Type :=
  { view : PageState;
    otherConfig : list (string * string);
    fileId : option string;
    loading : bool;
    saving : bool }.

Definition initialConfig : ChartConfig :=
  {| type := "bar"; title := ""; xAxis := ""; yAxis := "" |}.

Definition initialPage (id : option string) : Page :=
  {| view := {| excelData := None; columns := []; chartConfig := initialConfig;
                chartData := None |};
     otherConfig := [];
     fileId := id;
     loading := false;
     saving := false |}.

Definition withView (p : Page) (v : PageState) : Page :=
  {| view := v; otherConfig := otherConfig p; fileId := fileId p;
     loading := loading p; saving := saving p |}.

Definition withLoading (p : Page) (b : bool) : Page :=
  {| view := view p; otherConfig := otherConfig p; fileId := fileId p;
     loading := b; saving := saving p |}.

Definition withSaving (p : Page) (b : bool) : Page :=
  {| view := view p; otherConfig := otherConfig p; fileId := fileId p;
     loading := loading p; saving := b |}.

Definition withFileId (p : Page) (id : option string) : Page :=
  {| view := view p; otherConfig := otherConfig p; fileId := id;
     loading := loading p; saving := saving p |}.

Definition withConfig (st : PageState) (cfg : ChartConfig) : PageState :=
  {| excelData := excelData st; columns := columns st; chartConfig := cfg;
     chartData := chartData st |}.

(** [{...prev, [field]: value}] on the properties outside the record: an
    existing property is overwritten in place, a new one comes last. *)
Fixpoint putProperty (field value : string) (l : list (string * string))
  : list (string * string) :=
  match l with
  | [] => [(field, value)]
  | (k, v) :: l' =>
      if String.eqb k field then (k, value) :: l'
      else (k, v) :: putProperty field value l'
  end.

Fixpoint getProperty (l : list (string * string)) (field : string)
  : option string :=
  match l with
  | [] => None
  | (k, v) :: l' => if String.eqb k field then Some v else getProperty l' field
  end.

Definition handleConfigChange (field value : string) (p : Page) : Page :=
  let cfg := chartConfig (view p) in
  if String.eqb field "type" then
    withView p (withConfig (view p)
      {| type := value; title := title cfg; xAxis := xAxis cfg; yAxis := yAxis cfg |})
  else if String.eqb field "title" then
    withView p (withConfig (view p)
      {| type := type cfg; title := value; xAxis := xAxis cfg; yAxis := yAxis cfg |})
  else if String.eqb field "xAxis" then
    withView p (withConfig (view p)
      {| type := type cfg; title := title cfg; xAxis := value; yAxis := yAxis cfg |})
  else if String.eqb field "yAxis" then
    withView p (withConfig (view p)
      {| type := type cfg; title := title cfg; xAxis := xAxis cfg; yAxis := value |})
  else
    {| view := view p; otherConfig := putProperty field value (otherConfig p);
       fileId := fileId p; loading := loading p; saving := saving p |}.

(** [chartConfig[field]]. *)
Definition readConfig (p : Page) (field : string) : option string :=
  let cfg := chartConfig (view p) in
  if String.eqb field "type" then Some (type cfg)
  else if String.eqb field "title" then Some (title cfg)
  else if String.eqb field "xAxis" then Some (xAxis cfg)
  else if String.eqb field "yAxis" then Some (yAxis cfg)
  else getProperty (otherConfig p) field.

(** The button [Generate Chart]. *)
Definition clickGenerate (p : Page) : Page :=
  withView p (generateChartData (view p)).

(** How [excelAPI.getExcelData] settles: rejected, resolved to a response
    without a [record], or resolved to a response with one. *)
Inductive FetchOutcome : Type :=
| FetchRejected
| FetchNoRecord
| FetchRecord (record : ExcelRecord).

(** [fetchExcelData] up to its [await]. *)
Definition fetchStart (p : Page) : Page := withLoading p true.

(** [fetchExcelData] from its [await] on.  Without a record,
    [setExcelData(response.record)] has run before [response.record.data]
    throws into the [catch]. *)
Definition fetchEnd (o : FetchOutcome) (p : Page) : Page * list Toast :=
  let st := view p in
  match o with
  | FetchRejected =>
      (withLoading p false, [ToastError "Failed to load Excel data"])
  | FetchNoRecord =>
      (withLoading
         (withView p {| excelData := None; columns := columns st;
                        chartConfig := chartConfig st; chartData := chartData st |})
         false,
       [ToastError "Failed to load Excel data"])
  | FetchRecord record =>
      (withLoading
         (withView p
            {| excelData := Some record;
               columns := match data record with
                          | row :: _ => Obj.keys row
                          | [] => columns st
                          end;
               chartConfig := chartConfig st; chartData := chartData st |})
         false,
       [])
  end.

(** The argument of [chartAPI.saveChart]. *)
Record ChartPayload : Type :=
  { payloadTitle : string;
    payloadType : string;
    payloadConfig : ChartConfig * list (string * string);
    payloadData : ChartData;
    excelRecordId : option string }.

Inductive Request : Type :=
| GetExcelData (recordId : string)
| SaveChart (payload : ChartPayload).

Inductive Effect : Type :=
| Shows (toast : Toast)
| Sends (request : Request).

(** [handleSaveChart] up to its [await]. *)
Definition saveStart (p : Page) : Page * Effect :=
  let cfg := chartConfig (view p) in
  match chartData (view p) with
  | Some cd =>
      if String.eqb (title cfg) "" then
        (p, Shows (ToastError "Please configure the chart and add a title"))
      else
        (withSaving p true,
         Sends (SaveChart {| payloadTitle := title cfg;
                             payloadType := type cfg;
                             payloadConfig := (cfg, otherConfig p);
                             payloadData := cd;
                             excelRecordId := fileId p |}))
  | None => (p, Shows (ToastError "Please configure the chart and add a title"))
  end.

(** [handleSaveChart] from its [await] on; [ok] tells whether the request
    was fulfilled. *)
Definition saveEnd (ok : bool) (p : Page) : Page * Effect :=
  (withSaving p false,
   Shows (if ok then ToastSuccess "Chart saved successfully!"
          else ToastError "Failed to save chart")).

(** What [renderChart] returns: the Chart.js component, its data and its
    options. *)
Inductive Component : Type := Bar | Line | Pie | Scatter.

Record ChartOptions : Type :=
  { responsive : bool;
    legendPosition : string;
    titleDisplay : bool;
    titleText : string;
    (* the axis titles of [x] and [y], both displayed; none for a pie *)
    scales : option (string * string) }.

Definition renderChart (p : Page) : option (Component * ChartData * ChartOptions) :=
  let cfg := chartConfig (view p) in
  match chartData (view p) with
  | None => None
  | Some cd =>
      let options :=
        {| responsive := true;
           legendPosition := "top";
           titleDisplay := true;
           titleText := if String.eqb (title cfg) "" then "Chart Preview"
                        else title cfg;
           scales := if String.eqb (type cfg) "pie" then None
                     else Some (xAxis cfg, yAxis cfg) |} in
      let component :=
        if String.eqb (type cfg) "bar" then Bar
        else if String.eqb (type cfg) "line" then Line
        else if String.eqb (type cfg) "pie" then Pie
        else if String.eqb (type cfg) "scatter" then Scatter
        else Bar in
      Some (component, cd, options)
  end.

(** The button [Save Chart] is [disabled={saving || !chartData}]. *)
Definition saveDisabled (p : Page) : bool :=
  saving p || match chartData (view p) with Some _ => false | None => true end.

(** The table [Data Preview]: a header of the columns, and the first ten
    rows with one cell [row[column]] per column.  It is there once a record
    is, and not while the page is [loading], when the spinner is all that is
    rendered. *)
Definition previewTable (p : Page) : option (list string * list (list value)) :=
  if loading p then None
  else
    match excelData (view p) with
    | None => None
    | Some record =>
        Some (columns (view p),
              map (fun row => map (fun column => rowGet row column)
                                (columns (view p)))
                  (firstn 10 (data record)))
    end.

(** *** The page in its surroundings

    The requests in flight, the toasts shown so far and the requests sent
    so far, the latest first. *)
Record World : Type :=
  { page : Page;
    pending : list Request;
    toasts : list Toast;
    sent : list Request }.

Inductive Event : Type :=
| Visit (id : option string)          (* the address changes *)
| FetchDone (id : string) (o : FetchOutcome)
| Change (field value : string)
| Generate
| SaveClick
| SaveDone (ok : bool).

Definition isGet (id : string) (r : Request) : bool :=
  match r with
  | GetExcelData i => String.eqb i id
  | SaveChart _ => false
  end.

Definition isSave (r : Request) : bool :=
  match r with
  | GetExcelData _ => false
  | SaveChart _ => true
  end.

(** The list without its first element that satisfies [f], if there is
    one. *)
Fixpoint takeOut {A : Type} (f : A -> bool) (l : list A) : option (list A) :=
  match l with
  | [] => None
  | x :: l' =>
      if f x then Some l'
      else match takeOut f l' with
           | Some r => Some (x :: r)
           | None => None
           end
  end.

Definition sameId (a b : option string) : bool :=
  match a, b with
  | Some x, Some y => String.eqb x y
  | None, None => true
  | _, _ => false
  end.

(** The effect [if (fileId) fetchExcelData(fileId)]. *)
Definition runEffect (w : World) : World :=
  match fileId (page w) with
  | Some id =>
      if String.eqb id "" then w
      else {| page := fetchStart (page w);
              pending := pending w ++ [GetExcelData id];
              toasts := toasts w;
              sent := GetExcelData id :: sent w |}
  | None => w
  end.

(** The page as it mounts at an address. *)
Definition mount (id : option string) : World :=
  runEffect {| page := initialPage id; pending := []; toasts := []; sent := [] |}.

Definition withPage (w : World) (p : Page) : World :=
  {| page := p; pending := pending w; toasts := toasts w; sent := sent w |}.

Definition applyEffect (w : World) (r : Page * Effect) : World :=
  match snd r with
  | Shows t =>
      {| page := fst r; pending := pending w; toasts := t :: toasts w;
         sent := sent w |}
  | Sends q =>
      {| page := fst r; pending := pending w ++ [q]; toasts := toasts w;
         sent := q :: sent w |}
  end.

(** One event, [None] where the page does not allow it: while [loading]
    the page renders the spinner alone, the save button can be disabled,
    and a request settles only while it is in flight.  The effect on
    [fileId] runs when [fileId] changes. *)
Definition step (w : World) (e : Event) : option World :=
  let p := page w in
  match e with
  | Visit id =>
      if sameId id (fileId p) then Some w
      else Some (runEffect (withPage w (withFileId p id)))
  | FetchDone id o =>
      match takeOut (isGet id) (pending w) with
      | Some rest =>
          let r := fetchEnd o p in
          Some {| page := fst r; pending := rest;
                  toasts := (rev (snd r) ++ toasts w)%list; sent := sent w |}
      | None => None
      end
  | Change field value =>
      if loading p then None else Some (withPage w (handleConfigChange field value p))
  | Generate =>
      if loading p then None else Some (withPage w (clickGenerate p))
  | SaveClick =>
      if loading p || saveDisabled p then None
      else Some (applyEffect w (saveStart p))
  | SaveDone ok =>
      match takeOut isSave (pending w) with
      | Some rest =>
          Some (applyEffect
                  {| page := p; pending := rest; toasts := toasts w; sent := sent w |}
                  (saveEnd ok p))
      | None => None
      end
  end.

Fixpoint run (es : list Event) (w : World) : option World :=
  match es with
  | [] => Some w
  | e :: es' =>
      match step w e with
      | Some w' => run es' w'
      | None => None
      end
  end.

(** An address that names a file: [fileId] is a text that is not empty. *)
Definition namesFile (id : option string) : bool :=
  match id with
  | Some s => negb (String.eqb s "")
  | None => false
  end.

Definition isVisitOfFile (e : Event) : bool :=
  match e with
  | Visit id => namesFile id
  | _ => false
  end.

End Analysis.

(** ** The request interceptor of the API client

    [api.interceptors.request.use]: the token of [localStorage] goes into
    the header [Authorization]. *)

Module Api.

Definition Storage : Type := list (string * string).

(** [localStorage.getItem(key)], [null] as [None]. *)
Fixpoint getItem (s : Storage) (key : string) : option string :=
  match s with
  | [] => None
  | (k, v) :: s' => if String.eqb k key then Some v else getItem s' key
  end.

Record RequestConfig : Type :=
  { url : string;
    method : string;
    headers : Obj.object }.

Definition authInterceptor (localStorage : Storage) (config : RequestConfig)
  : RequestConfig :=
  match getItem localStorage "token" with
  | Some token =>
      if String.eqb token "" then config
      else {| url := url config; method := method config;
              headers := Obj.set (headers config) "Authorization"
                           (VStr (String.append "Bearer " token)) |}
  | None => config
  end.

End Api.

(** ** The dashboard

    [Dashboard] with its simulated server: [fetchFiles] and
    [handleFileUpload] each set a timer, and the rest of the work is done
    when the timer fires. *)

Module DOM.

(** A [File] of a file input, of which the page reads two properties. *)
Record File : Type := { name : string; size : float }.

End DOM.

Module Dashboard.

Record ExcelFile : Type :=
  { _id : string; filename : string; uploadDate : string; size : float }.

Record State : Type :=
  { uploadFile : option DOM.File;
    uploading : bool;
    loading : bool;
    excelFiles : list ExcelFile }.

Definition initialState : State :=
  {| uploadFile := None; uploading := false; loading := true; excelFiles := [] |}.

(** [fetchFiles] up to [setTimeout]. *)
Definition fetchFiles (d : State) : State :=
  {| uploadFile := uploadFile d; uploading := uploading d; loading := true;
     excelFiles := excelFiles d |}.

(** The callback of [fetchFiles]. *)
Definition filesTimer (d : State) : State :=
  {| uploadFile := uploadFile d; uploading := uploading d; loading := false;
     excelFiles := [] |}.

(** The file input: [setUploadFile(e.target.files?.[0] || null)]. *)
Definition selectFile (f : option DOM.File) (d : State) : State :=
  {| uploadFile := f; uploading := uploading d; loading := loading d;
     excelFiles := excelFiles d |}.

(** [handleFileUpload]: the state it leaves, the toast it shows, and the
    file its timer holds.  The [finally] clears the selection at once. *)
Definition handleFileUpload (d : State) : State * option Toast * option DOM.File :=
  match uploadFile d with
  | None => (d, Some (ToastError "Please select a file to upload"), None)
  | Some f =>
      ({| uploadFile := None; uploading := true; loading := loading d;
          excelFiles := excelFiles d |},
       None, Some f)
  end.

(** The callback of [handleFileUpload] for the file [f], run when
    [Date.now()] is [now] and [new Date().toISOString()] is [iso]. *)
Definition uploadTimer (f : DOM.File) (now : float) (iso : string) (d : State)
  : State * Toast :=
  let newFile :=
    {| _id := numberToString now; filename := DOM.name f; uploadDate := iso;
       size := DOM.size f |} in
  ({| uploadFile := None; uploading := false; loading := loading d;
      excelFiles := newFile :: excelFiles d |},
   ToastSuccess "Excel file uploaded successfully!").

(** The button [Upload] is [disabled={uploading || !uploadFile}]. *)
Definition uploadDisabled (d : State) : bool :=
  uploading d || match uploadFile d with Some _ => false | None => true end.

(** The dashboard with its timers: whether the timer of [fetchFiles] is
    set, the files the upload timers hold, the oldest first, and the toasts
    shown, the latest first. *)
Record World : Type :=
  { dash : State;
    filesTimerSet : bool;
    uploadTimers : list DOM.File;
    toasts : list Toast }.

Inductive Event : Type :=
| FilesTimer
| Select (f : option DOM.File)
| UploadClick
| UploadTimer (now : float) (iso : string).

Definition mount : World :=
  {| dash := fetchFiles initialState; filesTimerSet := true; uploadTimers := [];
     toasts := [] |}.

Definition step (w : World) (e : Event) : option World :=
  match e with
  | FilesTimer =>
      if filesTimerSet w then
        Some {| dash := filesTimer (dash w); filesTimerSet := false;
                uploadTimers := uploadTimers w; toasts := toasts w |}
      else None
  | Select f =>
      Some {| dash := selectFile f (dash w); filesTimerSet := filesTimerSet w;
              uploadTimers := uploadTimers w; toasts := toasts w |}
  | UploadClick =>
      if uploadDisabled (dash w) then None
      else
        match handleFileUpload (dash w) with
        | (d, t, timer) =>
            Some {| dash := d; filesTimerSet := filesTimerSet w;
                    uploadTimers :=
                      (uploadTimers w
                       ++ match timer with Some f => [f] | None => [] end)%list;
                    toasts :=
                      (match t with Some x => [x] | None => [] end
                       ++ toasts w)%list |}
        end
  | UploadTimer now iso =>
      match uploadTimers w with
      | f :: rest =>
          let r := uploadTimer f now iso (dash w) in
          Some {| dash := fst r; filesTimerSet := filesTimerSet w;
                  uploadTimers := rest; toasts := snd r :: toasts w |}
      | [] => None
      end
  end.

Fixpoint run (es : list Event) (w : World) : option World :=
  match es with
  | [] => Some w
  | e :: es' =>
      match step w e with
      | Some w' => run es' w'
      | None => None
      end
  end.

Definition isUploadTimer (e : Event) : bool :=
  match e with
  | UploadTimer _ _ => true
  | _ => false
  end.

Definition isFilesTimer (e : Event) : bool :=
  match e with
  | FilesTimer => true
  | _ => false
  end.

(** The dashboard once the timer of [fetchFiles] has fired. *)
Definition listLoaded : World :=
  {| dash := filesTimer (dash mount); filesTimerSet := false;
     uploadTimers := []; toasts := [] |}.

End Dashboard.

(** ** Notions of the statements on the pages *)

(** What the two flags say about the requests in flight. *)
Definition flagsFollowRequests (w : Analysis.World) : Prop :=
  List.length (filter Analysis.isSave (Analysis.pending w))
  = (if Analysis.saving (Analysis.page w) then 1 else 0)%nat
  /\ (Analysis.loading (Analysis.page w) = true ->
      existsb (fun r => negb (Analysis.isSave r)) (Analysis.pending w) = true).

(** A request as the page sends it: a file id that is not empty; a chart
    with a title, under the title and type of its configuration. *)
Definition wellFormed (r : Analysis.Request) : Prop :=
  match r with
  | Analysis.GetExcelData i => i <> ""
  | Analysis.SaveChart q =>
      Analysis.payloadTitle q <> ""
      /\ Analysis.payloadTitle q = title (fst (Analysis.payloadConfig q))
      /\ Analysis.payloadType q = type (fst (Analysis.payloadConfig q))
  end.

(** The id and the date of the files that a run of events adds, in the
    order of the events. *)
Definition stamps (es : list Dashboard.Event) : list (string * string) :=
  flat_map (fun e => match e with
                     | Dashboard.UploadTimer now iso => [(numberToString now, iso)]
                     | _ => []
                     end) es.

(** ** More sample data *)

(** Two rows with the categories A and B. *)
Definition twoRegions : Dataset :=
  [ regionSales (VStr "A") (VStr "10"); regionSales (VStr "B") (VStr "20") ].

(** A visit of the chart page: the record arrives and a bar chart of the
    sales by region is generated. *)
Definition chartSession : list Analysis.Event :=
  [ Analysis.FetchDone "f1" (Analysis.FetchRecord {| data := sampleRows |});
    Analysis.Change "xAxis" "region"; Analysis.Change "yAxis" "sales";
    Analysis.Generate ].

(** The page after it. *)
Definition chartShown : Analysis.World :=
  match Analysis.run chartSession (Analysis.mount (Some "f1")) with
  | Some w => w
  | None => Analysis.mount (Some "f1")
  end.

(** The same, and the chart gets a title and is saved. *)
Definition saveSession : list Analysis.Event :=
  (chartSession ++ [Analysis.Change "title" "Sales"; Analysis.SaveClick])%list.


(** The address changes to another file, the response has no record, the
    x-axis is cleared and the chart is generated again. *)
Definition lostRecord : list Analysis.Event :=
  [ Analysis.Visit (Some "f2");
    Analysis.FetchDone "f2" Analysis.FetchNoRecord;
    Analysis.Change "xAxis" ""; Analysis.Generate ].

(** What a user can do on a page that was opened without a file. *)
Definition blindSession : list Analysis.Event :=
  [ Analysis.Change "xAxis" "region"; Analysis.Change "yAxis" "sales";
    Analysis.Change "title" "Sales"; Analysis.Generate;
    Analysis.Visit (Some "") ].

(** On the dashboard: the list arrives, a file is selected and the upload
    is started. *)
Definition uploadSession : list Dashboard.Event :=
  [ Dashboard.FilesTimer;
    Dashboard.Select (Some {| DOM.name := "sales.xlsx"; DOM.size := 2048 |});
    Dashboard.UploadClick ].

(** A file is selected and uploaded, and a second file is selected while
    the upload is running. *)
Definition uploadCompleted : list Dashboard.Event :=
  [ Dashboard.Select (Some {| DOM.name := "sales.xlsx"; DOM.size := 2048 |});
    Dashboard.UploadClick;
    Dashboard.Select (Some {| DOM.name := "costs.xlsx"; DOM.size := 512 |});
    Dashboard.UploadTimer 1700000000000 "2023-11-14T22:13:20.000Z" ].

(** Cells that are text with a number in front. *)
Definition prefixRows : Dataset :=
  [ regionSales (VStr "A") (VStr "12abc");
    regionSales (VStr "A") (VStr "1,234");
    regionSales (VStr "A") (VStr "2024-01-05") ].

(** A sheet with a column [constructor] that only its first row fills in. *)
Definition sparseRows : Dataset :=
  [ [("constructor", VStr "x"); ("sales", VStr "1")];
    [("sales", VStr "10")];
    [("sales", VStr "20")] ].

Definition constructorRequest (chartType : string) : ChartConfig :=
  {| type := chartType; title := ""; xAxis := "constructor"; yAxis := "sales" |}.

(** The sample rows as objects of a heap that holds another object before
    them, and the page that refers to them. *)
Definition sampleMachine (chartType : string) (previous : option ChartData)
  : Heap.Machine :=
  {| Heap.objects := [("other", VNum 1)] :: sampleRows;
     Heap.rows := Some [1; 2; 3]%nat;
     Heap.config := request chartType;
     Heap.chart := previous |}.

(** ** Binary64 facts *)

Lemma truthyNumber_not_zero (x : float) :
  truthyNumber x = true -> forall s, Prim2SF x <> S754_zero s.
Proof.
  unfold truthyNumber. intros H s E.
  rewrite negb_true_iff, orb_false_iff in H. destruct H as [_ H].
  rewrite FloatAxioms.eqb_spec, E in H. destruct s; discriminate H.
Qed.

Lemma add_zero_r (x : float) :
  Prim2SF x <> S754_zero true -> (x + 0)%float = x.
Proof.
  intro H. rewrite <- (SF2Prim_Prim2SF (x + 0)), add_spec.
  rewrite <- (SF2Prim_Prim2SF x) at 2. f_equal.
  change (Prim2SF 0) with (S754_zero false).
  destruct (Prim2SF x) as [[|]| | |]; try reflexivity. congruence.
Qed.

Lemma add_zero_l (x : float) :
  Prim2SF x <> S754_zero true -> (0 + x)%float = x.
Proof.
  intro H. rewrite <- (SF2Prim_Prim2SF (0 + x)), add_spec.
  rewrite <- (SF2Prim_Prim2SF x) at 2. f_equal.
  change (Prim2SF 0) with (S754_zero false).
  destruct (Prim2SF x) as [[|]| | |]; try reflexivity. congruence.
Qed.

(** [parseFloat(cell) || 0] is a truthy number or the number 0. *)
Lemma numberOrZero_cases (cell : value) :
  truthyNumber (numberOrZero cell) = true \/ numberOrZero cell = 0%float.
Proof.
  unfold numberOrZero. destruct (truthyNumber (parseFloat cell)) eqn:E; auto.
Qed.

Lemma numberOrZero_not_neg_zero (cell : value) :
  Prim2SF (numberOrZero cell) <> S754_zero true.
Proof.
  destruct (numberOrZero_cases cell) as [H | H].
  - apply truthyNumber_not_zero, H.
  - rewrite H. discriminate.
Qed.

Lemma VNum_neq (x y : float) :
  PrimFloat.Leibniz.eqb x y = false -> VNum x <> VNum y.
Proof.
  intros E H. injection H as H.
  apply FloatAxioms.Leibniz.eqb_spec in H. congruence.
Qed.

(** ** Addition of integers in binary64 is exact below 2^53 *)

Ltac zfold :=
  change IntDef.Z.add with Z.add in *; change IntDef.Z.sub with Z.sub in *;
  change IntDef.Z.leb with Z.leb in *; change IntDef.Z.max with Z.max in *;
  change IntDef.Z.min with Z.min in *; change IntDef.Z.opp with Z.opp in *;
  change IntDef.Z.eqb with Z.eqb in *.

Ltac round_cbn :=
  cbn [shr shr_record_of_loc shr_m shr_r shr_s loc_of_shr_record
       round_nearest_even Zdigits2].

Lemma digits2_pos_log2 (m : positive) :
  Zpos (digits2_pos m) = Z.log2 (Zpos m) + 1.
Proof.
  induction m as [m IH | m IH |]; simpl digits2_pos.
  - rewrite Pos2Z.inj_succ, IH. 
    change (Zpos m~1) with (2 * Zpos m + 1). rewrite Z.log2_succ_double by lia. lia.
  - rewrite Pos2Z.inj_succ, IH.
    change (Zpos m~0) with (2 * Zpos m). rewrite Z.log2_double by lia. lia.
  - reflexivity.
Qed.

Lemma iter_xO_value (m k : positive) :
  Zpos (Pos.iter xO m k) = Zpos m * 2 ^ Zpos k.
Proof.
  pose proof (shift_pos_correct k m) as H. unfold shift_pos in H.
  rewrite H. rewrite Zpower_pos_nat, Zpower_nat_Z, positive_nat_Z. lia.
Qed.

Lemma iter_shr_exact (k : positive) :
  forall m, iter_pos shr_1 k
              {| shr_m := Zpos (Pos.iter xO m k); shr_r := false; shr_s := false |}
            = {| shr_m := Zpos m; shr_r := false; shr_s := false |}.
Proof.
  induction k as [k IH | k IH |]; intro m; simpl.
  - now rewrite !IH.
  - now rewrite !IH.
  - reflexivity.
Qed.

Lemma fexp_normal (e : Z) : -1074 <= e -> fexp prec emax (53 + e) = e.
Proof. unfold fexp, SpecFloat.emin, prec, emax. lia. Qed.

Lemma round_aux_canonical (s : bool) (mant : positive) (e : Z) :
  Z.log2 (Zpos mant) = 52 -> -1074 <= e <= 971 ->
  binary_round_aux prec emax s (Zpos mant) e loc_Exact = S754_finite s mant e.
Proof.
  intros L B. unfold binary_round_aux, shr_fexp. zfold. round_cbn.
  rewrite digits2_pos_log2, L. change (52 + 1) with 53.
  rewrite fexp_normal by lia. rewrite Z.sub_diag. round_cbn.
  rewrite digits2_pos_log2, L. change (52 + 1) with 53.
  rewrite fexp_normal by lia. rewrite Z.sub_diag. round_cbn.
  assert ((e <=? emax - prec) = true) as ->
      by (apply Z.leb_le; unfold emax, prec; lia).
  reflexivity.
Qed.

Lemma round_aux_shifted (s : bool) (mant k : positive) (e : Z) :
  Z.log2 (Zpos mant) = 52 -> -1074 <= e <= 971 ->
  binary_round_aux prec emax s (Zpos (Pos.iter xO mant k)) (e - Zpos k) loc_Exact
  = S754_finite s mant e.
Proof.
  intros L B.
  assert (Zpos (digits2_pos (Pos.iter xO mant k)) = 53 + Zpos k) as D.
  { rewrite digits2_pos_log2, iter_xO_value, Z.log2_mul_pow2, L by lia. lia. }
  unfold binary_round_aux, shr_fexp. zfold. round_cbn. rewrite D.
  replace (53 + Zpos k + (e - Zpos k)) with (53 + e) by lia.
  rewrite fexp_normal by lia.
  replace (e - (e - Zpos k)) with (Zpos k) by lia.
  round_cbn. rewrite iter_shr_exact. round_cbn.
  rewrite digits2_pos_log2, L. change (52 + 1) with 53.
  replace (e - Zpos k + Zpos k) with e by lia.
  rewrite fexp_normal by lia. rewrite Z.sub_diag. round_cbn.
  assert ((e <=? emax - prec) = true) as ->
      by (apply Z.leb_le; unfold emax, prec; lia).
  reflexivity.
Qed.

Lemma binary_round_exact (s : bool) (M mant : positive) (E e : Z) :
  Z.log2 (Zpos mant) = 52 -> -1074 <= e <= 971 ->
  (e <= E /\ Zpos M * 2 ^ (E - e) = Zpos mant)
  \/ (E < e /\ Zpos M = Zpos mant * 2 ^ (e - E)) ->
  binary_round prec emax s M E = S754_finite s mant e.
Proof.
  intros L B V. unfold binary_round. zfold.
  assert (Zpos (digits2_pos M) + E = 53 + e) as D.
  { rewrite digits2_pos_log2. destruct V as [[Le V] | [Lt V]].
    - assert (Z.log2 (Zpos M * 2 ^ (E - e)) = 52) as H by (now rewrite V).
      rewrite Z.log2_mul_pow2 in H by lia. lia.
    - rewrite V, Z.log2_mul_pow2 by lia. lia. }
  rewrite D, fexp_normal by lia. unfold shl_align.
  destruct V as [[Le V] | [Lt V]].
  - destruct (e - E) as [| d | d] eqn:S; try lia.
    + assert (E = e) as -> by lia. rewrite Z.sub_diag, Z.mul_1_r in V.
      injection V as ->. now apply round_aux_canonical.
    + assert (E - e = Zpos d) as S' by lia. rewrite S', <- iter_xO_value in V.
      injection V as ->. now apply round_aux_canonical.
  - destruct (e - E) as [| d | d] eqn:S; try lia.
    rewrite <- iter_xO_value in V. injection V as ->.
    replace E with (e - Zpos d) by lia. now apply round_aux_shifted.
Qed.

Lemma intMantissa_value (c : Z) :
  c <> 0 -> safeInt c ->
  Zpos (intMantissa c) = Z.abs c * 2 ^ (52 - Z.log2 (Z.abs c))
  /\ Z.log2 (Zpos (intMantissa c)) = 52
  /\ -52 <= intExponent c <= 0.
Proof.
  intros N S. unfold safeInt in S. unfold intMantissa, intExponent.
  assert (0 < Z.abs c) as P by lia.
  assert (Z.log2 (Z.abs c) < 53) as L by (apply Z.log2_lt_pow2; lia).
  pose proof (Z.log2_nonneg (Z.abs c)) as L0.
  assert (0 < 2 ^ (52 - Z.log2 (Z.abs c))) as Q by (apply Z.pow_pos_nonneg; lia).
  rewrite Z2Pos.id by nia. split; [reflexivity |]. split; [| lia].
  rewrite Z.log2_mul_pow2 by lia. lia.
Qed.

Lemma binary_normalize_int (c M E : Z) :
  c <> 0 -> safeInt c -> -1074 <= E <= 0 -> M = c * 2 ^ (- E) ->
  binary_normalize prec emax M E false = canonInt c.
Proof.
  intros N S B V.
  destruct (intMantissa_value c N S) as (MV & ML & EB).
  assert (0 < 2 ^ (- E)) as Q by (apply Z.pow_pos_nonneg; lia).
  assert (forall m, Zpos m = Z.abs c * 2 ^ (- E) ->
            forall s, binary_round prec emax s m E
                      = S754_finite s (intMantissa c) (intExponent c)) as R.
  { intros m Hm s. apply binary_round_exact; [exact ML | lia |].
    unfold intExponent in *. rewrite MV, Hm.
    destruct (Z_le_gt_dec (Z.log2 (Z.abs c) - 52) E) as [Le | Gt]; [left | right].
    - split; [exact Le |]. rewrite <- Z.mul_assoc, <- Z.pow_add_r by lia.
      f_equal. f_equal. lia.
    - split; [lia |]. rewrite <- Z.mul_assoc, <- Z.pow_add_r by lia.
      f_equal. f_equal. lia. }
  unfold binary_normalize, canonInt.
  destruct c as [| c | c]; [now elim N | |].
  - destruct M as [| m | m]; try nia.
    apply R. rewrite V. reflexivity.
  - destruct M as [| m | m]; try nia.
    apply R. simpl Z.abs.
    change (Zneg m) with (- Zpos m) in V. change (Zneg c) with (- Zpos c) in V.
    rewrite Z.mul_opp_l in V. lia.
Qed.

Lemma canonInt_nonzero (a : Z) :
  a <> 0 ->
  canonInt a = S754_finite (a <? 0) (intMantissa a) (intExponent a).
Proof. destruct a; [now intros [] | reflexivity | reflexivity]. Qed.

Lemma canonInt_valid (z : Z) : safeInt z -> valid_binary (canonInt z) = true.
Proof.
  intro S. destruct (Z.eq_dec z 0) as [-> | N]; [reflexivity |].
  rewrite (canonInt_nonzero z N).
  unfold SpecFloat.valid_binary, bounded, canonical_mantissa.
  destruct (intMantissa_value z N S) as (_ & ML & EB). zfold.
  rewrite digits2_pos_log2, ML. change (52 + 1) with 53.
  rewrite fexp_normal by lia. rewrite Z.eqb_refl. simpl.
  apply Z.leb_le. unfold emax, prec. lia.
Qed.

Lemma Prim2SF_ofZ (z : Z) : safeInt z -> Prim2SF (ofZ z) = canonInt z.
Proof. intro S. apply Prim2SF_SF2Prim. now apply canonInt_valid. Qed.

Lemma shl_align_value (m : positive) (e e' : Z) :
  e' <= e -> Zpos (fst (shl_align m e e')) = Zpos m * 2 ^ (e - e').
Proof.
  intro Le. unfold shl_align. zfold.
  destruct (e' - e) as [| d | d] eqn:S; try lia; simpl fst.
  - replace (e - e') with 0 by lia. lia.
  - rewrite iter_xO_value. f_equal. f_equal. lia.
Qed.

Lemma aligned_value (a : Z) (ez : Z) :
  a <> 0 -> safeInt a -> ez <= intExponent a ->
  cond_Zopp (a <? 0) (Zpos (fst (shl_align (intMantissa a) (intExponent a) ez)))
  = a * 2 ^ (- ez).
Proof.
  intros N S Le. destruct (intMantissa_value a N S) as (MV & _ & EB).
  rewrite shl_align_value by assumption. rewrite MV.
  unfold intExponent in *.
  rewrite <- Z.mul_assoc, <- Z.pow_add_r by lia.
  replace (52 - Z.log2 (Z.abs a) + (Z.log2 (Z.abs a) - 52 - ez)) with (- ez) by lia.
  unfold cond_Zopp. destruct (a <? 0) eqn:E.
  - apply Z.ltb_lt in E. rewrite Z.abs_neq by lia. lia.
  - apply Z.ltb_ge in E. rewrite Z.abs_eq by lia. reflexivity.
Qed.

Lemma SFadd_int (a b : Z) :
  safeInt a -> safeInt b -> safeInt (a + b) ->
  SFadd prec emax (canonInt a) (canonInt b) = canonInt (a + b).
Proof.
  intros Sa Sb Sab.
  destruct (Z.eq_dec a 0) as [-> | Na].
  { simpl canonInt at 1. simpl Z.add.
    destruct (canonInt b) as [[|] | [|] | | [|] m e] eqn:E; try reflexivity.
    destruct b; discriminate E. }
  destruct (Z.eq_dec b 0) as [-> | Nb].
  { rewrite Z.add_0_r.
    destruct (canonInt a) as [[|] | [|] | | [|] m e] eqn:E; try reflexivity.
    destruct a; discriminate E. }
  rewrite (canonInt_nonzero a Na), (canonInt_nonzero b Nb). unfold SFadd. zfold.
  destruct (intMantissa_value a Na Sa) as (_ & _ & Ea).
  destruct (intMantissa_value b Nb Sb) as (_ & _ & Eb).
  rewrite !aligned_value by (try assumption; lia).
  rewrite <- Z.mul_add_distr_r.
  destruct (Z.eq_dec (a + b) 0) as [Z0 | Nab].
  - rewrite Z0. reflexivity.
  - apply binary_normalize_int; try assumption; [lia | reflexivity].
Qed.

Lemma ofZ_add (a b : Z) :
  safeInt a -> safeInt b -> safeInt (a + b) ->
  (ofZ a + ofZ b)%float = ofZ (a + b).
Proof.
  intros Sa Sb Sab. rewrite <- (SF2Prim_Prim2SF (ofZ a + ofZ b)), add_spec.
  rewrite !Prim2SF_ofZ by assumption. unfold SF64add.
  now rewrite SFadd_int.
Qed.

(** ** Own keys of the aggregation object *)

Lemma existsb_eqb_In (k : string) (l : list string) :
  existsb (String.eqb k) l = true <-> In k l.
Proof.
  rewrite existsb_exists. split.
  - intros [x [Hx E]]. apply String.eqb_eq in E. now subst.
  - intro H. exists k. split; [assumption | apply String.eqb_refl].
Qed.

Lemma existsb_eqb_not_In (k : string) (l : list string) :
  existsb (String.eqb k) l = false <-> ~ In k l.
Proof.
  rewrite <- existsb_eqb_In. destruct (existsb (String.eqb k) l); split;
    intros; try discriminate; try reflexivity; exfalso; auto.
Qed.

Lemma lookup_None_iff (k : string) (o : Obj.object) :
  Obj.lookup k o = None <-> ~ In k (map fst o).
Proof.
  induction o as [| [k' v] o IH]; simpl.
  - tauto.
  - destruct (String.eqb k k') eqn:E.
    + apply String.eqb_eq in E. subst. split; [discriminate | tauto].
    + apply String.eqb_neq in E. rewrite IH. split.
      * intros H [H1 | H1]; [congruence | tauto].
      * tauto.
Qed.

Lemma lookup_Some_In (k : string) (v : value) (o : Obj.object) :
  Obj.lookup k o = Some v -> In (k, v) o.
Proof.
  induction o as [| [k' v'] o IH]; simpl; [discriminate |].
  destruct (String.eqb k k') eqn:E.
  - apply String.eqb_eq in E. intro H. injection H as ->. left. now subst.
  - intro H. right. auto.
Qed.

Lemma In_lookup (k : string) (v : value) (o : Obj.object) :
  NoDup (map fst o) -> In (k, v) o -> Obj.lookup k o = Some v.
Proof.
  induction o as [| [k' v'] o IH]; simpl; [tauto |].
  intros ND [H | H]; inversion ND as [| ? ? Hn ND']; subst.
  - injection H as -> ->. now rewrite String.eqb_refl.
  - destruct (String.eqb k k') eqn:E.
    + apply String.eqb_eq in E. subst. exfalso. apply Hn.
      change k' with (fst (k', v)). now apply in_map.
    + auto.
Qed.

Lemma update_keys (k : string) (v : value) (o : Obj.object) :
  map fst (Obj.update k v o) = map fst o.
Proof.
  induction o as [| [k' v'] o IH]; simpl; [reflexivity |].
  destruct (String.eqb k k'); simpl; congruence.
Qed.

Lemma set_keys (o : Obj.object) (k : string) (v : value) :
  map fst (Obj.set o k v) = addKey (map fst o) k.
Proof.
  unfold Obj.set, addKey. destruct (String.eqb k "__proto__"); [reflexivity |].
  destruct (Obj.lookup k o) eqn:L.
  - rewrite update_keys.
    destruct (existsb (String.eqb k) (map fst o)) eqn:E; [reflexivity |].
    apply existsb_eqb_not_In, lookup_None_iff in E. congruence.
  - apply lookup_None_iff, existsb_eqb_not_In in L. rewrite L.
    now rewrite map_app.
Qed.

Lemma pieAggregate_keys_from (cfg : ChartConfig) (D : Dataset)
  (agg : Obj.object) :
  map fst (fold_left (pieStep cfg) D agg)
  = fold_left addKey (map (keyOf cfg) D) (map fst agg).
Proof.
  revert agg. induction D as [| row D IH]; intro agg; simpl; [reflexivity |].
  rewrite IH. unfold pieStep. now rewrite set_keys.
Qed.

Lemma filter_filter_absorb (x : string) (acc l : list string) :
  In x acc ->
  filter (fun k => negb (existsb (String.eqb k) acc))
    (filter (fun y => negb (String.eqb y x)) l)
  = filter (fun k => negb (existsb (String.eqb k) acc)) l.
Proof.
  intro Hx. induction l as [| y l IH]; simpl; [reflexivity |].
  destruct (String.eqb y x) eqn:E; simpl.
  - apply String.eqb_eq in E. subst y.
    apply existsb_eqb_In in Hx. now rewrite Hx.
  - now rewrite IH.
Qed.

Lemma filter_snoc_split (x : string) (acc l : list string) :
  filter (fun k => negb (existsb (String.eqb k) (acc ++ [x]))) l
  = filter (fun k => negb (existsb (String.eqb k) acc))
      (filter (fun y => negb (String.eqb y x)) l).
Proof.
  induction l as [| y l IH]; simpl; [reflexivity |].
  rewrite existsb_app. simpl. rewrite orb_false_r.
  destruct (String.eqb y x) eqn:E; simpl.
  - rewrite orb_true_r. simpl. exact IH.
  - rewrite orb_false_r.
    destruct (existsb (String.eqb y) acc); simpl; now rewrite IH.
Qed.

Lemma fold_addKey (xs acc : list string) :
  fold_left addKey xs acc
  = (acc ++ filter (fun k => negb (existsb (String.eqb k) acc))
              (nub (filter notProto xs)))%list.
Proof.
  revert acc. induction xs as [| x xs IH]; intro acc; simpl.
  - now rewrite app_nil_r.
  - rewrite IH. unfold addKey, notProto.
    destruct (String.eqb x "__proto__"); simpl; [reflexivity |].
    destruct (existsb (String.eqb x) acc) eqn:E; simpl.
    + apply existsb_eqb_In in E. now rewrite filter_filter_absorb.
    + rewrite <- app_assoc. simpl. now rewrite filter_snoc_split.
Qed.

Lemma filter_true {A : Type} (l : list A) : filter (fun _ => true) l = l.
Proof. induction l; simpl; congruence. Qed.

(** The own keys in creation order are the first occurrences of the rows'
    keys, the key [__proto__] left out. *)
Lemma pieAggregate_keys (cfg : ChartConfig) (D : Dataset) :
  map fst (pieAggregate cfg D) = nub (filter notProto (map (keyOf cfg) D)).
Proof.
  unfold pieAggregate. rewrite pieAggregate_keys_from, fold_addKey. simpl.
  apply filter_true.
Qed.

Lemma nub_In (x : string) (l : list string) : In x (nub l) <-> In x l.
Proof.
  induction l as [| y l IH]; simpl; [tauto |].
  rewrite filter_In, IH, negb_true_iff, String.eqb_neq.
  destruct (string_dec y x); [tauto |]. split; [tauto |].
  intros [H | H]; [tauto |]. right. split; congruence.
Qed.

Lemma nub_NoDup (l : list string) : NoDup (nub l).
Proof.
  induction l as [| y l IH]; simpl; constructor.
  - rewrite filter_In, negb_true_iff, String.eqb_neq. tauto.
  - now apply NoDup_filter.
Qed.

(** ** Enumeration order of the own properties *)

Lemma map_fst_filter (f : string -> bool) (o : Obj.object) :
  map fst (filter (fun p => f (fst p)) o) = filter f (map fst o).
Proof.
  induction o as [| p o IH]; simpl; [reflexivity |].
  destruct (f (fst p)); simpl; congruence.
Qed.

Lemma insertByIndex_perm (p : string * value) (l : Obj.object) :
  Permutation (Obj.insertByIndex p l) (p :: l).
Proof.
  induction l as [| q l IH]; simpl; [apply Permutation_refl |].
  destruct (Obj.indexValue (fst p) <=? Obj.indexValue (fst q)).
  - apply Permutation_refl.
  - eapply perm_trans; [apply perm_skip, IH | apply perm_swap].
Qed.

Lemma sortByIndex_perm (l : Obj.object) : Permutation (Obj.sortByIndex l) l.
Proof.
  induction l as [| p l IH]; simpl; [constructor |].
  eapply perm_trans; [apply insertByIndex_perm | now apply perm_skip].
Qed.

Lemma filter_partition_perm {A : Type} (f : A -> bool) (l : list A) :
  Permutation (filter f l ++ filter (fun x => negb (f x)) l) l.
Proof.
  induction l as [| x l IH]; simpl; [constructor |].
  destruct (f x); simpl.
  - now apply perm_skip.
  - apply Permutation_sym, Permutation_cons_app, Permutation_sym, IH.
Qed.

Lemma ownEntries_perm (o : Obj.object) : Permutation (Obj.ownEntries o) o.
Proof.
  unfold Obj.ownEntries.
  eapply perm_trans; [| apply (filter_partition_perm
                                 (fun p => Obj.isArrayIndex (fst p)))].
  apply Permutation_app_tail, sortByIndex_perm.
Qed.

Lemma keys_perm (o : Obj.object) : Permutation (Obj.keys o) (map fst o).
Proof. apply Permutation_map, ownEntries_perm. Qed.

Lemma insertByIndex_sorted (p : string * value) (l : Obj.object) :
  StronglySorted leIndex (map fst l) ->
  StronglySorted leIndex (map fst (Obj.insertByIndex p l)).
Proof.
  induction l as [| q l IH]; simpl; intro S.
  - repeat constructor.
  - inversion S as [| ? ? S' F]; subst.
    destruct (Obj.indexValue (fst p) <=? Obj.indexValue (fst q)) eqn:E; simpl.
    + apply Z.leb_le in E. constructor; [assumption |].
      constructor; [exact E |].
      eapply Forall_impl; [| exact F]. unfold leIndex. intros; lia.
    + apply Z.leb_gt in E. constructor; [auto |].
      apply Forall_forall. intros k Hk.
      apply (Permutation_in k (Permutation_map fst (insertByIndex_perm p l)))
        in Hk.
      destruct Hk as [<- | Hk]; [unfold leIndex; lia |].
      rewrite Forall_forall in F. auto.
Qed.

Lemma sortByIndex_sorted (l : Obj.object) :
  StronglySorted leIndex (map fst (Obj.sortByIndex l)).
Proof.
  induction l as [| p l IH]; simpl; [constructor |].
  now apply insertByIndex_sorted.
Qed.

(** The keys as [Object.keys] lists them: the array indices among the
    created keys, ascending, then the other created keys in creation order. *)
Lemma keys_split (o : Obj.object) :
  exists sorted,
    Obj.keys o
    = (sorted ++ filter (fun k => negb (Obj.isArrayIndex k)) (map fst o))%list
    /\ Permutation sorted (filter Obj.isArrayIndex (map fst o))
    /\ StronglySorted leIndex sorted.
Proof.
  exists (map fst (Obj.sortByIndex
                     (filter (fun p => Obj.isArrayIndex (fst p)) o))).
  unfold Obj.keys, Obj.ownEntries. rewrite map_app. repeat split.
  - f_equal.
    apply (map_fst_filter (fun k => negb (Obj.isArrayIndex k))).
  - rewrite <- map_fst_filter. apply Permutation_map, sortByIndex_perm.
  - apply sortByIndex_sorted.
Qed.

(** *** Facts on [precedes] *)

Lemma precedes_In (k k' : string) (l : list string) :
  precedes k k' l = true -> In k l /\ In k' l /\ k <> k'.
Proof.
  induction l as [| x l IH]; simpl; [discriminate |].
  destruct (String.eqb x k') eqn:E'; [discriminate |].
  apply String.eqb_neq in E'.
  destruct (String.eqb x k) eqn:E.
  - apply String.eqb_eq in E. subst x. intro H.
    apply existsb_eqb_In in H. auto.
  - intro H. destruct (IH H) as (? & ? & ?). auto.
Qed.

Lemma precedes_total (k k' : string) (l : list string) :
  In k l -> In k' l -> k <> k' ->
  precedes k k' l = true \/ precedes k' k l = true.
Proof.
  induction l as [| x l IH]; simpl; [tauto |].
  intros Hk Hk' N.
  destruct (String.eqb x k') eqn:E'; destruct (String.eqb x k) eqn:E.
  - apply String.eqb_eq in E, E'. congruence.
  - right. apply existsb_eqb_In. apply String.eqb_eq in E'.
    apply String.eqb_neq in E. destruct Hk; congruence.
  - left. apply existsb_eqb_In. apply String.eqb_eq in E.
    apply String.eqb_neq in E'. destruct Hk'; congruence.
  - apply String.eqb_neq in E, E'. apply IH; try assumption.
    + destruct Hk; congruence.
    + destruct Hk'; congruence.
Qed.

Lemma precedes_app_out (k k' : string) (A B : list string) :
  ~ In k A -> ~ In k' A -> precedes k k' (A ++ B) = precedes k k' B.
Proof.
  induction A as [| x A IH]; simpl; [reflexivity |]. intros Hk Hk'.
  destruct (String.eqb x k') eqn:E'.
  { apply String.eqb_eq in E'. tauto. }
  destruct (String.eqb x k) eqn:E.
  { apply String.eqb_eq in E. tauto. }
  apply IH; tauto.
Qed.

Lemma precedes_app_in (k k' : string) (A B : list string) :
  In k A -> In k' A -> precedes k k' (A ++ B) = precedes k k' A.
Proof.
  induction A as [| x A IH]; simpl; [tauto |]. intros Hk Hk'.
  destruct (String.eqb x k') eqn:E'; [reflexivity |].
  apply String.eqb_neq in E'.
  destruct (String.eqb x k) eqn:E.
  - assert (In k' A) as H by (destruct Hk'; congruence).
    rewrite existsb_app. apply existsb_eqb_In in H. now rewrite H.
  - apply String.eqb_neq in E. apply IH.
    + destruct Hk; congruence.
    + destruct Hk'; congruence.
Qed.

Lemma precedes_app_cross (k k' : string) (A B : list string) :
  In k A -> ~ In k' A -> In k' B -> precedes k k' (A ++ B) = true.
Proof.
  induction A as [| x A IH]; simpl; [tauto |]. intros Hk Hk' HB.
  destruct (String.eqb x k') eqn:E'.
  { apply String.eqb_eq in E'. tauto. }
  destruct (String.eqb x k) eqn:E.
  - rewrite existsb_app. apply existsb_eqb_In in HB. rewrite HB.
    apply orb_true_r.
  - apply String.eqb_neq in E. apply IH; [| tauto | assumption].
    destruct Hk; [congruence | assumption].
Qed.

Lemma precedes_filter (f : string -> bool) (k k' : string) (l : list string) :
  f k = true -> f k' = true ->
  precedes k k' (filter f l) = precedes k k' l.
Proof.
  intros Fk Fk'. induction l as [| x l IH]; simpl; [reflexivity |].
  destruct (f x) eqn:Fx; simpl.
  - rewrite IH.
    destruct (String.eqb x k'); [reflexivity |].
    destruct (String.eqb x k); [| reflexivity].
    destruct (existsb (String.eqb k') l) eqn:Ex.
    + apply existsb_eqb_In. apply existsb_eqb_In in Ex.
      apply filter_In. auto.
    + apply existsb_eqb_not_In. apply existsb_eqb_not_In in Ex.
      rewrite filter_In. tauto.
  - destruct (String.eqb x k') eqn:E'.
    { apply String.eqb_eq in E'. congruence. }
    destruct (String.eqb x k) eqn:E.
    { apply String.eqb_eq in E. congruence. }
    exact IH.
Qed.

Lemma precedes_nub (k k' : string) (l : list string) :
  precedes k k' (nub l) = precedes k k' l.
Proof.
  induction l as [| x l IH]; simpl; [reflexivity |].
  destruct (String.eqb x k') eqn:E'; [reflexivity |].
  destruct (String.eqb x k) eqn:E.
  - apply String.eqb_eq in E. subst x. apply String.eqb_neq in E'.
    destruct (existsb (String.eqb k') l) eqn:Ex.
    + apply existsb_eqb_In. apply existsb_eqb_In in Ex.
      apply filter_In. split; [now apply nub_In |].
      apply negb_true_iff, String.eqb_neq. congruence.
    + apply existsb_eqb_not_In. apply existsb_eqb_not_In in Ex.
      rewrite filter_In, nub_In. tauto.
  - rewrite precedes_filter; [exact IH | |];
      apply negb_true_iff; rewrite String.eqb_sym; assumption.
Qed.

Lemma precedes_sorted (k k' : string) (l : list string) :
  StronglySorted leIndex l -> precedes k k' l = true -> leIndex k k'.
Proof.
  induction 1 as [| x l S IH F]; simpl; [discriminate |].
  destruct (String.eqb x k'); [discriminate |].
  destruct (String.eqb x k) eqn:E.
  - apply String.eqb_eq in E. subst x. intro H.
    apply existsb_eqb_In in H. rewrite Forall_forall in F. auto.
  - exact IH.
Qed.

(** *** Array indices are told apart by their numeric value *)

Lemma isDigit_bounds (c : ascii) :
  isDigit c = true -> 0 <= digitVal c <= 9.
Proof.
  unfold isDigit, digitVal. rewrite andb_true_iff, N.leb_le, N.leb_le. lia.
Qed.

Lemma digitVal_inj (c1 c2 : ascii) : digitVal c1 = digitVal c2 -> c1 = c2.
Proof.
  unfold digitVal. intro H.
  rewrite <- (ascii_N_embedding c1), <- (ascii_N_embedding c2).
  f_equal. lia.
Qed.

Lemma pow10_succ (n : nat) : 10 ^ Z.of_nat (S n) = 10 * 10 ^ Z.of_nat n.
Proof. rewrite Nat2Z.inj_succ. apply Z.pow_succ_r. lia. Qed.

Lemma pow10_pos (n : nat) : 0 < 10 ^ Z.of_nat n.
Proof. apply Z.pow_pos_nonneg; lia. Qed.

Lemma readDigits_value (s : string) :
  Obj.allDigits s = true ->
  (forall acc cnt,
      fst (fst (readDigits s acc cnt))
      = acc * 10 ^ Z.of_nat (String.length s) + Obj.indexValue s)
  /\ 0 <= Obj.indexValue s < 10 ^ Z.of_nat (String.length s).
Proof.
  induction s as [| c s IH]; intro H.
  - split; [intros; cbn; lia | cbn; lia].
  - simpl in H. apply andb_true_iff in H. destruct H as [Hc Hs].
    destruct (IH Hs) as [IH1 IH2]. pose proof (isDigit_bounds c Hc) as B.
    pose proof (pow10_pos (String.length s)) as P.
    assert (Obj.indexValue (String c s)
            = digitVal c * 10 ^ Z.of_nat (String.length s) + Obj.indexValue s)
      as V.
    { unfold Obj.indexValue at 1. simpl. rewrite Hc, IH1. lia. }
    split.
    + intros acc cnt. simpl readDigits. rewrite Hc, IH1, V.
      change (String.length (String c s)) with (S (String.length s)).
      rewrite pow10_succ. lia.
    + rewrite V. change (String.length (String c s)) with (S (String.length s)).
      rewrite pow10_succ. nia.
Qed.

Lemma indexValue_cons (c : ascii) (s : string) :
  Obj.allDigits (String c s) = true ->
  Obj.indexValue (String c s)
  = digitVal c * 10 ^ Z.of_nat (String.length s) + Obj.indexValue s.
Proof.
  intro H. simpl in H. apply andb_true_iff in H. destruct H as [Hc Hs].
  destruct (readDigits_value s Hs) as [R _].
  unfold Obj.indexValue at 1. simpl. rewrite Hc, R. lia.
Qed.

Lemma indexValue_inj_same_length (s1 : string) :
  forall s2, Obj.allDigits s1 = true -> Obj.allDigits s2 = true ->
    String.length s1 = String.length s2 ->
    Obj.indexValue s1 = Obj.indexValue s2 -> s1 = s2.
Proof.
  induction s1 as [| c1 s1 IH]; intros [| c2 s2] H1 H2 L V;
    try discriminate L; [reflexivity |].
  injection L as L.
  rewrite (indexValue_cons _ _ H1), (indexValue_cons _ _ H2), L in V.
  simpl in H1, H2. apply andb_true_iff in H1, H2.
  destruct H1 as [D1 A1], H2 as [D2 A2].
  pose proof (isDigit_bounds c1 D1). pose proof (isDigit_bounds c2 D2).
  destruct (readDigits_value s1 A1) as [_ B1].
  destruct (readDigits_value s2 A2) as [_ B2]. rewrite L in B1.
  assert (digitVal c1 = digitVal c2) as E by nia.
  rewrite E in V. f_equal; [now apply digitVal_inj |].
  apply IH; try assumption. lia.
Qed.

(** An array index is a digit string that is [0] or starts with a digit
    other than 0. *)
Lemma isArrayIndex_shape (k : string) :
  Obj.isArrayIndex k = true ->
  Obj.allDigits k = true
  /\ exists c rest, k = String c rest
       /\ (k = "0" \/ 10 ^ Z.of_nat (String.length rest) <= Obj.indexValue k).
Proof.
  destruct k as [| c rest]; [discriminate |]. unfold Obj.isArrayIndex.
  rewrite !andb_true_iff. intros [[A C] _]. split; [exact A |].
  exists c, rest. split; [reflexivity |].
  destruct (Ascii.eqb c "0") eqn:E.
  - left. simpl in C. apply String.eqb_eq in C. apply Ascii.eqb_eq in E.
    now subst.
  - right. rewrite (indexValue_cons _ _ A).
    pose proof A as A'. simpl in A'. apply andb_true_iff in A'.
    destruct A' as [Dc Ar]. pose proof (isDigit_bounds c Dc).
    destruct (readDigits_value rest Ar) as [_ B].
    assert (digitVal c <> 0) as N.
    { intro Z0. apply Ascii.eqb_neq in E. apply E.
      apply digitVal_inj. rewrite Z0. reflexivity. }
    pose proof (pow10_pos (String.length rest)). nia.
Qed.

Lemma arrayIndex_inj (k1 k2 : string) :
  Obj.isArrayIndex k1 = true -> Obj.isArrayIndex k2 = true ->
  Obj.indexValue k1 = Obj.indexValue k2 -> k1 = k2.
Proof.
  intros I1 I2 V.
  destruct (isArrayIndex_shape k1 I1) as [A1 (c1 & r1 & E1 & S1)].
  destruct (isArrayIndex_shape k2 I2) as [A2 (c2 & r2 & E2 & S2)].
  destruct (readDigits_value k1 A1) as [_ B1].
  destruct (readDigits_value k2 A2) as [_ B2].
  pose proof (pow10_pos (String.length r1)).
  pose proof (pow10_pos (String.length r2)).
  destruct S1 as [Z1 | S1], S2 as [Z2 | S2].
  - congruence.
  - exfalso. rewrite <- V, Z1 in S2. cbn in S2. lia.
  - exfalso. rewrite V, Z2 in S1. cbn in S1. lia.
  - apply indexValue_inj_same_length; try assumption.
    subst k1 k2. simpl. f_equal.
    change (String.length (String c1 r1)) with (S (String.length r1)) in B1.
    change (String.length (String c2 r2)) with (S (String.length r2)) in B2.
    assert (10 ^ Z.of_nat (String.length r1)
            < 10 ^ Z.of_nat (S (String.length r2))) as L1 by lia.
    assert (10 ^ Z.of_nat (String.length r2)
            < 10 ^ Z.of_nat (S (String.length r1))) as L2 by lia.
    apply Z.pow_lt_mono_r_iff in L1; [| lia | lia].
    apply Z.pow_lt_mono_r_iff in L2; [| lia | lia]. lia.
Qed.

(** ** Per-key totals of the pie aggregation *)

Lemma lookup_update (k k' : string) (v : value) (o : Obj.object) :
  Obj.lookup k (Obj.update k' v o)
  = if String.eqb k k' then option_map (fun _ => v) (Obj.lookup k o)
    else Obj.lookup k o.
Proof.
  induction o as [| [k0 v0] o IH]; simpl.
  - now destruct (String.eqb k k').
  - destruct (String.eqb k' k0) eqn:E0; simpl.
    + apply String.eqb_eq in E0. subst k0.
      destruct (String.eqb k k'); reflexivity.
    + destruct (String.eqb k k0) eqn:E1.
      * apply String.eqb_eq in E1. subst k0.
        rewrite String.eqb_sym in E0. now rewrite E0.
      * exact IH.
Qed.

Lemma lookup_app (k : string) (o1 o2 : Obj.object) :
  Obj.lookup k (o1 ++ o2)
  = match Obj.lookup k o1 with Some v => Some v | None => Obj.lookup k o2 end.
Proof.
  induction o1 as [| [k0 v0] o1 IH]; simpl; [reflexivity |].
  now destruct (String.eqb k k0).
Qed.

Lemma lookup_set (k k' : string) (v : value) (o : Obj.object) :
  k' <> "__proto__" ->
  Obj.lookup k (Obj.set o k' v)
  = if String.eqb k k' then Some v else Obj.lookup k o.
Proof.
  intro N. unfold Obj.set. apply String.eqb_neq in N. rewrite N.
  destruct (Obj.lookup k' o) eqn:L.
  - rewrite lookup_update. destruct (String.eqb k k') eqn:E; [| reflexivity].
    apply String.eqb_eq in E. subst. now rewrite L.
  - rewrite lookup_app. simpl. destruct (String.eqb k k') eqn:E.
    + apply String.eqb_eq in E. subst. now rewrite L.
    + now destruct (Obj.lookup k o).
Qed.

Lemma lookup_set_proto (k : string) (v : value) (o : Obj.object) :
  Obj.lookup k (Obj.set o "__proto__" v) = Obj.lookup k o.
Proof. reflexivity. Qed.

Lemma inheritedText_None_not_proto (k : string) :
  Obj.inheritedText k = None -> k <> "__proto__".
Proof. intros H ->. discriminate H. Qed.

Lemma accumulated_absent (agg : Obj.object) (k : string) (v : float) :
  Obj.inheritedText k = None -> Obj.lookup k agg = None ->
  accumulated agg k v = VNum (addToTotal 0 v).
Proof. intros I L. unfold accumulated. now rewrite L, I. Qed.

Lemma accumulated_number (agg : Obj.object) (k : string) (t v : float) :
  Obj.lookup k agg = Some (VNum t) ->
  accumulated agg k v = VNum (addToTotal t v).
Proof.
  intro L. unfold accumulated, addToTotal. rewrite L. simpl.
  now destruct (truthyNumber t).
Qed.

Section PieTotals.

Variable cfg : ChartConfig.

Lemma pieStep_lookup_other (agg : Obj.object) (row : Row)
  (k : string) :
  keyOf cfg row <> k ->
  Obj.lookup k (pieStep cfg agg row) = Obj.lookup k agg.
Proof.
  intro N. unfold pieStep. fold (keyOf cfg row).
  destruct (string_dec (keyOf cfg row) "__proto__") as [E | E].
  - rewrite E. apply lookup_set_proto.
  - rewrite lookup_set by assumption.
    destruct (String.eqb k (keyOf cfg row)) eqn:Ek; [| reflexivity].
    apply String.eqb_eq in Ek. congruence.
Qed.

Lemma pieStep_lookup_same (agg : Obj.object) (row : Row) :
  keyOf cfg row <> "__proto__" ->
  Obj.lookup (keyOf cfg row) (pieStep cfg agg row)
  = Some (accumulated agg (keyOf cfg row) (valueOf cfg row)).
Proof.
  intro N. unfold pieStep. fold (keyOf cfg row) (valueOf cfg row).
  rewrite lookup_set by assumption. now rewrite String.eqb_refl.
Qed.

Lemma pie_fold_lookup_number (k : string) (D : Dataset) :
  k <> "__proto__" ->
  forall agg t, Obj.lookup k agg = Some (VNum t) ->
    Obj.lookup k (fold_left (pieStep cfg) D agg)
    = Some (VNum (fold_left addToTotal
                    (map (valueOf cfg) (rowsOf cfg k D)) t)).
Proof.
  intro N. induction D as [| row D IH]; intros agg t L; simpl; [exact L |].
  destruct (String.eqb (keyOf cfg row) k) eqn:E; simpl.
  - apply String.eqb_eq in E. apply IH. subst k.
    rewrite pieStep_lookup_same by assumption.
    f_equal. now apply accumulated_number.
  - apply String.eqb_neq in E. apply IH.
    now rewrite pieStep_lookup_other.
Qed.

Lemma pie_fold_lookup_absent (k : string) (D : Dataset) :
  Obj.inheritedText k = None ->
  forall agg, Obj.lookup k agg = None ->
    Obj.lookup k (fold_left (pieStep cfg) D agg)
    = match rowsOf cfg k D with
      | [] => None
      | rows => Some (VNum (runningTotal (map (valueOf cfg) rows)))
      end.
Proof.
  intro I. pose proof (inheritedText_None_not_proto k I) as N.
  induction D as [| row D IH]; intros agg L; simpl; [exact L |].
  destruct (String.eqb (keyOf cfg row) k) eqn:E; simpl.
  - apply String.eqb_eq in E. subst k.
    erewrite pie_fold_lookup_number; [reflexivity | assumption |].
    rewrite pieStep_lookup_same by assumption.
    f_equal. now apply accumulated_absent.
  - apply String.eqb_neq in E. apply IH.
    now rewrite pieStep_lookup_other.
Qed.

(** Every key that is not the name of a property of [Object.prototype]
    holds the running total of its rows. *)
Lemma pieAggregate_lookup (k : string) (D : Dataset) :
  Obj.inheritedText k = None ->
  Obj.lookup k (pieAggregate cfg D)
  = match rowsOf cfg k D with
    | [] => None
    | rows => Some (VNum (runningTotal (map (valueOf cfg) rows)))
    end.
Proof. intro I. now apply pie_fold_lookup_absent. Qed.

Lemma pieAggregate_lookup_Some (k : string) (D : Dataset)
  (v : value) :
  Obj.inheritedText k = None ->
  Obj.lookup k (pieAggregate cfg D) = Some v ->
  v = VNum (runningTotal (map (valueOf cfg) (rowsOf cfg k D))).
Proof.
  intros I L. rewrite (pieAggregate_lookup k D I) in L.
  destruct (rowsOf cfg k D); [discriminate L | congruence].
Qed.

Lemma pieAggregate_NoDup (D : Dataset) :
  NoDup (map fst (pieAggregate cfg D)).
Proof. rewrite pieAggregate_keys. apply nub_NoDup. Qed.

Lemma keys_NoDup (D : Dataset) :
  NoDup (Obj.keys (pieAggregate cfg D)).
Proof.
  eapply Permutation_NoDup;
    [apply Permutation_sym, keys_perm | apply pieAggregate_NoDup].
Qed.

Lemma keys_In (D : Dataset) (k : string) :
  In k (Obj.keys (pieAggregate cfg D))
  <-> In k (map (keyOf cfg) D) /\ k <> "__proto__".
Proof.
  split.
  - intro H. apply (Permutation_in k (keys_perm _)) in H.
    rewrite pieAggregate_keys, nub_In, filter_In in H.
    unfold notProto in H. now rewrite negb_true_iff, String.eqb_neq in H.
  - intros [H N]. apply (Permutation_in k (Permutation_sym (keys_perm _))).
    rewrite pieAggregate_keys, nub_In, filter_In. split; [assumption |].
    unfold notProto. now rewrite negb_true_iff, String.eqb_neq.
Qed.

End PieTotals.

(** Labels and values are listed in step: the value at the position of a
    key is the value of that own property. *)
Lemma keys_values_nth (o : Obj.object) (i : nat) (k : string) :
  NoDup (map fst o) ->
  nth_error (Obj.keys o) i = Some k ->
  exists v, nth_error (Obj.values o) i = Some v /\ Obj.lookup k o = Some v.
Proof.
  intros ND H. unfold Obj.keys in H. unfold Obj.values.
  rewrite nth_error_map in H.
  destruct (nth_error (Obj.ownEntries o) i) as [[k0 v] |] eqn:E;
    [| discriminate H].
  simpl in H. injection H as ->. exists v. split.
  - rewrite nth_error_map, E. reflexivity.
  - apply In_lookup; [assumption |].
    apply (Permutation_in _ (ownEntries_perm o)).
    eapply nth_error_In, E.
Qed.

(** ** Totals on integer data *)

Lemma ofZ_zero : ofZ 0 = 0%float.
Proof. reflexivity. Qed.

Lemma truthyNumber_ofZ (z : Z) :
  safeInt z -> truthyNumber (ofZ z) = negb (z =? 0).
Proof.
  intro S. destruct (Z.eq_dec z 0) as [-> | N]; [reflexivity |].
  assert ((z =? 0) = false) as -> by now apply Z.eqb_neq.
  unfold truthyNumber, is_nan. rewrite !FloatAxioms.eqb_spec.
  rewrite (Prim2SF_ofZ z S), (canonInt_nonzero z N).
  change (Prim2SF 0) with (S754_zero false).
  unfold SFeqb, SFcompare. rewrite Z.compare_refl.
  change (Pos.compare_cont Eq (intMantissa z) (intMantissa z))
    with (Pos.compare (intMantissa z) (intMantissa z)).
  rewrite Pos.compare_refl. now destruct (z <? 0).
Qed.

Lemma safeInt_zero : safeInt 0.
Proof. unfold safeInt. simpl. lia. Qed.

Lemma addToTotal_ofZ (acc z : Z) :
  safeInt acc -> safeInt z -> safeInt (acc + z) ->
  addToTotal (ofZ acc) (ofZ z) = ofZ (acc + z).
Proof.
  intros Sa Sz S. unfold addToTotal. rewrite (truthyNumber_ofZ acc Sa).
  destruct (Z.eqb_spec acc 0) as [-> | N]; simpl.
  - rewrite <- ofZ_zero. apply ofZ_add; assumption.
  - now apply ofZ_add.
Qed.

Lemma sumOver_abs {A : Type} (h : A -> Z) (l : list A) :
  Z.abs (sumOver h l) <= sumOver (fun x => Z.abs (h x)) l.
Proof. induction l as [| x l IH]; simpl; lia. Qed.

Lemma sumOver_abs_nonneg {A : Type} (h : A -> Z) (l : list A) :
  0 <= sumOver (fun x => Z.abs (h x)) l.
Proof. induction l as [| x l IH]; simpl; lia. Qed.

Lemma sumOver_filter_le {A : Type} (h : A -> Z) (f : A -> bool) (l : list A) :
  sumOver (fun x => Z.abs (h x)) (filter f l)
  <= sumOver (fun x => Z.abs (h x)) l.
Proof.
  induction l as [| x l IH]; simpl; [lia |]. destruct (f x); simpl; lia.
Qed.

Section IntegerRows.

Variable cfg : ChartConfig.
Variable w : Row -> Z.

Lemma runningTotal_from (rows : Dataset) :
  (forall row, In row rows -> valueOf cfg row = ofZ (w row)) ->
  forall acc,
    Z.abs acc + sumOver (fun row => Z.abs (w row)) rows < 2 ^ 53 ->
    fold_left addToTotal (map (valueOf cfg) rows) (ofZ acc)
    = ofZ (acc + sumOver w rows).
Proof.
  induction rows as [| row rows IH]; intros H acc B; simpl in *.
  - now rewrite Z.add_0_r.
  - pose proof (sumOver_abs_nonneg w rows) as P.
    rewrite (H row) by auto. rewrite addToTotal_ofZ by (unfold safeInt; lia).
    rewrite IH; [f_equal; lia | auto | lia].
Qed.

Lemma runningTotal_int (rows : Dataset) :
  (forall row, In row rows -> valueOf cfg row = ofZ (w row)) ->
  sumOver (fun row => Z.abs (w row)) rows < 2 ^ 53 ->
  runningTotal (map (valueOf cfg) rows) = ofZ (sumOver w rows).
Proof.
  intros H B. unfold runningTotal. rewrite <- ofZ_zero.
  rewrite runningTotal_from; [reflexivity | assumption |].
  pose proof (sumOver_abs_nonneg w rows). simpl. lia.
Qed.

Lemma add_numbers (x y : float) : JS.add (VNum x) (VNum y) = VNum (x + y).
Proof. reflexivity. Qed.

Lemma sumRows_from (rows : Dataset) :
  (forall row, In row rows -> valueOf cfg row = ofZ (w row)) ->
  forall acc,
    Z.abs acc + sumOver (fun row => Z.abs (w row)) rows < 2 ^ 53 ->
    fold_left (fun a row => JS.add a (VNum (valueOf cfg row))) rows
      (VNum (ofZ acc))
    = VNum (ofZ (acc + sumOver w rows)).
Proof.
  induction rows as [| row rows IH]; intros H acc B; simpl in *.
  - now rewrite Z.add_0_r.
  - pose proof (sumOver_abs_nonneg w rows) as P.
    rewrite (H row) by auto.
    rewrite add_numbers, ofZ_add by (unfold safeInt; lia).
    rewrite IH; [do 2 f_equal; lia | auto | lia].
Qed.

(** Summing a list of integer totals with [+]. *)
Lemma sumValues_from (g a : string -> Z) (ks : list string) :
  (forall k, Z.abs (g k) <= a k) ->
  forall acc,
    Z.abs acc + sumOver a ks < 2 ^ 53 ->
    (forall k, In k ks -> 0 <= a k) ->
    fold_left JS.add (map (fun k => VNum (ofZ (g k))) ks) (VNum (ofZ acc))
    = VNum (ofZ (acc + sumOver g ks)).
Proof.
  intro G. induction ks as [| k ks IH]; intros acc B P; simpl in *.
  - now rewrite Z.add_0_r.
  - assert (0 <= sumOver a ks) as Q.
    { clear - P. induction ks as [| k' ks IH]; simpl; [lia |].
      assert (0 <= a k') by (apply P; simpl; auto).
      assert (0 <= sumOver a ks) by (apply IH; intros; apply P; simpl in *; tauto).
      lia. }
    pose proof (G k). assert (0 <= a k) by (apply P; auto).
    rewrite add_numbers, ofZ_add by (unfold safeInt; lia).
    rewrite IH; [do 2 f_equal; lia | lia | auto].
Qed.

Lemma sumOver_indicator (k0 : string) (c : Z) (ks : list string) :
  NoDup ks -> In k0 ks ->
  sumOver (fun k => if String.eqb k0 k then c else 0) ks = c.
Proof.
  induction 1 as [| k ks Hk ND IH]; simpl; [tauto |].
  intros [-> | H].
  - rewrite String.eqb_refl.
    assert (sumOver (fun k => if String.eqb k0 k then c else 0) ks = 0) as ->;
      [| lia].
    clear - Hk. induction ks as [| k ks IH]; simpl; [reflexivity |].
    destruct (String.eqb k0 k) eqn:E.
    + apply String.eqb_eq in E. subst. simpl in Hk. tauto.
    + rewrite IH; [reflexivity |]. simpl in Hk. tauto.
  - destruct (String.eqb k0 k) eqn:E.
    + apply String.eqb_eq in E. subst. tauto.
    + rewrite IH by assumption. lia.
Qed.

Lemma sumOver_plus {A : Type} (f g : A -> Z) (l : list A) :
  sumOver (fun x => f x + g x) l = sumOver f l + sumOver g l.
Proof. induction l as [| x l IH]; simpl; lia. Qed.

Lemma sumOver_ext {A : Type} (f g : A -> Z) (l : list A) :
  (forall x, f x = g x) -> sumOver f l = sumOver g l.
Proof. intro H. induction l as [| x l IH]; simpl; congruence. Qed.

(** Grouping the rows by key and adding the groups gives the sum over all
    rows. *)
Lemma sumOver_groups (h : Row -> Z) (ks : list string) (D : Dataset) :
  NoDup ks -> (forall row, In row D -> In (keyOf cfg row) ks) ->
  sumOver (fun k => sumOver h (rowsOf cfg k D)) ks = sumOver h D.
Proof.
  intros ND. induction D as [| row D IH]; intro H.
  - simpl. clear. induction ks; simpl; lia.
  - rewrite (sumOver_ext _
               (fun k => (if String.eqb (keyOf cfg row) k then h row else 0)
                         + sumOver h (rowsOf cfg k D))).
    + rewrite sumOver_plus, sumOver_indicator, IH;
        simpl; auto; try (apply H; simpl; auto).
      intros row' Hr. apply H. simpl. auto.
    + intro k. unfold rowsOf. simpl.
      destruct (String.eqb (keyOf cfg row) k); reflexivity.
Qed.

End IntegerRows.

(** On integer data below 2^53 the values of the pie add up to the sum over
    the rows. *)
Lemma pie_total_int (D : Dataset) (cfg : ChartConfig) :
  (forall row, In row D -> Obj.inheritedText (keyOf cfg row) = None) ->
  (forall row, In row D -> isSafeInteger (valueOf cfg row)) ->
  sumOver (fun row => Z.abs (toZ (valueOf cfg row))) D < 2 ^ 53 ->
  sumValues (Obj.values (pieAggregate cfg D)) = sumRows cfg D.
Proof.
  intros NI Int B. set (w := fun row => toZ (valueOf cfg row)).
  assert (forall row, In row D -> valueOf cfg row = ofZ (w row)) as V
    by (intros row H; symmetry; apply (Int row H)).
  assert (forall k, In k (Obj.keys (pieAggregate cfg D)) ->
                    In k (map (keyOf cfg) D) /\ Obj.inheritedText k = None)
    as K.
  { intros k H. apply keys_In in H. destruct H as [H _]. split; [exact H |].
    apply in_map_iff in H. destruct H as (row & <- & H). now apply NI. }
  assert (Obj.values (pieAggregate cfg D)
          = map (fun k => VNum (ofZ (sumOver w (rowsOf cfg k D))))
              (Obj.keys (pieAggregate cfg D))) as E.
  { unfold Obj.values, Obj.keys. rewrite map_map. apply map_ext_in.
    intros [k v] H. simpl.
    assert (In k (Obj.keys (pieAggregate cfg D))) as Hk
      by (unfold Obj.keys; change k with (fst (k, v)); now apply in_map).
    destruct (K k Hk) as [_ I].
    apply (Permutation_in _ (ownEntries_perm _)) in H.
    apply In_lookup in H; [| apply pieAggregate_NoDup].
    rewrite (pieAggregate_lookup_Some cfg k D v I H). f_equal.
    apply runningTotal_int.
    - intros row Hr. apply V. unfold rowsOf in Hr.
      now apply filter_In in Hr.
    - eapply Z.le_lt_trans; [apply sumOver_filter_le | exact B]. }
  unfold sumValues, sumRows. rewrite E. rewrite <- ofZ_zero.
  assert (forall row, In row D ->
                      In (keyOf cfg row) (Obj.keys (pieAggregate cfg D))) as C.
  { intros row H. apply keys_In. split; [now apply in_map |].
    apply inheritedText_None_not_proto. now apply NI. }
  rewrite (sumValues_from (fun k => sumOver w (rowsOf cfg k D))
             (fun k => sumOver (fun row => Z.abs (w row)) (rowsOf cfg k D))).
  - rewrite (sumRows_from cfg w D V); [| simpl; exact B].
    do 2 f_equal. apply sumOver_groups; [apply keys_NoDup | exact C].
  - intro k. apply sumOver_abs.
  - rewrite sumOver_groups; [simpl; exact B | apply keys_NoDup | exact C].
  - intros k _. apply sumOver_abs_nonneg.
Qed.

(** ** The text of a number is never the name of an inherited property *)

Lemma isDigit_digitChar (n : Z) : isDigit (digitChar (n mod 10)) = true.
Proof.
  pose proof (Z.mod_pos_bound n 10 ltac:(lia)) as B.
  unfold isDigit, digitChar. rewrite N_ascii_embedding by lia.
  rewrite andb_true_iff, !N.leb_le. lia.
Qed.

Lemma digitsAux_lead (fuel : nat) :
  forall n acc,
    (exists c r, acc = String c r /\ isDigit c = true) ->
    exists c r, digitsAux fuel n acc = String c r /\ isDigit c = true.
Proof.
  induction fuel as [| fuel IH]; intros n acc H; simpl; [exact H |].
  assert (exists c r, String (digitChar (n mod 10)) acc = String c r
                      /\ isDigit c = true) as H'
    by (do 2 eexists; split; [reflexivity | apply isDigit_digitChar]).
  destruct (n <? 10); [exact H' | now apply IH].
Qed.

Lemma decimalDigits_lead (n : Z) :
  exists c r, decimalDigits n = String c r /\ isDigit c = true.
Proof.
  unfold decimalDigits. simpl.
  assert (exists c r, String (digitChar (n mod 10)) "" = String c r
                      /\ isDigit c = true) as H'
    by (do 2 eexists; split; [reflexivity | apply isDigit_digitChar]).
  destruct (n <? 10); [exact H' | now apply digitsAux_lead].
Qed.

Lemma formatDecimal_lead (s k n : Z) :
  exists c r, formatDecimal s k n = String c r /\ isDigit c = true.
Proof.
  unfold formatDecimal.
  destruct (decimalDigits_lead s) as (c & r & -> & Hc).
  destruct ((k <=? n) && (n <=? 21)).
  { simpl. eauto. }
  destruct ((0 <? n) && (n <=? 21)) eqn:E.
  { apply andb_true_iff in E. destruct E as [E _]. apply Z.ltb_lt in E.
    destruct (Z.to_nat n) as [| m] eqn:En; [lia |]. simpl. eauto. }
  destruct ((-6 <? n) && (n <=? 0)).
  { simpl. eauto. }
  destruct (k =? 1); simpl; eauto.
Qed.

Lemma numberToString_lead (f : float) :
  exists c r, numberToString f = String c r /\ numberLead c = true.
Proof.
  unfold numberToString.
  destruct (Prim2SF f) as [[|] | [|] | | [|] m e];
    try (do 2 eexists; split; reflexivity).
  - destruct (shortest m e) as [[s k] n]. simpl.
    do 2 eexists; split; reflexivity.
  - destruct (shortest m e) as [[s k] n]. simpl.
    destruct (formatDecimal_lead s k n) as (c & r & -> & Hc).
    exists c, r. split; [reflexivity |]. unfold numberLead. now rewrite Hc.
Qed.

Lemma inheritedText_lead (c : ascii) (r : string) :
  numberLead c = true -> Obj.inheritedText (String c r) = None.
Proof.
  destruct c as [[|] [|] [|] [|] [|] [|] [|] [|]];
    intro H; try discriminate H; reflexivity.
Qed.

(** A cell that is neither a string nor an object never yields the name of
    a property of [Object.prototype] as its key. *)
Lemma inheritedText_ToString (v : value) :
  (forall s, v <> VStr s) -> (forall t, v <> VObject t) ->
  Obj.inheritedText (ToString v) = None.
Proof.
  intros H O. destruct v as [| | [|] | f | s | t]; try reflexivity.
  - simpl. destruct (numberToString_lead f) as (c & r & -> & L).
    now apply inheritedText_lead.
  - now elim (H s).
  - now elim (O t).
Qed.

(** ** Text that does not start like a number parses to NaN *)

Lemma parseUnsigned_nan (sx : bool) (t : string) :
  prefix "Infinity" t = false ->
  match t with
  | String "." (String c _) => isDigit c
  | String c _ => isDigit c
  | EmptyString => false
  end = false ->
  parseUnsigned sx t = S754_nan.
Proof.
  intros P H. unfold parseUnsigned. rewrite P.
  destruct t as [| c t]; [reflexivity |].
  destruct c as [[|] [|] [|] [|] [|] [|] [|] [|]];
    try discriminate H; try reflexivity.
  destruct t as [| c2 t]; [reflexivity |].
  simpl. rewrite H. reflexivity.
Qed.

Lemma parseFloatString_nan (s : string) :
  startsNumeric s = false -> parseFloatString s = nan.
Proof.
  unfold startsNumeric, parseFloatString. intro H.
  destruct (trimStart s) as [| c t].
  - reflexivity.
  - destruct c as [[|] [|] [|] [|] [|] [|] [|] [|]];
      apply orb_false_iff in H; destruct H as [P H];
      rewrite (parseUnsigned_nan _ _ P H); reflexivity.
Qed.

(** ** The guard and the two branches *)

Lemma guard_passes (cfg : ChartConfig) :
  xAxis cfg <> "" -> yAxis cfg <> "" ->
  String.eqb (xAxis cfg) "" || String.eqb (yAxis cfg) "" = false.
Proof.
  intros Hx Hy. apply String.eqb_neq in Hx, Hy. now rewrite Hx, Hy.
Qed.

Lemma aggregate_pie (D : Dataset) (cfg : ChartConfig) :
  type cfg = "pie" -> xAxis cfg <> "" -> yAxis cfg <> "" ->
  aggregate (Some {| data := D |}) cfg
  = Some {| labels := map VStr (Obj.keys (pieAggregate cfg D));
            datasets :=
              [PieDataset (Obj.values (pieAggregate cfg D)) piePalette] |}.
Proof.
  intros T Hx Hy. unfold aggregate. rewrite guard_passes by assumption.
  rewrite T. reflexivity.
Qed.

Lemma aggregate_xy (D : Dataset) (cfg : ChartConfig) :
  type cfg <> "pie" -> xAxis cfg <> "" -> yAxis cfg <> "" ->
  aggregate (Some {| data := D |}) cfg
  = Some {| labels := map (fun row => rowGet row (xAxis cfg)) D;
            datasets :=
              [XYDataset (yAxis cfg) (map (valueOf cfg) D)
                 (if String.eqb (type cfg) "bar"
                  then Some "rgba(54, 162, 235, 0.6)" else None)
                 "rgba(54, 162, 235, 1)" 2 false] |}.
Proof.
  intros T Hx Hy. unfold aggregate. rewrite guard_passes by assumption.
  apply String.eqb_neq in T. rewrite T. reflexivity.
Qed.

(** *** What a read of a row finds *)

Lemma rowGet_inherited (row : Row) (column : string) :
  hasColumn row column = false ->
  rowGet row column
  = match Obj.inheritedText column with
    | Some text => VObject text
    | None => VUndefined
    end.
Proof.
  induction row as [| [c v] row IH]; simpl; [reflexivity |].
  destruct (String.eqb column c); [discriminate | exact IH].
Qed.

Lemma rowGet_missing (row : Row) (column : string) :
  hasColumn row column = false -> Obj.inheritedText column = None ->
  rowGet row column = VUndefined.
Proof. intros H I. now rewrite (rowGet_inherited _ _ H), I. Qed.

Lemma rowGet_own (row : Row) (column : string) (v : value) :
  ownCell row column v -> rowGet row column = v.
Proof.
  intros [ND H]. induction row as [| [c x] row IH]; simpl; [destruct H |].
  inversion ND as [| ? ? Hn ND']; subst. destruct H as [H | H].
  - injection H as -> ->. now rewrite String.eqb_refl.
  - destruct (String.eqb_spec column c) as [-> | N]; [| now apply IH].
    elim Hn. change c with (fst (c, v)). now apply in_map.
Qed.

(** ** Values listed in step with the keys *)

Lemma nth_error_map_VStr (ks : list string) (i : nat) (k : string) :
  nth_error (map VStr ks) i = Some (VStr k) <-> nth_error ks i = Some k.
Proof.
  rewrite nth_error_map. destruct (nth_error ks i); simpl; split; intro H;
    try discriminate H; congruence.
Qed.

Lemma pie_value_at (D : Dataset) (cfg : ChartConfig) (i : nat) (k : string) :
  nth_error (Obj.keys (pieAggregate cfg D)) i = Some k ->
  Obj.inheritedText k = None ->
  nth_error (Obj.values (pieAggregate cfg D)) i
  = Some (VNum (runningTotal (map (valueOf cfg) (rowsOf cfg k D)))).
Proof.
  intros H I.
  destruct (keys_values_nth _ _ _ (pieAggregate_NoDup cfg D) H) as (v & Hv & L).
  rewrite Hv. f_equal. now apply pieAggregate_lookup_Some.
Qed.

(** ** The model at its edges *)

(** [parseFloat] reads the longest numeric prefix. *)
Example parseFloat_reads_a_prefix :
  map parseFloat [VStr "12abc"; VStr " 3.5e2x"; VStr "1,234"; VStr "abc";
                  VStr ""; VUndefined; VNull; VNum 1e21]
  = [12; 350; 1; nan; nan; nan; nan; 1e21]%float.
Proof. vm_compute. reflexivity. Qed.

(** A write to [__proto__] is lost, and a name found in [Object.prototype]
    is added to as text. *)
Example inherited_names_as_keys :
  aggregate (Some {| data := inheritedRows |}) (request "pie")
  = Some {| labels := [VStr "constructor"];
            datasets :=
              [PieDataset [VStr "function Object() { [native code] }105"]
                 piePalette] |}.
Proof. vm_compute. reflexivity. Qed.

(** A total that has become NaN counts as 0 at the next row. *)
Example total_restarts_after_NaN :
  aggregate (Some {| data := infiniteRows |}) (request "pie")
  = Some {| labels := [VStr "A"];
            datasets := [PieDataset [VNum 5] piePalette] |}.
Proof. vm_compute. reflexivity. Qed.

(** ** Integers as cells

    *** The decimal digits of an integer *)

Lemma digitsAux_acc (fuel : nat) :
  forall n acc, digitsAux fuel n acc = String.append (digitsAux fuel n "") acc.
Proof.
  induction fuel as [| fuel IH]; intros n acc; simpl; [reflexivity |].
  destruct (n <? 10); [reflexivity |].
  rewrite (IH _ (String _ acc)), (IH _ (String _ "")).
  generalize (digitsAux fuel (n / 10) "") as ds.
  induction ds as [| c ds IHd]; simpl; [reflexivity | now rewrite IHd].
Qed.

Lemma length_append (a b : string) :
  String.length (String.append a b) = (String.length a + String.length b)%nat.
Proof. induction a as [| c a IH]; simpl; [reflexivity | now rewrite IH]. Qed.

(** Reading back the digits of [n]: they spell [n], and there are as many
    as [n] has decimal places. *)
Lemma digitsAux_spec (f : nat) :
  forall n, 0 <= n < 2 ^ Z.of_nat (S f) ->
    let ds := digitsAux (S f) n "" in
    let len := Z.of_nat (String.length ds) in
    (forall rest acc cnt,
        readDigits (String.append ds rest) acc cnt
        = readDigits rest (acc * 10 ^ len + n) (cnt + len))
    /\ n < 10 ^ len /\ (1 <= n -> 10 ^ (len - 1) <= n) /\ 1 <= len.
Proof.
  induction f as [| f IH]; intros n B; cbv zeta.
  - assert (n < 10) as Sm by (simpl in B; lia).
    simpl. apply Z.ltb_lt in Sm. rewrite Sm. apply Z.ltb_lt in Sm.
    pose proof (Z.mod_small n 10 ltac:(lia)) as M.
    repeat split; try (simpl; lia).
    intros rest acc cnt. simpl. rewrite isDigit_digitChar, M.
    unfold digitVal, digitChar. rewrite N_ascii_embedding by lia.
    f_equal. f_equal. lia.
  - change (digitsAux (S (S f)) n "")
      with (if n <? 10 then String (digitChar (n mod 10)) ""
            else digitsAux (S f) (n / 10) (String (digitChar (n mod 10)) "")).
    destruct (Z.ltb_spec n 10) as [Sm | Sm].
    + pose proof (Z.mod_small n 10 ltac:(lia)) as M.
      repeat split; try (simpl; lia).
      intros rest acc cnt. simpl. rewrite isDigit_digitChar, M.
      unfold digitVal, digitChar. rewrite N_ascii_embedding by lia.
      f_equal. f_equal. lia.
    + assert (0 <= n / 10 < 2 ^ Z.of_nat (S f)) as B'.
      { split; [apply Z.div_pos; lia |].
        apply Z.div_lt_upper_bound; [lia |].
        rewrite (Nat2Z.inj_succ (S f)), Z.pow_succ_r in B by lia. lia. }
      destruct (IH (n / 10) B') as (R & U & Lo & L1).
      rewrite digitsAux_acc, length_append.
      set (ds := digitsAux (S f) (n / 10) "") in *.
      set (len := Z.of_nat (String.length ds)) in *.
      change (String.length (String (digitChar (n mod 10)) "")) with 1%nat.
      rewrite Nat2Z.inj_add. fold len. change (Z.of_nat 1) with 1.
      pose proof (Z.div_mod n 10 ltac:(lia)) as DM.
      pose proof (Z.mod_pos_bound n 10 ltac:(lia)) as MB.
      assert (10 ^ (len + 1) = 10 * 10 ^ len) as P
        by (rewrite Z.pow_add_r by lia; lia).
      assert (0 < 10 ^ len) as Q by (apply Z.pow_pos_nonneg; lia).
      repeat split.
      * intros rest acc cnt.
        assert (forall a b c, String.append (String.append a b) c
                              = String.append a (String.append b c)) as Assoc.
        { intros a b c. induction a as [| x a IHa]; simpl;
            [reflexivity | now rewrite IHa]. }
        rewrite Assoc, R. simpl String.append. simpl readDigits.
        rewrite isDigit_digitChar.
        unfold digitVal, digitChar. rewrite N_ascii_embedding by lia.
        rewrite P. generalize dependent (10 ^ len). intros q Uq Loq Pq Qq.
        f_equal; lia.
      * rewrite P. lia.
      * intros _. replace (len + 1 - 1) with (len - 1 + 1) by lia.
        rewrite Z.pow_add_r by lia.
        assert (1 <= n / 10) as G
          by (apply Z.div_le_lower_bound; lia).
        specialize (Lo G). lia.
      * lia.
Qed.

Lemma decimalDigits_spec (n : Z) :
  0 <= n ->
  let len := Z.of_nat (String.length (decimalDigits n)) in
  (forall rest acc cnt,
      readDigits (String.append (decimalDigits n) rest) acc cnt
      = readDigits rest (acc * 10 ^ len + n) (cnt + len))
  /\ n < 10 ^ len /\ (1 <= n -> 10 ^ (len - 1) <= n) /\ 1 <= len.
Proof.
  intro P. unfold decimalDigits. apply digitsAux_spec. split; [exact P |].
  rewrite Nat2Z.inj_succ, Z2Nat.id by apply Z.log2_nonneg.
  destruct (Z.eq_dec n 0) as [-> | N]; [reflexivity |].
  apply Z.log2_spec. lia.
Qed.

Lemma readDigits_zeros (j : nat) (rest : string) (acc cnt : Z) :
  readDigits (String.append (zeros j) rest) acc cnt
  = readDigits rest (acc * 10 ^ Z.of_nat j) (cnt + Z.of_nat j).
Proof.
  revert acc cnt. induction j as [| j IH]; intros acc cnt.
  - simpl. f_equal; lia.
  - rewrite pow10_succ, Nat2Z.inj_succ.
    change (String.append (zeros (S j)) rest)
      with (String "0" (String.append (zeros j) rest)).
    change (readDigits (String "0" (String.append (zeros j) rest)) acc cnt)
      with (readDigits (String.append (zeros j) rest) (acc * 10 + 0) (cnt + 1)).
    rewrite IH. generalize (10 ^ Z.of_nat j). intro q. f_equal; lia.
Qed.

(** *** Rounding an integer below 2^53 is exact *)

Lemma roundDecimal_exact (sx : bool) (m p : Z) :
  0 < m -> 0 <= p -> m * 10 ^ p < 2 ^ 53 ->
  roundDecimal sx m p
  = S754_finite sx (intMantissa (m * 10 ^ p)) (intExponent (m * 10 ^ p)).
Proof.
  intros Pm Pp B. set (v := m * 10 ^ p).
  assert (0 < v) as Pv.
  { unfold v. apply Z.mul_pos_pos; [exact Pm | apply Z.pow_pos_nonneg; lia]. }
  unfold roundDecimal.
  assert ((m =? 0) = false) as -> by (apply Z.eqb_neq; lia).
  assert ((0 <=? p) = true) as -> by (apply Z.leb_le; lia).
  fold v. unfold roundRatio. change (Z.log2 1) with 0.
  assert (Z.log2 v < 53) as L by (apply Z.log2_lt_pow2; [lia | exact B]).
  pose proof (Z.log2_nonneg v) as L0.
  rewrite Z.max_r by lia. rewrite Z.div_1_r, Z.mod_1_r. cbn [Z.eqb].
  destruct (intMantissa_value v ltac:(lia) ltac:(unfold safeInt; lia))
    as (MV & ML & EB).
  rewrite Z.abs_eq in MV by lia.
  assert (v * 2 ^ (66 + 0 - Z.log2 v)
          = Zpos (Pos.iter xO (intMantissa v) 14)) as E.
  { rewrite iter_xO_value, MV, <- Z.mul_assoc, <- Z.pow_add_r by lia.
    f_equal. f_equal. lia. }
  rewrite E.
  replace (- (66 + 0 - Z.log2 v)) with (intExponent v - Zpos 14)
    by (unfold intExponent; rewrite Z.abs_eq by lia; lia).
  apply round_aux_shifted; [exact ML | lia].
Qed.

Lemma canonInt_pos_inj (v n : Z) :
  0 < v < 2 ^ 53 -> 0 < n < 2 ^ 53 ->
  sfEqb (S754_finite false (intMantissa v) (intExponent v))
        (S754_finite false (intMantissa n) (intExponent n)) = true ->
  v = n.
Proof.
  intros Bv Bn H. simpl in H.
  apply andb_true_iff in H. destruct H as [H He].
  apply Pos.eqb_eq in H. apply Z.eqb_eq in He.
  destruct (intMantissa_value v ltac:(lia) ltac:(unfold safeInt; lia))
    as (MV & _ & _).
  destruct (intMantissa_value n ltac:(lia) ltac:(unfold safeInt; lia))
    as (MN & _ & _).
  unfold intExponent in He. rewrite !Z.abs_eq in * by lia.
  assert (Z.log2 v = Z.log2 n) as EL by lia.
  rewrite H, EL in MV. rewrite MN in MV.
  assert (Z.log2 n < 53) as L by (apply Z.log2_lt_pow2; lia).
  assert (0 < 2 ^ (52 - Z.log2 n)) as Q by (apply Z.pow_pos_nonneg; lia).
  nia.
Qed.

(** *** The text of an integer parses to the integer *)

Lemma digit_is_plain (c : ascii) (r : string) :
  isDigit c = true ->
  trimStart (String c r) = String c r
  /\ prefix "Infinity" (String c r) = false
  /\ c <> "-"%char /\ c <> "+"%char /\ c <> "."%char.
Proof.
  destruct c as [[|] [|] [|] [|] [|] [|] [|] [|]];
    intro H; try discriminate H; repeat split; discriminate.
Qed.

Lemma parseUnsigned_digits (sx : bool) (c : ascii) (r : string) (v cnt : Z) :
  isDigit c = true ->
  readDigits (String c r) 0 0 = (v, cnt, "") -> cnt <> 0 ->
  parseUnsigned sx (String c r) = roundDecimal sx v 0.
Proof.
  intros D R N. destruct (digit_is_plain c r D) as (_ & P & _).
  unfold parseUnsigned. rewrite P, R.
  apply Z.eqb_neq in N. now rewrite N.
Qed.

(** A run of digits that spells a positive integer below 2^53, with an
    optional minus sign in front, parses to that integer. *)
Lemma parse_digit_run (ds : string) (v cnt : Z) :
  (exists c r, ds = String c r /\ isDigit c = true) ->
  readDigits ds 0 0 = (v, cnt, "") -> cnt <> 0 -> 0 < v < 2 ^ 53 ->
  parseFloatString ds = ofZ v
  /\ parseFloatString (String "-" ds) = ofZ (- v).
Proof.
  intros (c & r & -> & D) R N B.
  destruct (digit_is_plain c r D) as (T & _ & Nm & Np & _).
  assert (forall sx, parseUnsigned sx (String c r)
                     = S754_finite sx (intMantissa v) (intExponent v)) as U.
  { intro sx. rewrite (parseUnsigned_digits sx c r v cnt D R N).
    rewrite roundDecimal_exact by lia.
    now rewrite Z.mul_1_r. }
  split.
  - unfold parseFloatString. rewrite T.
    assert (match String c r with
            | String "-" t => parseUnsigned true t
            | String "+" t => parseUnsigned false t
            | t => parseUnsigned false t
            end = parseUnsigned false (String c r)) as ->.
    { destruct c as [[|] [|] [|] [|] [|] [|] [|] [|]];
        try reflexivity; try (now elim Nm); now elim Np. }
    rewrite U. unfold ofZ. f_equal. destruct v; try lia. reflexivity.
  - unfold parseFloatString. simpl trimStart. cbv iota.
    change (trimStart (String "-" (String c r))) with (String "-" (String c r)).
    cbv iota. rewrite U. unfold ofZ. f_equal.
    destruct v as [| q | q]; try lia. simpl Z.opp. unfold canonInt.
    reflexivity.
Qed.

(** *** The text of an integer

    The decimal exponent, the shortest digits and the text of a positive
    integer below 2^52. *)

Lemma numDigits_spec (x : Z) :
  1 <= x -> 1 <= numDigits x /\ 10 ^ (numDigits x - 1) <= x < 10 ^ numDigits x.
Proof.
  intro P. destruct (decimalDigits_spec x ltac:(lia)) as (_ & U & Lo & L1).
  unfold numDigits. auto.
Qed.

Lemma decimalExponent_spec (n den : Z) :
  1 <= n -> 1 <= den ->
  10 ^ (decimalExponent (n * den) den - 1) <= n
  < 10 ^ decimalExponent (n * den) den
  /\ 1 <= decimalExponent (n * den) den.
Proof.
  intros Pn Pd. unfold decimalExponent.
  destruct (numDigits_spec (n * den) ltac:(nia)) as (L1 & Lo & Up).
  destruct (numDigits_spec den Pd) as (D1 & DLo & DUp).
  set (Ln := numDigits (n * den)) in *. set (Ld := numDigits den) in *.
  assert (Ld <= Ln) as Le.
  { assert (10 ^ (Ld - 1) < 10 ^ Ln) as H by nia.
    apply Z.pow_lt_mono_r_iff in H; lia. }
  set (t := Ln - Ld) in *.
  assert ((0 <=? t) = true) as -> by (apply Z.leb_le; lia).
  assert (10 ^ Ln = 10 ^ (t + 1) * 10 ^ (Ld - 1)) as S1.
  { rewrite <- Z.pow_add_r by lia. f_equal. lia. }
  assert (10 ^ (Ln - 1) = 10 ^ t * 10 ^ (Ld - 1)) as S2.
  { rewrite <- Z.pow_add_r by lia. f_equal. lia. }
  assert (0 < 10 ^ (Ld - 1)) as Q1 by (apply Z.pow_pos_nonneg; lia).
  assert (0 < 10 ^ t) as Q2 by (apply Z.pow_pos_nonneg; lia).
  assert (10 ^ (t + 1) = 10 * 10 ^ t) as S3
    by (rewrite Z.pow_add_r by lia; lia).
  destruct (Z.leb_spec (den * 10 ^ t) (n * den)) as [G | G].
  - replace (t + 1 - 1) with t by lia. repeat split; [nia | nia | lia].
  - assert (1 <= t) as T1.
    { destruct (Z.eq_dec t 0) as [E | E]; [| lia].
      rewrite E in G. simpl in G. nia. }
    assert (10 ^ t = 10 * 10 ^ (t - 1)) as S4.
    { replace t with (t - 1 + 1) at 1 by lia.
      rewrite Z.pow_add_r by lia. lia. }
    assert (0 < 10 ^ (t - 1)) as Q3 by (apply Z.pow_pos_nonneg; lia).
    assert (10 ^ Ld = 10 * 10 ^ (Ld - 1)) as S5.
    { replace Ld with (Ld - 1 + 1) at 1 by lia.
      rewrite Z.pow_add_r by lia. lia. }
    repeat split; [| nia | lia].
    (* n * den >= 10^(t-1) * 10^Ld > 10^(t-1) * den *)
    assert (10 ^ (t - 1) * 10 ^ Ld <= n * den) as H.
    { rewrite S5. rewrite S2, S4 in Lo. nia. }
    nia.
Qed.

Lemma sfEqb_refl (s : bool) (m : positive) (e : Z) :
  sfEqb (S754_finite s m e) (S754_finite s m e) = true.
Proof.
  simpl. now rewrite Bool.eqb_reflx, Pos.eqb_refl, Z.eqb_refl.
Qed.

(** The search for the shortest digits of the integer [n], started at [k]
    digits, ends with digits [s] that spell [n] up to trailing zeros. *)
Lemma shortestFrom_int (n den N : Z) :
  0 < n < 2 ^ 52 -> 1 <= den ->
  10 ^ (N - 1) <= n < 10 ^ N ->
  forall fuel k,
    1 <= k <= N -> N - k <= Z.of_nat fuel ->
    exists s k',
      shortestFrom fuel k
        (S754_finite false (intMantissa n) (intExponent n)) (n * den) den N
      = (s, k', N)
      /\ k' <= N /\ 0 < s /\ s * 10 ^ (N - k') = n.
Proof.
  intros Bn Pd BN.
  assert (forall k s, 1 <= k <= N -> 0 <= s <= n / 10 ^ (N - k) + 1 ->
            ((0 <? s)
             && sfEqb (roundDecimal false s (N - k))
                  (S754_finite false (intMantissa n) (intExponent n))) = true ->
            0 < s /\ s * 10 ^ (N - k) = n) as OK.
  { intros k s Bk Bs H. apply andb_true_iff in H. destruct H as [Ps H].
    apply Z.ltb_lt in Ps. split; [exact Ps |].
    assert (0 < 10 ^ (N - k)) as Q by (apply Z.pow_pos_nonneg; lia).
    assert (10 ^ (N - k) <= n) as Qn.
    { apply Z.le_trans with (10 ^ (N - 1)); [| lia].
      apply Z.pow_le_mono_r; lia. }
    pose proof (Z.mul_div_le n (10 ^ (N - k)) Q) as DL.
    assert (s * 10 ^ (N - k) < 2 ^ 53) as B53.
    { change (2 ^ 53) with (2 * 2 ^ 52). nia. }
    rewrite roundDecimal_exact in H by lia.
    apply canonInt_pos_inj; [nia | | exact H].
    change (2 ^ 53) with (2 * 2 ^ 52). lia. }
  assert (forall k s, s * 10 ^ (N - k) = n -> 1 <= k <= N ->
                      (s =? 10 ^ k) = false) as NotPow.
  { intros k s E Bk. apply Z.eqb_neq. intros ->.
    rewrite <- Z.pow_add_r in E by lia.
    replace (k + (N - k)) with N in E by lia. lia. }
  assert (forall fuel,
             shortestFrom fuel N
               (S754_finite false (intMantissa n) (intExponent n)) (n * den) den N
             = (n, N, N)) as Last.
  { intro fuel.
    assert (roundDecimal false n 0
            = S754_finite false (intMantissa n) (intExponent n)) as R.
    { rewrite roundDecimal_exact; [now rewrite Z.mul_1_r | lia | lia |].
      change (2 ^ 53) with (2 * 2 ^ 52). lia. }
    assert ((2 * (n * den) ?= (2 * n + 1) * den) = Lt) as C
        by (apply Z.compare_lt_iff; nia).
    assert ((0 <? n) = true) as P by (apply Z.ltb_lt; lia).
    assert ((n =? 10 ^ N) = false) as NP by (apply Z.eqb_neq; lia).
    destruct fuel; cbn [shortestFrom]; rewrite Z.sub_diag;
      change (0 <=? 0) with true; cbv iota; change (10 ^ 0) with 1;
      rewrite Z.mul_1_r, Z.div_mul by lia; rewrite C; cbv iota;
      rewrite R, sfEqb_refl, P; cbn [andb]; rewrite NP; reflexivity. }
  induction fuel as [| fuel IH]; intros k Bk F.
  - assert (k = N) as -> by lia. rewrite Last.
    exists n, N. rewrite Z.sub_diag. repeat split; lia.
  - destruct (Z.eq_dec k N) as [-> | Nk].
    { rewrite Last. exists n, N. rewrite Z.sub_diag. repeat split; lia. }
    cbn [shortestFrom].
    assert ((0 <=? N - k) = true) as -> by (apply Z.leb_le; lia).
    assert (0 < 10 ^ (N - k)) as Q by (apply Z.pow_pos_nonneg; lia).
    assert (n * den / (den * 10 ^ (N - k)) = n / 10 ^ (N - k)) as D.
    { rewrite (Z.mul_comm n den). apply Z.div_mul_cancel_l; lia. }
    rewrite D.
    pose proof (Z.div_pos n (10 ^ (N - k)) ltac:(lia) Q) as LoP.
    set (lo := n / 10 ^ (N - k)) in *.
    set (hiFirst := match 2 * (n * den) ?= (2 * lo + 1) * (den * 10 ^ (N - k)) with
                    | Eq => Z.odd lo | Lt => false | Gt => true end).
    set (x := S754_finite false (intMantissa n) (intExponent n)).
    set (first := if hiFirst then lo + 1 else lo).
    set (second := if hiFirst then lo else lo + 1).
    assert (0 <= first <= lo + 1) as Bf by (unfold first; destruct hiFirst; lia).
    assert (0 <= second <= lo + 1) as Bs by (unfold second; destruct hiFirst; lia).
    destruct ((0 <? first) && sfEqb (roundDecimal false first (N - k)) x) eqn:E1.
    + destruct (OK k first Bk Bf E1) as [Pf Ef].
      rewrite (NotPow k first Ef Bk). exists first, k. repeat split; lia.
    + destruct ((0 <? second) && sfEqb (roundDecimal false second (N - k)) x) eqn:E2.
      * destruct (OK k second Bk Bs E2) as [Pf Ef].
        rewrite (NotPow k second Ef Bk). exists second, k. repeat split; lia.
      * destruct (IH (k + 1)) as (s & k' & R & Bk' & Ps & Es);
          [lia | lia |].
        exists s, k'. repeat split; assumption.
Qed.

(** The text of a positive integer below 2^52: digits that spell it up to
    the zeros that follow them. *)
Lemma numberToString_int (n : Z) :
  0 < n < 2 ^ 52 ->
  exists s j,
    0 < s /\ s * 10 ^ Z.of_nat j = n
    /\ numberToString (ofZ n) = String.append (decimalDigits s) (zeros j)
    /\ numberToString (ofZ (- n))
       = String "-" (String.append (decimalDigits s) (zeros j)).
Proof.
  intro B.
  assert (safeInt n) as Sn
    by (unfold safeInt; change (2 ^ 53) with (2 * 2 ^ 52); lia).
  assert (safeInt (- n)) as Sm
    by (unfold safeInt; change (2 ^ 53) with (2 * 2 ^ 52); lia).
  destruct (intMantissa_value n ltac:(lia) Sn) as (MV & ML & EB).
  rewrite Z.abs_eq in MV by lia.
  assert (intExponent n = Z.log2 n - 52) as EV
    by (unfold intExponent; now rewrite Z.abs_eq by lia).
  remember (intMantissa n) as m eqn:Hm. remember (intExponent n) as e eqn:He.
  (* the rational the search starts from is the integer itself *)
  assert (exists den, 1 <= den
                      /\ (if 0 <=? e then Zpos m * 2 ^ e else Zpos m) = n * den
                      /\ (if 0 <=? e then 1 else 2 ^ (- e)) = den) as (den & Pd & En & Ed).
  { destruct (Z.leb_spec 0 e) as [G | G].
    - exists 1. assert (e = 0) as E0 by lia.
      split; [lia |]. split; [| reflexivity].
      rewrite MV, E0. replace (52 - Z.log2 n) with 0 by lia. simpl. lia.
    - exists (2 ^ (- e)).
      assert (0 < 2 ^ (- e)) as Q by (apply Z.pow_pos_nonneg; lia).
      split; [lia |]. split; [| reflexivity].
      rewrite MV. f_equal. f_equal. lia. }
  destruct (decimalExponent_spec n den ltac:(lia) Pd) as (BN & N1).
  set (N := decimalExponent (n * den) den) in *.
  assert (N <= 16) as N16.
  { assert (10 ^ (N - 1) < 10 ^ 16) as H.
    { apply Z.le_lt_trans with n; [lia |].
      apply Z.lt_trans with (2 ^ 52); [lia | reflexivity]. }
    apply Z.pow_lt_mono_r_iff in H; lia. }
  destruct (shortestFrom_int n den N B Pd BN 16 1 ltac:(lia) ltac:(simpl; lia))
    as (s & k & R & Bk & Ps & Es).
  assert (shortest m e = (s, k, N)) as Sh.
  { unfold shortest. rewrite En, Ed. subst m e. exact R. }
  assert (1 <= k) as K1.
  { destruct (Z.le_gt_cases 1 k) as [G | G]; [exact G |]. exfalso.
    assert (0 < 10 ^ (N - 1)) by (apply Z.pow_pos_nonneg; lia).
    assert (10 ^ (N - k) = 10 ^ (N - 1) * 10 ^ (1 - k)) as Sp.
    { rewrite <- Z.pow_add_r by lia. f_equal. lia. }
    assert (0 < 10 ^ (1 - k)) by (apply Z.pow_pos_nonneg; lia).
    assert (10 <= 10 ^ (1 - k)).
    { change 10 with (10 ^ 1) at 1. apply Z.pow_le_mono_r; lia. }
    assert (10 ^ N = 10 * 10 ^ (N - 1)) as SN.
    { replace N with (N - 1 + 1) at 1 by lia.
      rewrite Z.pow_add_r by lia. lia. }
    assert (10 ^ N <= 10 ^ (N - k)) by nia.
    nia. }
  exists s, (Z.to_nat (N - k)). rewrite Z2Nat.id by lia.
  split; [exact Ps |]. split; [exact Es |].
  assert (formatDecimal s k N
          = String.append (decimalDigits s) (zeros (Z.to_nat (N - k)))) as F.
  { unfold formatDecimal.
    assert ((k <=? N) = true) as -> by (apply Z.leb_le; lia).
    assert ((N <=? 21) = true) as -> by (apply Z.leb_le; lia).
    reflexivity. }
  split.
  - unfold numberToString. rewrite (Prim2SF_ofZ n Sn).
    rewrite (canonInt_nonzero n) by lia.
    assert ((n <? 0) = false) as -> by (apply Z.ltb_ge; lia).
    rewrite <- Hm, <- He, Sh, F. reflexivity.
  - unfold numberToString. rewrite (Prim2SF_ofZ (- n) Sm).
    rewrite (canonInt_nonzero (- n)) by lia.
    assert (intMantissa (- n) = intMantissa n) as ->
        by (unfold intMantissa; now rewrite Z.abs_opp).
    assert (intExponent (- n) = intExponent n) as ->
        by (unfold intExponent; now rewrite Z.abs_opp).
    assert ((- n <? 0) = true) as -> by (apply Z.ltb_lt; lia).
    rewrite <- Hm, <- He, Sh, F. reflexivity.
Qed.

(** A number cell, or a text cell, that holds an integer is read as that
    integer. *)
Lemma numberOrZero_of_parse (cell : value) (n : Z) :
  safeInt n -> parseFloat cell = ofZ n -> numberOrZero cell = ofZ n.
Proof.
  intros S P. unfold numberOrZero. rewrite P, (truthyNumber_ofZ n S).
  destruct (Z.eqb_spec n 0) as [-> | N]; [apply eq_sym, ofZ_zero | reflexivity].
Qed.

Lemma parse_integerText (n : Z) :
  Z.abs n < 2 ^ 53 -> parseFloatString (integerText n) = ofZ n.
Proof.
  intro B. unfold integerText.
  assert (forall v, 0 < v < 2 ^ 53 ->
            parseFloatString (decimalDigits v) = ofZ v
            /\ parseFloatString (String "-" (decimalDigits v)) = ofZ (- v)) as P.
  { intros v Bv.
    destruct (decimalDigits_spec v ltac:(lia)) as (R & _ & _ & L1).
    apply (parse_digit_run _ v
             (0 + Z.of_nat (String.length (decimalDigits v)))).
    - apply decimalDigits_lead.
    - specialize (R "" 0 0).
      assert (forall a, String.append a "" = a) as A0.
      { intro a. induction a as [| c a IHa]; simpl; [reflexivity | now rewrite IHa]. }
      rewrite A0 in R. rewrite R. cbn [readDigits].
      repeat (f_equal; try lia).
    - lia.
    - exact Bv. }
  destruct (Z.ltb_spec n 0) as [Neg | Pos].
  - replace n with (- (- n)) at 2 by lia. apply P. lia.
  - destruct (Z.eq_dec n 0) as [-> | N]; [vm_compute; reflexivity |].
    apply P. lia.
Qed.

Lemma parse_integer_number (n : Z) :
  Z.abs n < 2 ^ 52 -> parseFloat (VNum (ofZ n)) = ofZ n.
Proof.
  intro B. unfold parseFloat, ToString.
  assert (forall v, 0 < v < 2 ^ 52 ->
            parseFloatString (numberToString (ofZ v)) = ofZ v
            /\ parseFloatString (numberToString (ofZ (- v))) = ofZ (- v)) as P.
  { intros v Bv. destruct (numberToString_int v Bv) as (s & j & Ps & E & T & T').
    rewrite T, T'.
    destruct (decimalDigits_spec s ltac:(lia)) as (R & _ & _ & L1).
    apply (parse_digit_run _ v
             (0 + Z.of_nat (String.length (decimalDigits s)) + Z.of_nat j)).
    - destruct (decimalDigits_lead s) as (c & r & -> & D). simpl. eauto.
    - rewrite R.
      assert (forall a, String.append a "" = a) as A0.
      { intro a. induction a as [| c a IHa]; simpl; [reflexivity | now rewrite IHa]. }
      rewrite <- (A0 (zeros j)), readDigits_zeros. cbn [readDigits].
      rewrite <- E.
      generalize (10 ^ Z.of_nat (String.length (decimalDigits s))). intro q.
      repeat (f_equal; try lia).
    - lia.
    - change (2 ^ 53) with (2 * 2 ^ 52). lia. }
  destruct (Z.ltb_spec n 0) as [Neg | Pos].
  - replace n with (- (- n)) by lia. apply P. lia.
  - destruct (Z.eq_dec n 0) as [-> | N]; [vm_compute; reflexivity |].
    apply P. lia.
Qed.

(** The y-axis cell that holds the integer [n] gives the value [n]. *)
Lemma numberOrZero_integer (cell : value) (n : Z) :
  holdsInteger cell n -> numberOrZero cell = ofZ n.
Proof.
  intros [B [-> | ->]]; apply numberOrZero_of_parse;
    try (unfold safeInt; change (2 ^ 53) with (2 * 2 ^ 52); lia).
  - now apply parse_integer_number.
  - unfold parseFloat, ToString. apply parse_integerText.
    change (2 ^ 53) with (2 * 2 ^ 52). lia.
Qed.

(** ** C1: bar, line and scatter charts *)

Lemma inheritedText_not_numeric (k text : string) :
  Obj.inheritedText k = Some text -> startsNumeric text = false.
Proof.
  unfold Obj.inheritedText.
  destruct (String.eqb k "__proto__"); [intro H; injection H as <-; reflexivity |].
  destruct (String.eqb k "constructor");
    [intro H; injection H as <-; reflexivity |].
  destruct (existsb (String.eqb k) Obj.prototypeMethods); [| discriminate].
  intro H. injection H as <-. reflexivity.
Qed.

Lemma numberOrZero_nan (cell : value) :
  startsNumeric (ToString cell) = false -> numberOrZero cell = 0%float.
Proof.
  intro H. unfold numberOrZero, parseFloat.
  now rewrite (parseFloatString_nan _ H).
Qed.

(** A column the row does not have counts as the number 0. *)
Lemma numberOrZero_inherited (column : string) :
  numberOrZero (inheritedCell column) = 0%float.
Proof.
  unfold inheritedCell. destruct (Obj.inheritedText column) as [text |] eqn:I.
  - apply numberOrZero_nan. simpl. now apply (inheritedText_not_numeric column).
  - reflexivity.
Qed.



(** ** C2: the values of a pie chart *)

(** C2, as the code has it.  For a pie request with both axes set there is
    one value per key.  The value listed with a key that is not the name of
    a property of [Object.prototype] is the running total of the numbers of
    exactly the rows of that key, accumulated in row order in binary64
    arithmetic as [(total || 0) + value].  When no key is such a name, the
    number of every row is an integer and the absolute values of these
    integers add up to less than 2^53, the values of the chart sum to the
    sum of the numbers of all rows. *)
Theorem pie_values_and_total (D : Dataset) (cfg : ChartConfig) :
  type cfg = "pie" -> xAxis cfg <> "" -> yAxis cfg <> "" ->
  exists cd,
    aggregate (Some {| data := D |}) cfg = Some cd
    /\ List.length (chartValues cd) = List.length (labels cd)
    /\ (forall i k,
          nth_error (labels cd) i = Some (VStr k) ->
          Obj.inheritedText k = None ->
          nth_error (chartValues cd) i
          = Some (VNum (runningTotal (map (valueOf cfg) (rowsOf cfg k D)))))
    /\ ((forall row, In row D -> Obj.inheritedText (keyOf cfg row) = None) ->
        (forall row, In row D -> isSafeInteger (valueOf cfg row)) ->
        sumOver (fun row => Z.abs (toZ (valueOf cfg row))) D < 2 ^ 53 ->
        sumValues (chartValues cd) = sumRows cfg D).
Proof.
  intros T Hx Hy. eexists. split; [now apply aggregate_pie |].
  unfold chartValues. simpl. split; [| split].
  - unfold Obj.values, Obj.keys. now rewrite !length_map.
  - intros i k H I. apply nth_error_map_VStr in H. now apply pie_value_at.
  - apply pie_total_int.
Qed.

Lemma pie_values_and_total_witness :
  exists cd,
    aggregate (Some {| data := sampleRows |}) (request "pie") = Some cd
    /\ nth_error (labels cd) 0 = Some (VStr "A")
    /\ nth_error (chartValues cd) 0
       = Some (VNum (runningTotal
                       (map (valueOf (request "pie"))
                          (rowsOf (request "pie") "A" sampleRows))))
    /\ sumValues (chartValues cd) = sumRows (request "pie") sampleRows.
Proof.
  destruct (pie_values_and_total sampleRows (request "pie"))
    as (cd & A & _ & V & S); [reflexivity | discriminate | discriminate |].
  exists cd. split; [exact A |].
  assert (nth_error (labels cd) 0 = Some (VStr "A")) as L.
  { vm_compute in A. injection A as <-. reflexivity. }
  split; [exact L |]. split.
  - apply V; [exact L | reflexivity].
  - apply S.
    + intros row [<- | [<- | [<- | []]]]; reflexivity.
    + intros row [<- | [<- | [<- | []]]]; vm_compute; reflexivity.
    + vm_compute. reflexivity.
Defined.

(** C2 as stated fails: the numbers of the rows are 1e16, 1, 1, -1e16, 1
    (3 in all); summed row by row in binary64 they give 1, and the values of
    the pie, 0 for A and 2 for B, sum to 2. *)
Lemma grouped_total_differs :
  map (valueOf (request "pie")) ledgerRows = [1e16; 1; 1; -1e16; 1]%float
  /\ aggregate (Some {| data := ledgerRows |}) (request "pie")
     = Some {| labels := [VStr "A"; VStr "B"];
               datasets := [PieDataset [VNum 0; VNum 2] piePalette] |}
  /\ sumValues [VNum 0; VNum 2] = VNum 2
  /\ sumRows (request "pie") ledgerRows = VNum 1
  /\ sumValues [VNum 0; VNum 2] <> sumRows (request "pie") ledgerRows
  /\ sumValues [VNum 0; VNum 2] <> VNum 3.
Proof.
  assert (sumValues [VNum 0; VNum 2] = VNum 2) as A
    by (vm_compute; reflexivity).
  assert (sumRows (request "pie") ledgerRows = VNum 1) as B
    by (vm_compute; reflexivity).
  repeat split; try (vm_compute; reflexivity).
  - rewrite A, B. apply VNum_neq. reflexivity.
  - rewrite A. apply VNum_neq. reflexivity.
Qed.

(** ** C3: the order of the keys of a pie chart *)

(** C3, as the code has it.  For a pie request with both axes set, among
    the keys: two keys that are not array indices stand in the order in which
    their first rows stand in the dataset; two array indices stand in
    ascending numeric order; an array index stands before every key that is
    not one. *)
Theorem pie_key_order (D : Dataset) (cfg : ChartConfig) :
  type cfg = "pie" -> xAxis cfg <> "" -> yAxis cfg <> "" ->
  exists cd ks,
    aggregate (Some {| data := D |}) cfg = Some cd
    /\ labels cd = map VStr ks
    /\ forall k k', In k ks -> In k' ks ->
         (Obj.isArrayIndex k = false -> Obj.isArrayIndex k' = false ->
          precedes k k' ks = precedes k k' (map (keyOf cfg) D))
         /\ (Obj.isArrayIndex k = true -> Obj.isArrayIndex k' = true ->
             (precedes k k' ks = true
              <-> Obj.indexValue k < Obj.indexValue k'))
         /\ (Obj.isArrayIndex k = true -> Obj.isArrayIndex k' = false ->
             precedes k k' ks = true).
Proof.
  intros T Hx Hy.
  exists {| labels := map VStr (Obj.keys (pieAggregate cfg D));
            datasets :=
              [PieDataset (Obj.values (pieAggregate cfg D)) piePalette] |},
    (Obj.keys (pieAggregate cfg D)).
  split; [now apply aggregate_pie |]. split; [reflexivity |].
  intros k k' Hk Hk'.
  pose proof (proj1 (keys_In cfg D k) Hk) as [_ Nk].
  pose proof (proj1 (keys_In cfg D k') Hk') as [_ Nk'].
  apply (Permutation_in _ (keys_perm _)) in Hk, Hk'.
  destruct (keys_split (pieAggregate cfg D)) as (sorted & -> & P & S).
  assert (forall x, In x sorted
                    <-> In x (map fst (pieAggregate cfg D))
                        /\ Obj.isArrayIndex x = true) as MS.
  { intro x. rewrite <- filter_In. split; apply Permutation_in;
      [exact P | apply Permutation_sym, P]. }
  split; [| split].
  - intros I I'.
    rewrite precedes_app_out;
      [| rewrite MS; intros [_ C]; congruence
       | rewrite MS; intros [_ C]; congruence].
    rewrite (precedes_filter (fun x => negb (Obj.isArrayIndex x)))
      by (now apply negb_true_iff).
    rewrite pieAggregate_keys, precedes_nub.
    apply precedes_filter; unfold notProto;
      now apply negb_true_iff, String.eqb_neq.
  - intros I I'.
    assert (In k sorted) as Sk by (apply MS; auto).
    assert (In k' sorted) as Sk' by (apply MS; auto).
    rewrite precedes_app_in by assumption. split.
    + intro Pr. pose proof (precedes_sorted k k' sorted S Pr) as Le.
      destruct (precedes_In _ _ _ Pr) as (_ & _ & Ne). unfold leIndex in Le.
      destruct (Z.eq_dec (Obj.indexValue k) (Obj.indexValue k')) as [E | E];
        [| lia].
      elim Ne. now apply arrayIndex_inj.
    + intro Lt.
      assert (k <> k') as Ne by (intros ->; lia).
      destruct (precedes_total k k' sorted Sk Sk' Ne) as [Pr | Pr];
        [exact Pr |].
      pose proof (precedes_sorted k' k sorted S Pr) as Le. unfold leIndex in Le.
      lia.
  - intros I I'. apply precedes_app_cross.
    + apply MS; auto.
    + rewrite MS. intros [_ C]. congruence.
    + apply filter_In. split; [assumption | now apply negb_true_iff].
Qed.

Lemma pie_key_order_witness :
  exists cd ks,
    aggregate (Some {| data := yearRows |}) (request "pie") = Some cd
    /\ labels cd = map VStr ks
    /\ forall k k', In k ks -> In k' ks ->
         (Obj.isArrayIndex k = false -> Obj.isArrayIndex k' = false ->
          precedes k k' ks
          = precedes k k' (map (keyOf (request "pie")) yearRows))
         /\ (Obj.isArrayIndex k = true -> Obj.isArrayIndex k' = true ->
             (precedes k k' ks = true
              <-> Obj.indexValue k < Obj.indexValue k'))
         /\ (Obj.isArrayIndex k = true -> Obj.isArrayIndex k' = false ->
             precedes k k' ks = true).
Proof.
  apply (pie_key_order yearRows (request "pie")).
  - reflexivity.
  - discriminate.
  - discriminate.
Defined.

(** C3 as stated fails: the first row of [2024] comes before the first row
    of [2023], and the key [2024] does not come before the key [2023]. *)
Lemma year_keys_are_sorted :
  aggregate (Some {| data := yearRows |}) (request "pie")
  = Some {| labels := [VStr "2023"; VStr "2024"];
            datasets := [PieDataset [VNum 20; VNum 10] piePalette] |}
  /\ precedes "2024" "2023" (map (keyOf (request "pie")) yearRows) = true
  /\ precedes "2024" "2023" (Obj.keys (pieAggregate (request "pie") yearRows))
     = false.
Proof. repeat split; vm_compute; reflexivity. Qed.

(** ** C4: the guard *)

(** C4, as the code has it.  When the x-axis or the y-axis selection is the
    empty string, for every chart type and every loaded record,
    [generateChartData] returns at its guard: nothing is raised, no series is
    produced and the page state, an earlier chart included, stays as it
    was. *)
Theorem unset_axis_no_series (st : PageState) :
  xAxis (chartConfig st) = "" \/ yAxis (chartConfig st) = "" ->
  aggregate (excelData st) (chartConfig st) = None
  /\ generateChartData st = st.
Proof.
  intro H.
  assert (aggregate (excelData st) (chartConfig st) = None) as A.
  { unfold aggregate. destruct (excelData st); [| reflexivity].
    destruct H as [-> | ->]; simpl; [reflexivity |].
    now rewrite orb_true_r. }
  split; [exact A |]. unfold generateChartData. now rewrite A.
Qed.

Lemma unset_axis_no_series_witness :
  aggregate (excelData unsetPage) (chartConfig unsetPage) = None
  /\ generateChartData unsetPage = unsetPage.
Proof.
  apply (unset_axis_no_series unsetPage). left. reflexivity.
Defined.

(** C4 as stated fails: [city] is not a column of the sample rows, yet the
    bar request on it is answered with three points, labelled [undefined],
    and not with an empty or absent series. *)
Lemma unknown_column_is_plotted :
  ~ In (xAxis cityRequest) (columnsOf sampleRows)
  /\ aggregate (Some {| data := sampleRows |}) cityRequest
     = Some {| labels := [VUndefined; VUndefined; VUndefined];
               datasets :=
                 [XYDataset "sales" [10; 20; 5]%float
                    (Some "rgba(54, 162, 235, 0.6)")
                    "rgba(54, 162, 235, 1)" 2 false] |}
  /\ ~ emptySeries (aggregate (Some {| data := sampleRows |}) cityRequest).
Proof.
  assert (aggregate (Some {| data := sampleRows |}) cityRequest
          = Some {| labels := [VUndefined; VUndefined; VUndefined];
                    datasets :=
                      [XYDataset "sales" [10; 20; 5]%float
                         (Some "rgba(54, 162, 235, 0.6)")
                         "rgba(54, 162, 235, 1)" 2 false] |}) as A
    by (vm_compute; reflexivity).
  split; [| split; [exact A |]].
  - simpl. intros [H | [H | H]]; try discriminate H. exact H.
  - rewrite A. intros [H | (cd & H & L & _)]; [discriminate H |].
    injection H as <-. discriminate L.
Qed.

(** ** C5: the keys of a pie chart *)

(** C5, as the code has it.  For a pie request with both axes set on a
    dataset in which no x-axis cell reads [__proto__] as text, the keys are
    the distinct texts of the x-axis cells: every such text is a key exactly
    once and the number of keys is the number of distinct texts. *)
Theorem pie_one_key_per_distinct_text (D : Dataset) (cfg : ChartConfig) :
  type cfg = "pie" -> xAxis cfg <> "" -> yAxis cfg <> "" ->
  ~ In "__proto__" (map (keyOf cfg) D) ->
  exists cd ks,
    aggregate (Some {| data := D |}) cfg = Some cd
    /\ labels cd = map VStr ks
    /\ NoDup ks
    /\ (forall k, In k ks <-> In k (map (keyOf cfg) D))
    /\ distinctCount (map (keyOf cfg) D) (List.length (labels cd)).
Proof.
  intros T Hx Hy NP.
  assert (forall k, In k (Obj.keys (pieAggregate cfg D))
                    <-> In k (map (keyOf cfg) D)) as M.
  { intro k. rewrite keys_In. split; [tauto |]. intro H. split; [exact H |].
    intros ->. exact (NP H). }
  exists {| labels := map VStr (Obj.keys (pieAggregate cfg D));
            datasets :=
              [PieDataset (Obj.values (pieAggregate cfg D)) piePalette] |},
    (Obj.keys (pieAggregate cfg D)).
  split; [now apply aggregate_pie |]. split; [reflexivity |].
  split; [apply keys_NoDup |]. split; [exact M |].
  exists (Obj.keys (pieAggregate cfg D)).
  split; [apply keys_NoDup |]. split; [exact M |].
  simpl. now rewrite length_map.
Qed.

Lemma pie_one_key_per_distinct_text_witness :
  exists cd ks,
    aggregate (Some {| data := sampleRows |}) (request "pie") = Some cd
    /\ labels cd = map VStr ks
    /\ NoDup ks
    /\ (forall k, In k ks <-> In k (map (keyOf (request "pie")) sampleRows))
    /\ distinctCount (map (keyOf (request "pie")) sampleRows)
         (List.length (labels cd)).
Proof.
  apply (pie_one_key_per_distinct_text sampleRows (request "pie")).
  - reflexivity.
  - discriminate.
  - discriminate.
  - simpl. intros [H | [H | [H | H]]]; try discriminate H. exact H.
Defined.

(** C5 as stated fails: the two x-axis cells of [mixedRows] are two distinct
    values, and the pie request has one key. *)
Lemma distinct_cells_one_key :
  distinctCount (map (fun row => rowGet row "region") mixedRows) 2
  /\ Obj.keys (pieAggregate (request "pie") mixedRows) = ["1"]
  /\ ~ distinctCount (map (fun row => rowGet row "region") mixedRows)
         (List.length (Obj.keys (pieAggregate (request "pie") mixedRows))).
Proof.
  assert (Obj.keys (pieAggregate (request "pie") mixedRows) = ["1"]) as K
    by (vm_compute; reflexivity).
  split; [| split; [exact K |]].
  - exists [VNum 1; VStr "1"]. split; [| split; [| reflexivity]].
    + constructor; [| constructor; [| constructor]]; simpl.
      * intros [H | H]; [discriminate H | exact H].
      * tauto.
    + intro x. reflexivity.
  - rewrite K. intros (l & _ & M & L).
    destruct l as [| a [| b l]]; try discriminate L.
    assert (In (VNum 1) [a]) as H1 by (apply M; simpl; auto).
    assert (In (VStr "1") [a]) as H2 by (apply M; simpl; auto).
    destruct H1 as [H1 | []], H2 as [H2 | []]. congruence.
Qed.

(** ** C6: cells that are not numbers, columns that are not there *)

Lemma numberOrZero_is_nan (cell : value) :
  PrimFloat.is_nan (parseFloat cell) = true -> numberOrZero cell = 0%float.
Proof. intro H. unfold numberOrZero, truthyNumber. now rewrite H. Qed.

Lemma addToTotal_zero (t : float) :
  truthyNumber t = true \/ t = 0%float -> addToTotal t 0 = t.
Proof.
  unfold addToTotal. intros [H | ->]; [| reflexivity].
  rewrite H. apply add_zero_r. now apply truthyNumber_not_zero.
Qed.

(** C6, as the code has it.  Take a row of a dataset and a request with both
    axes set.  When the row has no y-axis cell, or the text of the cell does
    not start like a number, or [parseFloat] makes NaN of it, the row counts
    as the number 0: its value in a bar, line or scatter chart is exactly 0,
    and its pie step leaves a total of its key that is a number other than
    NaN and negative zero as it was and starts a new key, one that is not
    the name of a property of [Object.prototype], at 0; the request is
    answered all the same.  When the row lacks the x-axis column and the name of the column
    is not one of a property of [Object.prototype], its label in a bar, line
    or scatter chart is [undefined]. *)
Theorem missing_or_text_cell (D : Dataset) (cfg : ChartConfig) (i : nat)
  (row : Row) :
  xAxis cfg <> "" -> yAxis cfg <> "" -> nth_error D i = Some row ->
  (hasColumn row (yAxis cfg) = false
   \/ (exists v, ownCell row (yAxis cfg) v
                 /\ (startsNumeric (ToString v) = false
                     \/ PrimFloat.is_nan (parseFloat v) = true)) ->
   (type cfg <> "pie" ->
    exists cd, aggregate (Some {| data := D |}) cfg = Some cd
               /\ nth_error (chartValues cd) i = Some (VNum 0))
   /\ (forall agg t,
          Obj.lookup (keyOf cfg row) agg = Some (VNum t) ->
          truthyNumber t = true \/ t = 0%float ->
          Obj.lookup (keyOf cfg row) (pieStep cfg agg row) = Some (VNum t))
   /\ (forall agg,
          Obj.lookup (keyOf cfg row) agg = None ->
          Obj.inheritedText (keyOf cfg row) = None ->
          Obj.lookup (keyOf cfg row) (pieStep cfg agg row) = Some (VNum 0)))
  /\ (hasColumn row (xAxis cfg) = false ->
      Obj.inheritedText (xAxis cfg) = None -> type cfg <> "pie" ->
      exists cd, aggregate (Some {| data := D |}) cfg = Some cd
                 /\ nth_error (labels cd) i = Some VUndefined).
Proof.
  intros Hx Hy Hi. split.
  - intro H.
    assert (valueOf cfg row = 0%float) as V.
    { unfold valueOf. destruct H as [M | (v & O & [S | N])].
      - rewrite (rowGet_inherited _ _ M). apply numberOrZero_inherited.
      - rewrite (rowGet_own _ _ _ O). now apply numberOrZero_nan.
      - rewrite (rowGet_own _ _ _ O). now apply numberOrZero_is_nan. }
    split; [| split].
    + intro T. eexists. split; [now apply aggregate_xy |].
      unfold chartValues. simpl. rewrite map_map.
      rewrite (map_nth_error (fun r => VNum (valueOf cfg r)) _ _ Hi).
      now rewrite V.
    + intros agg t L Ht.
      destruct (string_dec (keyOf cfg row) "__proto__") as [E | E].
      * unfold pieStep. fold (keyOf cfg row). rewrite E in *. exact L.
      * rewrite pieStep_lookup_same by assumption.
        rewrite (accumulated_number _ _ _ (valueOf cfg row) L), V.
        now rewrite addToTotal_zero.
    + intros agg L I.
      rewrite pieStep_lookup_same
        by now apply inheritedText_None_not_proto.
      rewrite (accumulated_absent _ _ (valueOf cfg row) I L), V. reflexivity.
  - intros M I T. eexists. split; [now apply aggregate_xy |]. simpl.
    rewrite (map_nth_error (fun r => rowGet r (xAxis cfg)) _ _ Hi).
    now rewrite (rowGet_missing _ _ M I).
Qed.

Lemma missing_or_text_cell_witness :
  (exists cd,
      aggregate (Some {| data := patchyRows |}) (request "bar") = Some cd
      /\ nth_error (chartValues cd) 2 = Some (VNum 0))
  /\ (exists cd,
        aggregate (Some {| data := patchyRows |}) (request "bar") = Some cd
        /\ nth_error (chartValues cd) 3 = Some (VNum 0))
  /\ (exists cd,
        aggregate (Some {| data := patchyRows |}) (request "bar") = Some cd
        /\ nth_error (labels cd) 3 = Some VUndefined)
  /\ Obj.lookup "A"
       (pieStep (request "pie") [("A", VNum 10)]
          (regionSales (VStr "A") (VStr "abc")))
     = Some (VNum 10)
  /\ Obj.lookup "undefined"
       (pieStep (request "pie") [("A", VNum 10)] [("sales", VStr "n/a")])
     = Some (VNum 0).
Proof.
  assert (forall v, ownCell (regionSales (VStr "A") v) "sales" v) as O1.
  { intro v. split; [| simpl; auto].
    repeat constructor; simpl; intuition discriminate. }
  assert (ownCell [("sales", VStr "n/a")] "sales" (VStr "n/a")) as O2.
  { split; [| simpl; auto].
    repeat constructor; simpl; intuition discriminate. }
  destruct (missing_or_text_cell patchyRows (request "bar") 2
              (regionSales (VStr "A") (VStr "abc"))) as [A _];
    [discriminate | discriminate | reflexivity |].
  destruct (missing_or_text_cell patchyRows (request "bar") 3
              [("sales", VStr "n/a")]) as [A' B];
    [discriminate | discriminate | reflexivity |].
  destruct (missing_or_text_cell patchyRows (request "pie") 2
              (regionSales (VStr "A") (VStr "abc"))) as [P _];
    [discriminate | discriminate | reflexivity |].
  destruct (missing_or_text_cell patchyRows (request "pie") 3
              [("sales", VStr "n/a")]) as [P' _];
    [discriminate | discriminate | reflexivity |].
  destruct A as (X & _);
    [right; exists (VStr "abc"); split; [apply O1 | left; reflexivity] |].
  destruct A' as (X' & _);
    [right; exists (VStr "n/a"); split; [exact O2 | left; reflexivity] |].
  destruct P as (_ & S & _);
    [right; exists (VStr "abc"); split; [apply O1 | left; reflexivity] |].
  destruct P' as (_ & _ & S');
    [right; exists (VStr "n/a"); split; [exact O2 | left; reflexivity] |].
  split; [apply X; discriminate |]. split; [apply X'; discriminate |].
  split; [apply B; [reflexivity | reflexivity | discriminate] |]. split.
  - apply (S [("A", VNum 10)] 10%float); [reflexivity | left; reflexivity].
  - apply (S' [("A", VNum 10)]); reflexivity.
Defined.

(** C6 as stated fails.  Cells of text that is no number, [12abc], [1,234]
    and [2024-01-05], are plotted as 12, 1 and 2024, the number they begin
    with, and their pie slice is 2037.  A cell of text after a total that
    has become NaN turns the slice from NaN into 0, and as the first row of
    the key [constructor] it starts the slice at a text.  Rows without the
    x-axis column [constructor] are labelled with the function they inherit
    under that name, not with [undefined]. *)
Lemma text_counts_by_its_prefix :
  aggregate (Some {| data := prefixRows |}) (request "bar")
  = Some {| labels := [VStr "A"; VStr "A"; VStr "A"];
            datasets := [XYDataset "sales" [12; 1; 2024]%float
                           (Some "rgba(54, 162, 235, 0.6)")
                           "rgba(54, 162, 235, 1)" 2 false] |}
  /\ aggregate (Some {| data := prefixRows |}) (request "pie")
     = Some {| labels := [VStr "A"];
               datasets := [PieDataset [VNum 2037] piePalette] |}
  /\ VNum 12 <> VNum 0 /\ VNum 1 <> VNum 0 /\ VNum 2024 <> VNum 0
  /\ VNum 2037 <> VNum 0
  /\ aggregate (Some {| data := [regionSales (VStr "A") (VStr "Infinity");
                                 regionSales (VStr "A") (VStr "-Infinity")] |})
       (request "pie")
     = Some {| labels := [VStr "A"];
               datasets := [PieDataset [VNum nan] piePalette] |}
  /\ aggregate (Some {| data := [regionSales (VStr "A") (VStr "Infinity");
                                 regionSales (VStr "A") (VStr "-Infinity");
                                 regionSales (VStr "A") (VStr "abc")] |})
       (request "pie")
     = Some {| labels := [VStr "A"];
               datasets := [PieDataset [VNum 0] piePalette] |}
  /\ VNum nan <> VNum 0
  /\ aggregate (Some {| data := [regionSales (VStr "constructor")
                                   (VStr "abc")] |})
       (request "pie")
     = Some {| labels := [VStr "constructor"];
               datasets :=
                 [PieDataset [VStr "function Object() { [native code] }0"]
                    piePalette] |}
  /\ hasColumn [("sales", VStr "10")] "constructor" = false
  /\ aggregate (Some {| data := sparseRows |}) (constructorRequest "bar")
     = Some {| labels := [VStr "x";
                          VObject "function Object() { [native code] }";
                          VObject "function Object() { [native code] }"];
               datasets := [XYDataset "sales" [1; 10; 20]%float
                              (Some "rgba(54, 162, 235, 0.6)")
                              "rgba(54, 162, 235, 1)" 2 false] |}
  /\ VObject "function Object() { [native code] }" <> VUndefined.
Proof.
  repeat split; try (vm_compute; reflexivity);
    try (apply VNum_neq; reflexivity); discriminate.
Qed.

(** ** C7: the empty dataset *)

(** C7. On the empty dataset, with both axes set, every chart type gets a
    series without points: no labels and no values, and for a pie request an
    aggregation object without properties; the handler does produce it. *)
Theorem empty_dataset_empty_series (cfg : ChartConfig) :
  xAxis cfg <> "" -> yAxis cfg <> "" ->
  pieAggregate cfg [] = []
  /\ exists cd,
       aggregate (Some {| data := [] |}) cfg = Some cd
       /\ labels cd = [] /\ chartValues cd = [].
Proof.
  intros Hx Hy. split; [reflexivity |].
  destruct (string_dec (type cfg) "pie") as [T | T].
  - eexists. split; [now apply aggregate_pie |]. split; reflexivity.
  - eexists. split; [now apply aggregate_xy |]. split; reflexivity.
Qed.

Lemma empty_dataset_empty_series_witness :
  pieAggregate (request "pie") [] = []
  /\ exists cd,
       aggregate (Some {| data := [] |}) (request "pie") = Some cd
       /\ labels cd = [] /\ chartValues cd = [].
Proof.
  apply (empty_dataset_empty_series (request "pie")); discriminate.
Defined.

(** ** C8: the worked example *)

(** C8. On the three rows (A, "10"), (B, "20"), (A, "5") with x-axis
    [region] and y-axis [sales], a pie request yields the keys A, B with the
    values 15, 20, and a bar request yields the labels A, B, A with the
    values 10, 20, 5: the two rows labelled A stay apart. *)
Theorem sample_pie_and_bar :
  aggregate (Some {| data := sampleRows |}) (request "pie")
  = Some {| labels := [VStr "A"; VStr "B"];
            datasets := [PieDataset [VNum 15; VNum 20] piePalette] |}
  /\ aggregate (Some {| data := sampleRows |}) (request "bar")
     = Some {| labels := [VStr "A"; VStr "B"; VStr "A"];
               datasets :=
                 [XYDataset "sales" [10; 20; 5]%float
                    (Some "rgba(54, 162, 235, 0.6)")
                    "rgba(54, 162, 235, 1)" 2 false] |}.
Proof.
  split.
  - vm_compute. reflexivity.
  - vm_compute. reflexivity.
Qed.

(** ** C9: no state between two runs *)

Lemma deref_app_old (h : Heap.heap) (o : Obj.object) (a : nat) :
  (a < List.length h)%nat -> Heap.deref (h ++ [o]) a = Heap.deref h a.
Proof. intro L. unfold Heap.deref. now apply app_nth1. Qed.

Lemma deref_app_new (h : Heap.heap) (o : Obj.object) :
  Heap.deref (h ++ [o]) (List.length h) = o.
Proof. unfold Heap.deref. now rewrite nth_middle. Qed.

Lemma write_app_new (h : Heap.heap) (o o' : Obj.object) :
  Heap.write (h ++ [o]) (List.length h) o' = h ++ [o'].
Proof. induction h as [| x h IH]; simpl; [reflexivity | now rewrite IH]. Qed.

(** The loop writes to the new object only, and what it leaves there is
    what the fold over the rows computes. *)
Lemma pieBody_fold (cfg : ChartConfig) (h : Heap.heap) (rs : list nat) :
  (forall r, In r rs -> (r < List.length h)%nat) ->
  forall agg,
    fold_left (Heap.pieBody cfg (List.length h)) rs (h ++ [agg])
    = h ++ [fold_left (pieStep cfg) (map (Heap.deref h) rs) agg].
Proof.
  induction rs as [| r rs IH]; intros B agg; simpl; [reflexivity |].
  unfold Heap.pieBody at 2.
  rewrite deref_app_new, deref_app_old by (apply B; now left).
  rewrite write_app_new. fold (pieStep cfg agg (Heap.deref h r)).
  apply IH. intros r' H. apply B. now right.
Qed.

(** On the heap the handler computes what [aggregate] computes from the
    rows its references lead to. *)
Lemma heap_chart (m : Heap.Machine) :
  Heap.wellFormed m ->
  Heap.chart (Heap.generateChartData m)
  = match aggregate (Heap.dataset m) (Heap.config m) with
    | Some cd => Some cd
    | None => Heap.chart m
    end.
Proof.
  intro W. unfold Heap.generateChartData, Heap.dataset, aggregate.
  destruct (Heap.rows m) as [rs |] eqn:R; [| reflexivity].
  destruct (String.eqb (xAxis (Heap.config m)) ""
            || String.eqb (yAxis (Heap.config m)) ""); [reflexivity |].
  cbn [data].
  destruct (String.eqb (type (Heap.config m)) "pie").
  - cbn [Heap.chart]. unfold pieAggregate.
    rewrite pieBody_fold by (intros r H; now apply (W rs)).
    now rewrite deref_app_new.
  - cbn [Heap.chart]. now rewrite !map_map.
Qed.

Lemma heap_frame (m : Heap.Machine) :
  Heap.wellFormed m ->
  Heap.rows (Heap.generateChartData m) = Heap.rows m
  /\ Heap.config (Heap.generateChartData m) = Heap.config m
  /\ (List.length (Heap.objects m)
      <= List.length (Heap.objects (Heap.generateChartData m)))%nat
  /\ forall a, (a < List.length (Heap.objects m))%nat ->
       Heap.deref (Heap.objects (Heap.generateChartData m)) a
       = Heap.deref (Heap.objects m) a.
Proof.
  intro W. unfold Heap.generateChartData.
  destruct (Heap.rows m) as [rs |] eqn:R; [| now rewrite R].
  destruct (String.eqb (xAxis (Heap.config m)) ""
            || String.eqb (yAxis (Heap.config m)) ""); [now rewrite R |].
  destruct (String.eqb (type (Heap.config m)) "pie"); cbn.
  - rewrite pieBody_fold by (intros r H; now apply (W rs)).
    rewrite length_app. repeat split; [simpl; lia |].
    intros a L. now apply deref_app_old.
  - repeat split. lia.
Qed.

(** C9. The handler keeps no state between two runs and leaves what it was
    given as it found it.  On a heap of objects, of which the loaded record
    refers to some as its rows: a run changes no object that was there (the
    object it fills in is a new one), and neither the record nor the
    configuration; the chart it leaves is the one [aggregate] computes from
    the rows and the configuration, whatever chart and whatever other
    objects there were; a second run right after the first leaves the same
    chart; and so do two runs on any two heaps that hold the same rows under
    the same configuration. *)
Theorem handler_is_stateless (m : Heap.Machine) :
  Heap.wellFormed m ->
  (forall a, (a < List.length (Heap.objects m))%nat ->
     Heap.deref (Heap.objects (Heap.generateChartData m)) a
     = Heap.deref (Heap.objects m) a)
  /\ Heap.rows (Heap.generateChartData m) = Heap.rows m
  /\ Heap.config (Heap.generateChartData m) = Heap.config m
  /\ Heap.dataset (Heap.generateChartData m) = Heap.dataset m
  /\ (forall cd, aggregate (Heap.dataset m) (Heap.config m) = Some cd ->
        Heap.chart (Heap.generateChartData m) = Some cd)
  /\ Heap.chart (Heap.generateChartData (Heap.generateChartData m))
     = Heap.chart (Heap.generateChartData m)
  /\ (forall m', Heap.wellFormed m' ->
        Heap.dataset m' = Heap.dataset m -> Heap.config m' = Heap.config m ->
        aggregate (Heap.dataset m) (Heap.config m) <> None ->
        Heap.chart (Heap.generateChartData m')
        = Heap.chart (Heap.generateChartData m)).
Proof.
  intro W. destruct (heap_frame m W) as (R & C & Le & F).
  assert (Heap.dataset (Heap.generateChartData m) = Heap.dataset m) as DS.
  { unfold Heap.dataset. rewrite R.
    destruct (Heap.rows m) as [rs |] eqn:E; [| reflexivity].
    do 2 f_equal. apply map_ext_in. intros r H. apply F. now apply (W rs). }
  assert (Heap.wellFormed (Heap.generateChartData m)) as W'.
  { intros rs r E H. rewrite R in E. specialize (W rs r E H). lia. }
  split; [exact F |]. split; [exact R |]. split; [exact C |].
  split; [exact DS |]. split; [| split].
  - intros cd A. now rewrite (heap_chart m W), A.
  - rewrite (heap_chart _ W'), DS, C, (heap_chart m W).
    now destruct (aggregate (Heap.dataset m) (Heap.config m)).
  - intros m' Wm' D' C' N.
    rewrite (heap_chart m' Wm'), (heap_chart m W), D', C'.
    destruct (aggregate (Heap.dataset m) (Heap.config m)); [reflexivity |].
    now elim N.
Qed.

Lemma handler_is_stateless_witness :
  Heap.chart (Heap.generateChartData (sampleMachine "pie" None))
  = Some {| labels := [VStr "A"; VStr "B"];
            datasets := [PieDataset [VNum 15; VNum 20] piePalette] |}
  /\ Heap.chart (Heap.generateChartData
                   (Heap.generateChartData (sampleMachine "pie" None)))
     = Some {| labels := [VStr "A"; VStr "B"];
               datasets := [PieDataset [VNum 15; VNum 20] piePalette] |}
  /\ Heap.chart (Heap.generateChartData
                   (sampleMachine "pie"
                      (Some {| labels := []; datasets := [] |})))
     = Some {| labels := [VStr "A"; VStr "B"];
               datasets := [PieDataset [VNum 15; VNum 20] piePalette] |}
  /\ Heap.dataset (Heap.generateChartData (sampleMachine "pie" None))
     = Some {| data := sampleRows |}
  /\ Heap.objects (Heap.generateChartData (sampleMachine "pie" None))
     = Heap.objects (sampleMachine "pie" None)
       ++ [[("A", VNum 15); ("B", VNum 20)]].
Proof.
  assert (forall previous, Heap.wellFormed (sampleMachine "pie" previous)) as W.
  { intros previous rs r E H. injection E as <-. simpl in *. lia. }
  destruct (handler_is_stateless (sampleMachine "pie" None) (W None))
    as (_ & _ & _ & D & A & T & S).
  assert (Heap.chart (Heap.generateChartData (sampleMachine "pie" None))
          = Some {| labels := [VStr "A"; VStr "B"];
                    datasets := [PieDataset [VNum 15; VNum 20] piePalette] |})
    as C by (apply A; vm_compute; reflexivity).
  split; [exact C |]. split; [now rewrite T |]. split.
  - rewrite <- C. apply S.
    + apply W.
    + reflexivity.
    + reflexivity.
    + vm_compute. discriminate.
  - split; [rewrite D; reflexivity | vm_compute; reflexivity].
Defined.

(** ** C10: keys are compared as text *)

Lemma runningTotal_two (cfg : ChartConfig) (r1 r2 : Row) :
  runningTotal [valueOf cfg r1; valueOf cfg r2]
  = (valueOf cfg r1 + valueOf cfg r2)%float.
Proof.
  unfold runningTotal. simpl. unfold addToTotal at 2.
  change (truthyNumber 0) with false. cbv iota.
  rewrite add_zero_l by apply numberOrZero_not_neg_zero.
  unfold addToTotal.
  destruct (numberOrZero_cases (rowGet r1 (yAxis cfg))) as [H | H];
    unfold valueOf; rewrite H; reflexivity.
Qed.

(** What a row inherits converts to a text that is not itself the name of
    an inherited property. *)
Lemma inheritedText_of_text (k text : string) :
  Obj.inheritedText k = Some text -> Obj.inheritedText text = None.
Proof.
  unfold Obj.inheritedText at 1.
  destruct (String.eqb k "__proto__"); [intro H; injection H as <-; reflexivity |].
  destruct (String.eqb k "constructor");
    [intro H; injection H as <-; reflexivity |].
  destruct (existsb (String.eqb k) Obj.prototypeMethods); [| discriminate].
  intro H. injection H as <-. reflexivity.
Qed.

Lemma inheritedCell_key (column : string) :
  Obj.inheritedText (ToString (inheritedCell column)) = None.
Proof.
  unfold inheritedCell. destruct (Obj.inheritedText column) as [text |] eqn:I.
  - simpl. now apply (inheritedText_of_text column).
  - reflexivity.
Qed.

(** C10, as the code has it.  Take a pie request with both axes set and two
    rows of the dataset whose x-axis cells are different scalars that read
    the same as text, or that both lack the x-axis cell.  The two rows have
    one key: the text of the cell of either, and for rows without the cell
    the text [undefined], unless the name of the column is one of a property
    of [Object.prototype].  The key is a label of the chart at exactly one
    position; the value there is the running total of all the rows of that
    key, which is the sum of the numbers of the two rows when no other row
    has the key: the integer [a + b] for y-axis cells that hold the
    integers [a] and [b]. *)
Theorem pie_merges_equal_text (D : Dataset) (cfg : ChartConfig)
  (r1 r2 : Row) :
  type cfg = "pie" -> xAxis cfg <> "" -> yAxis cfg <> "" ->
  In r1 D -> In r2 D ->
  (exists v1 v2,
      ownCell r1 (xAxis cfg) v1 /\ ownCell r2 (xAxis cfg) v2
      /\ v1 <> v2 /\ ToString v1 = ToString v2
      /\ isScalar v1 = true /\ isScalar v2 = true)
  \/ (hasColumn r1 (xAxis cfg) = false /\ hasColumn r2 (xAxis cfg) = false) ->
  exists cd i k,
    aggregate (Some {| data := D |}) cfg = Some cd
    /\ keyOf cfg r1 = k /\ keyOf cfg r2 = k
    /\ (forall v, ownCell r1 (xAxis cfg) v -> k = ToString v)
    /\ (hasColumn r1 (xAxis cfg) = false ->
        Obj.inheritedText (xAxis cfg) = None -> k = "undefined")
    /\ nth_error (labels cd) i = Some (VStr k)
    /\ (forall j, nth_error (labels cd) j = Some (VStr k) -> j = i)
    /\ nth_error (chartValues cd) i
       = Some (VNum (runningTotal (map (valueOf cfg) (rowsOf cfg k D))))
    /\ (rowsOf cfg k D = [r1; r2] ->
        nth_error (chartValues cd) i
        = Some (VNum (valueOf cfg r1 + valueOf cfg r2))
        /\ forall c1 c2 a b,
             ownCell r1 (yAxis cfg) c1 -> ownCell r2 (yAxis cfg) c2 ->
             holdsInteger c1 a -> holdsInteger c2 b ->
             nth_error (chartValues cd) i = Some (VNum (ofZ (a + b)))).
Proof.
  intros T Hx Hy I1 I2 H.
  assert (keyOf cfg r2 = keyOf cfg r1) as K.
  { unfold keyOf. destruct H as [(v1 & v2 & O1 & O2 & _ & E & _) | [M1 M2]].
    - now rewrite (rowGet_own _ _ _ O1), (rowGet_own _ _ _ O2).
    - now rewrite (rowGet_inherited _ _ M1), (rowGet_inherited _ _ M2). }
  assert (Obj.inheritedText (keyOf cfg r1) = None) as NI.
  { unfold keyOf. destruct H as [(v1 & v2 & O1 & O2 & Ne & E & S1 & S2) | [M1 _]].
    - rewrite (rowGet_own _ _ _ O1).
      destruct v1 as [| | b | f | s | t]; try discriminate S1;
        try (apply inheritedText_ToString; intros ? C; discriminate C).
      rewrite E.
      destruct v2 as [| | b' | f' | s' | t']; try discriminate S2;
        try (apply inheritedText_ToString; intros ? C; discriminate C).
      simpl in E. congruence.
    - rewrite (rowGet_inherited _ _ M1). apply inheritedCell_key. }
  assert (In (keyOf cfg r1) (Obj.keys (pieAggregate cfg D))) as Ik.
  { apply keys_In. split.
    - now apply in_map.
    - now apply inheritedText_None_not_proto. }
  destruct (In_nth_error _ _ Ik) as [i Hi].
  exists {| labels := map VStr (Obj.keys (pieAggregate cfg D));
            datasets :=
              [PieDataset (Obj.values (pieAggregate cfg D)) piePalette] |}, i,
    (keyOf cfg r1).
  split; [now apply aggregate_pie |]. unfold chartValues. simpl.
  split; [reflexivity |]. split; [exact K |].
  split; [intros v O; unfold keyOf; now rewrite (rowGet_own _ _ _ O) |].
  split.
  { intros M I. unfold keyOf. now rewrite (rowGet_missing _ _ M I). }
  split; [now apply nth_error_map_VStr |]. split; [| split].
  - intros j Hj. apply nth_error_map_VStr in Hj.
    pose proof (keys_NoDup cfg D) as ND.
    apply (proj1 (NoDup_nth_error _) ND).
    + apply nth_error_Some. congruence.
    + congruence.
  - now apply pie_value_at.
  - intro R.
    assert (nth_error (Obj.values (pieAggregate cfg D)) i
            = Some (VNum (valueOf cfg r1 + valueOf cfg r2))) as V.
    { rewrite (pie_value_at D cfg i _ Hi NI), R. simpl map.
      now rewrite runningTotal_two. }
    split; [exact V |].
    intros c1 c2 a b O1 O2 Ha Hb. rewrite V. do 2 f_equal.
    unfold valueOf. rewrite (rowGet_own _ _ _ O1), (rowGet_own _ _ _ O2).
    rewrite (numberOrZero_integer c1 a Ha), (numberOrZero_integer c2 b Hb).
    destruct Ha as [Ba _], Hb as [Bb _].
    apply ofZ_add; unfold safeInt; change (2 ^ 53) with (2 * 2 ^ 52); lia.
Qed.

Lemma pie_merges_equal_text_witness :
  exists cd i,
    aggregate (Some {| data := mixedRows |}) (request "pie") = Some cd
    /\ keyOf (request "pie") (regionSales (VNum 1) (VStr "10")) = "1"
    /\ keyOf (request "pie") (regionSales (VStr "1") (VStr "20")) = "1"
    /\ nth_error (labels cd) i = Some (VStr "1")
    /\ (forall j, nth_error (labels cd) j = Some (VStr "1") -> j = i)
    /\ nth_error (chartValues cd) i = Some (VNum 30).
Proof.
  destruct (pie_merges_equal_text mixedRows (request "pie")
              (regionSales (VNum 1) (VStr "10"))
              (regionSales (VStr "1") (VStr "20")))
    as (cd & i & k & A & K1 & K2 & _ & _ & L & U & _ & S).
  - reflexivity.
  - discriminate.
  - discriminate.
  - simpl. auto.
  - simpl. auto.
  - left. exists (VNum 1), (VStr "1").
    repeat split; try reflexivity; try discriminate; simpl; auto;
      repeat constructor; simpl; intuition discriminate.
  - assert (k = "1") as -> by (rewrite <- K1; reflexivity).
    exists cd, i. split; [exact A |]. split; [reflexivity |].
    split; [reflexivity |]. split; [exact L |]. split; [exact U |].
    destruct S as [_ S]; [reflexivity |].
    rewrite (S (VStr "10") (VStr "20") 10 20).
    + reflexivity.
    + split; [| simpl; auto]. repeat constructor; simpl; intuition discriminate.
    + split; [| simpl; auto]. repeat constructor; simpl; intuition discriminate.
    + split; [reflexivity | right; reflexivity].
    + split; [reflexivity | right; reflexivity].
Defined.

(** C10 as stated fails: rows without the x-axis column [constructor] are
    not grouped under the key [undefined]; they are grouped under the text
    of the function every object inherits under that name. *)
Lemma missing_column_inherits :
  hasColumn [("sales", VStr "10")] "constructor" = false
  /\ hasColumn [("sales", VStr "20")] "constructor" = false
  /\ aggregate (Some {| data := sparseRows |}) (constructorRequest "pie")
     = Some {| labels := [VStr "x"; VStr "function Object() { [native code] }"];
               datasets := [PieDataset [VNum 1; VNum 30] piePalette] |}
  /\ keyOf (constructorRequest "pie") [("sales", VStr "10")]
     = "function Object() { [native code] }"
  /\ keyOf (constructorRequest "pie") [("sales", VStr "10")] <> "undefined".
Proof.
  repeat split; try (vm_compute; reflexivity). discriminate.
Qed.

(** * Further properties

    ** More on the series of [generateChartData] *)

Lemma aggregate_Some_axes (D : Dataset) (cfg : ChartConfig) (cd : ChartData) :
  aggregate (Some {| data := D |}) cfg = Some cd ->
  xAxis cfg <> "" /\ yAxis cfg <> "".
Proof.
  unfold aggregate.
  destruct (String.eqb_spec (xAxis cfg) ""), (String.eqb_spec (yAxis cfg) "");
    simpl; intro H; try discriminate H. split; assumption.
Qed.

Lemma aggregate_pie_inv (D : Dataset) (cfg : ChartConfig) (cd : ChartData) :
  type cfg = "pie" ->
  aggregate (Some {| data := D |}) cfg = Some cd ->
  cd = {| labels := map VStr (Obj.keys (pieAggregate cfg D));
          datasets :=
            [PieDataset (Obj.values (pieAggregate cfg D)) piePalette] |}.
Proof.
  intros T H. destruct (aggregate_Some_axes D cfg cd H) as [Hx Hy].
  rewrite (aggregate_pie D cfg T Hx Hy) in H. congruence.
Qed.

Lemma aggregate_xy_inv (D : Dataset) (cfg : ChartConfig) (cd : ChartData) :
  type cfg <> "pie" ->
  aggregate (Some {| data := D |}) cfg = Some cd ->
  labels cd = map (fun row => rowGet row (xAxis cfg)) D
  /\ chartValues cd = map VNum (map (valueOf cfg) D).
Proof.
  intros T H. destruct (aggregate_Some_axes D cfg cd H) as [Hx Hy].
  rewrite (aggregate_xy D cfg T Hx Hy) in H. injection H as <-. auto.
Qed.

(** X1.  A bar, line or scatter series holds a number for every row, and
    none of them is NaN or the negative zero: a cell that does not read as
    a number, and one that reads as a zero of either sign, is plotted as
    the number 0. *)
Theorem xy_values_never_nan (D : Dataset) (cfg : ChartConfig) (cd : ChartData)
  (v : value) :
  type cfg <> "pie" ->
  aggregate (Some {| data := D |}) cfg = Some cd ->
  In v (chartValues cd) ->
  exists x, v = VNum x /\ PrimFloat.is_nan x = false
            /\ Prim2SF x <> S754_zero true.
Proof.
  intros T H I. destruct (aggregate_xy_inv D cfg cd T H) as [_ V].
  rewrite V, map_map in I. apply in_map_iff in I.
  destruct I as (row & <- & _). exists (valueOf cfg row).
  split; [reflexivity |]. split; [| apply numberOrZero_not_neg_zero].
  unfold valueOf. destruct (numberOrZero_cases (rowGet row (yAxis cfg))) as [C | C].
  - unfold truthyNumber in C. rewrite negb_true_iff, orb_false_iff in C. tauto.
  - rewrite C. reflexivity.
Qed.

Lemma xy_values_never_nan_witness :
  exists x, VNum 0 = VNum x /\ PrimFloat.is_nan x = false
            /\ Prim2SF x <> S754_zero true.
Proof.
  eapply (xy_values_never_nan patchyRows (request "line")).
  - discriminate.
  - reflexivity.
  - vm_compute. right. left. reflexivity.
Defined.

(** X2.  A pie chart has at most one slice per row, as many values as
    labels, no label twice, and no slice at all exactly when every row has
    the category [__proto__] (or there is no row). *)
Theorem pie_slices_bounded (D : Dataset) (cfg : ChartConfig) (cd : ChartData) :
  type cfg = "pie" ->
  aggregate (Some {| data := D |}) cfg = Some cd ->
  (List.length (labels cd) <= List.length D)%nat
  /\ List.length (chartValues cd) = List.length (labels cd)
  /\ NoDup (labels cd)
  /\ (labels cd = [] <-> forall row, In row D -> keyOf cfg row = "__proto__").
Proof.
  intros T H. rewrite (aggregate_pie_inv D cfg cd T H). simpl.
  unfold chartValues. simpl.
  pose proof (keys_NoDup cfg D) as ND.
  repeat split.
  - rewrite length_map, <- (length_map (keyOf cfg) D).
    apply NoDup_incl_length; [exact ND |].
    intros k Hk. now apply keys_In in Hk.
  - unfold Obj.values, Obj.keys. now rewrite !length_map.
  - apply Finite.Injective_map_NoDup; [| exact ND].
    intros a b E. now injection E.
  - intros E row Hr.
    destruct (string_dec (keyOf cfg row) "__proto__") as [P | P]; [exact P |].
    assert (In (keyOf cfg row) (Obj.keys (pieAggregate cfg D))) as I
      by (apply keys_In; split; [now apply in_map | exact P]).
    destruct (Obj.keys (pieAggregate cfg D)); [destruct I | discriminate E].
  - intro A. destruct (Obj.keys (pieAggregate cfg D)) as [| k ks] eqn:E;
      [reflexivity |].
    assert (In k (Obj.keys (pieAggregate cfg D))) as I by (rewrite E; now left).
    apply keys_In in I. destruct I as [I P]. apply in_map_iff in I.
    destruct I as (row & <- & Hr). elim P. now apply A.
Qed.

Lemma pie_slices_bounded_witness :
  exists cd,
    aggregate (Some {| data := sampleRows |}) (request "pie") = Some cd
    /\ (List.length (labels cd) <= List.length sampleRows)%nat
    /\ List.length (chartValues cd) = List.length (labels cd)
    /\ NoDup (labels cd)
    /\ (labels cd = []
        <-> forall row, In row sampleRows
                        -> keyOf (request "pie") row = "__proto__").
Proof.
  eexists. split; [reflexivity |].
  apply (pie_slices_bounded sampleRows (request "pie")); reflexivity.
Defined.

(** *** The order of the rows *)

Lemma sumOver_perm {A : Type} (h : A -> Z) (l l' : list A) :
  Permutation l l' -> sumOver h l = sumOver h l'.
Proof. induction 1; simpl; lia. Qed.

Lemma filter_perm {A : Type} (f : A -> bool) (l l' : list A) :
  Permutation l l' -> Permutation (filter f l) (filter f l').
Proof.
  induction 1 as [| x l l' P IH | x y l | l l' l'' P IH P' IH']; simpl.
  - constructor.
  - destruct (f x); [now constructor | exact IH].
  - destruct (f x), (f y); try reflexivity. constructor.
  - now transitivity (filter f l').
Qed.

Lemma pie_labels_perm (D D' : Dataset) (cfg : ChartConfig) :
  Permutation D D' ->
  Permutation (Obj.keys (pieAggregate cfg D)) (Obj.keys (pieAggregate cfg D')).
Proof.
  intro P. apply NoDup_Permutation; try apply keys_NoDup.
  intro k. rewrite !keys_In.
  assert (In k (map (keyOf cfg) D) <-> In k (map (keyOf cfg) D')) as E.
  { split; apply Permutation_in; [| symmetry]; now apply Permutation_map. }
  tauto.
Qed.

(** X3.  Rows in another order give a pie chart with the same labels,
    possibly in another order; and where the values are integers whose
    magnitudes add up to less than 2^53, and no category is the name of a
    property of [Object.prototype], every label keeps its value. *)
Theorem pie_ignores_row_order (D D' : Dataset) (cfg : ChartConfig)
  (cd cd' : ChartData) :
  Permutation D D' ->
  type cfg = "pie" ->
  aggregate (Some {| data := D |}) cfg = Some cd ->
  aggregate (Some {| data := D' |}) cfg = Some cd' ->
  Permutation (labels cd) (labels cd')
  /\ ((forall row, In row D -> Obj.inheritedText (keyOf cfg row) = None) ->
      (forall row, In row D -> isSafeInteger (valueOf cfg row)) ->
      sumOver (fun row => Z.abs (toZ (valueOf cfg row))) D < 2 ^ 53 ->
      forall i j k,
        nth_error (labels cd) i = Some (VStr k) ->
        nth_error (labels cd') j = Some (VStr k) ->
        nth_error (chartValues cd') j = nth_error (chartValues cd) i).
Proof.
  intros P T H H'.
  rewrite (aggregate_pie_inv D cfg cd T H), (aggregate_pie_inv D' cfg cd' T H').
  simpl. unfold chartValues. simpl. split.
  - apply Permutation_map, pie_labels_perm, P.
  - intros NI Int B i j k Hi Hj.
    apply nth_error_map_VStr in Hi, Hj.
    assert (In k (map (keyOf cfg) D)) as Ik.
    { apply nth_error_In in Hi. now apply keys_In in Hi. }
    assert (Obj.inheritedText k = None) as I.
    { apply in_map_iff in Ik. destruct Ik as (row & <- & Hr). now apply NI. }
    rewrite (pie_value_at D cfg i k Hi I), (pie_value_at D' cfg j k Hj I).
    do 2 f_equal.
    set (w := fun row => toZ (valueOf cfg row)).
    assert (forall row, In row D -> valueOf cfg row = ofZ (w row)) as V
      by (intros row Hr; symmetry; apply (Int row Hr)).
    assert (Permutation (rowsOf cfg k D) (rowsOf cfg k D')) as Pk
      by (apply filter_perm, P).
    rewrite (runningTotal_int cfg w (rowsOf cfg k D)),
            (runningTotal_int cfg w (rowsOf cfg k D')).
    + f_equal. symmetry. now apply sumOver_perm.
    + intros row Hr. apply V. apply (Permutation_in _ (Permutation_sym P)).
      unfold rowsOf in Hr. now apply filter_In in Hr.
    + eapply Z.le_lt_trans; [apply sumOver_filter_le |].
      now rewrite <- (sumOver_perm _ D D' P).
    + intros row Hr. apply V. unfold rowsOf in Hr. now apply filter_In in Hr.
    + eapply Z.le_lt_trans; [apply sumOver_filter_le | exact B].
Qed.

Lemma pie_ignores_row_order_witness :
  exists cd cd',
    aggregate (Some {| data := sampleRows |}) (request "pie") = Some cd
    /\ aggregate
         (Some {| data := [ regionSales (VStr "B") (VStr "20");
                            regionSales (VStr "A") (VStr "10");
                            regionSales (VStr "A") (VStr "5") ] |})
         (request "pie") = Some cd'
    /\ Permutation (labels cd) (labels cd')
    /\ nth_error (chartValues cd') 1 = nth_error (chartValues cd) 0.
Proof.
  do 2 eexists. split; [reflexivity |]. split; [reflexivity |].
  destruct (pie_ignores_row_order sampleRows _ (request "pie") _ _
              (perm_swap _ _ _) eq_refl eq_refl eq_refl) as [P V].
  split; [exact P |]. apply (V) with (k := "A").
  - intros row [<- | [<- | [<- | []]]]; reflexivity.
  - intros row [<- | [<- | [<- | []]]]; vm_compute; reflexivity.
  - vm_compute. reflexivity.
  - reflexivity.
  - reflexivity.
Defined.

(** *** Categories that are all different *)

Lemma filter_all {A : Type} (f : A -> bool) (l : list A) :
  (forall x, In x l -> f x = true) -> filter f l = l.
Proof.
  induction l as [| x l IH]; simpl; intro H; [reflexivity |].
  rewrite (H x) by auto. f_equal. apply IH. auto.
Qed.

Lemma filter_none {A : Type} (f : A -> bool) (l : list A) :
  (forall x, In x l -> f x = false) -> filter f l = [].
Proof.
  induction l as [| x l IH]; simpl; intro H; [reflexivity |].
  rewrite (H x) by auto. apply IH. auto.
Qed.

Lemma addToTotal_first (v : float) :
  Prim2SF v <> S754_zero true -> addToTotal 0 v = v.
Proof. intro N. unfold addToTotal. simpl. now apply add_zero_l. Qed.

(** With categories that are all different, each row creates its own
    property, after the ones before it. *)
Lemma pie_fold_distinct (cfg : ChartConfig) (D : Dataset) :
  (forall row, In row D -> Obj.inheritedText (keyOf cfg row) = None) ->
  forall agg,
    NoDup (map fst agg ++ map (keyOf cfg) D) ->
    fold_left (pieStep cfg) D agg
    = agg ++ map (fun row => (keyOf cfg row, VNum (valueOf cfg row))) D.
Proof.
  induction D as [| row D IH]; intros NI agg ND; simpl.
  - now rewrite app_nil_r.
  - assert (Obj.lookup (keyOf cfg row) agg = None) as L.
    { apply lookup_None_iff. intro I. simpl in ND.
      apply NoDup_remove_2 in ND. apply ND. apply in_or_app. now left. }
    assert (Obj.inheritedText (keyOf cfg row) = None) as I
      by (apply NI; now left).
    assert (pieStep cfg agg row
            = agg ++ [(keyOf cfg row, VNum (valueOf cfg row))]) as S.
    { unfold pieStep. fold (keyOf cfg row) (valueOf cfg row).
      rewrite (accumulated_absent agg _ _ I L).
      rewrite addToTotal_first by apply numberOrZero_not_neg_zero.
      unfold Obj.set. rewrite L.
      apply inheritedText_None_not_proto, String.eqb_neq in I. now rewrite I. }
    rewrite S, IH.
    + now rewrite <- app_assoc.
    + intros r Hr. apply NI. now right.
    + rewrite map_app, <- app_assoc. exact ND.
Qed.

(** X4.  Where no two rows have the same category text, and no category is
    an array index or the name of a property of [Object.prototype], the pie
    chart is the bar chart of the same columns: the same values in the same
    order, under the labels turned into text. *)
Theorem pie_of_distinct_categories (D : Dataset) (cfg cfg' : ChartConfig)
  (pie xy : ChartData) :
  NoDup (map (keyOf cfg) D) ->
  (forall row, In row D -> Obj.inheritedText (keyOf cfg row) = None) ->
  (forall row, In row D -> Obj.isArrayIndex (keyOf cfg row) = false) ->
  type cfg = "pie" -> type cfg' <> "pie" ->
  xAxis cfg' = xAxis cfg -> yAxis cfg' = yAxis cfg ->
  aggregate (Some {| data := D |}) cfg = Some pie ->
  aggregate (Some {| data := D |}) cfg' = Some xy ->
  labels pie = map (fun l => VStr (ToString l)) (labels xy)
  /\ chartValues pie = chartValues xy.
Proof.
  intros ND NI NX T T' Ex Ey H H'.
  rewrite (aggregate_pie_inv D cfg pie T H).
  destruct (aggregate_xy_inv D cfg' xy T' H') as [-> ->].
  unfold chartValues. simpl.
  assert (pieAggregate cfg D
          = map (fun row => (keyOf cfg row, VNum (valueOf cfg row))) D) as E
    by (apply (pie_fold_distinct cfg D NI []); exact ND).
  assert (Obj.ownEntries (pieAggregate cfg D) = pieAggregate cfg D) as O.
  { unfold Obj.ownEntries. rewrite filter_none, filter_all; [reflexivity | |];
      rewrite E; intros q Hq; apply in_map_iff in Hq;
      destruct Hq as (row & <- & Hr); simpl; rewrite (NX row Hr); reflexivity. }
  unfold Obj.keys, Obj.values. rewrite O, E, !map_map. simpl. split.
  - apply map_ext. intro row. unfold keyOf. now rewrite Ex.
  - apply map_ext. intro row. unfold valueOf. now rewrite Ey.
Qed.

Lemma pie_of_distinct_categories_witness :
  exists pie xy,
    aggregate (Some {| data := twoRegions |}) (request "pie") = Some pie
    /\ aggregate (Some {| data := twoRegions |}) (request "bar") = Some xy
    /\ labels pie = map (fun l => VStr (ToString l)) (labels xy)
    /\ chartValues pie = chartValues xy.
Proof.
  do 2 eexists. split; [reflexivity |]. split; [reflexivity |].
  apply (pie_of_distinct_categories twoRegions (request "pie") (request "bar")).
  - vm_compute. repeat constructor; simpl; intuition discriminate.
  - intros row [<- | [<- | []]]; reflexivity.
  - intros row [<- | [<- | []]]; reflexivity.
  - reflexivity.
  - discriminate.
  - reflexivity.
  - reflexivity.
  - reflexivity.
  - reflexivity.
Defined.

(** ** The columns the page offers *)

Lemma hasColumn_In (row : Row) (c : string) :
  hasColumn row c = true <-> In c (map fst row).
Proof.
  unfold hasColumn. rewrite existsb_exists. split.
  - intros [[k v] [H E]]. simpl in E. apply String.eqb_eq in E. subst.
    change k with (fst (k, v)). now apply in_map.
  - intro H. apply in_map_iff in H. destruct H as ([k v] & <- & H).
    exists (k, v). split; [exact H | apply String.eqb_refl].
Qed.

(** The order of [Object.keys] on any object. *)
Lemma keys_order (o : Obj.object) (k k' : string) :
  In k (Obj.keys o) -> In k' (Obj.keys o) ->
  (Obj.isArrayIndex k = false -> Obj.isArrayIndex k' = false ->
   precedes k k' (Obj.keys o) = precedes k k' (map fst o))
  /\ (Obj.isArrayIndex k = true -> Obj.isArrayIndex k' = true ->
      (precedes k k' (Obj.keys o) = true
       <-> Obj.indexValue k < Obj.indexValue k'))
  /\ (Obj.isArrayIndex k = true -> Obj.isArrayIndex k' = false ->
      precedes k k' (Obj.keys o) = true).
Proof.
  intros Hk Hk'.
  apply (Permutation_in _ (keys_perm _)) in Hk, Hk'.
  destruct (keys_split o) as (sorted & -> & P & S).
  assert (forall x, In x sorted
                    <-> In x (map fst o) /\ Obj.isArrayIndex x = true) as MS.
  { intro x. rewrite <- filter_In. split; apply Permutation_in;
      [exact P | apply Permutation_sym, P]. }
  split; [| split].
  - intros I I'.
    rewrite precedes_app_out;
      [| rewrite MS; intros [_ C]; congruence
       | rewrite MS; intros [_ C]; congruence].
    apply (precedes_filter (fun x => negb (Obj.isArrayIndex x)));
      now apply negb_true_iff.
  - intros I I'.
    assert (In k sorted) as Sk by (apply MS; auto).
    assert (In k' sorted) as Sk' by (apply MS; auto).
    rewrite precedes_app_in by assumption. split.
    + intro Pr. pose proof (precedes_sorted k k' sorted S Pr) as Le.
      destruct (precedes_In _ _ _ Pr) as (_ & _ & Ne). unfold leIndex in Le.
      destruct (Z.eq_dec (Obj.indexValue k) (Obj.indexValue k')) as [E | E];
        [| lia].
      elim Ne. now apply arrayIndex_inj.
    + intro Lt.
      assert (k <> k') as Ne by (intros ->; lia).
      destruct (precedes_total k k' sorted Sk Sk' Ne) as [Pr | Pr];
        [exact Pr |].
      pose proof (precedes_sorted k' k sorted S Pr) as Le. unfold leIndex in Le.
      lia.
  - intros I I'. apply precedes_app_cross.
    + apply MS; auto.
    + rewrite MS. intros [_ C]. congruence.
    + apply filter_In. split; [assumption | now apply negb_true_iff].
Qed.

(** X5.  When [fetchExcelData] receives a record with at least one row, the
    columns the page offers are the column names of the first row, each
    once: those that are array indices first, in ascending numeric order,
    then the others in the order of the row. *)
Theorem fetched_columns (p p' : Analysis.Page) (ts : list Toast) (row : Row)
  (rest : Dataset) :
  NoDup (map fst row) ->
  Analysis.fetchEnd (Analysis.FetchRecord {| data := row :: rest |}) p = (p', ts) ->
  NoDup (columns (Analysis.view p'))
  /\ (forall c, In c (columns (Analysis.view p')) <-> hasColumn row c = true)
  /\ forall c c',
       In c (columns (Analysis.view p')) -> In c' (columns (Analysis.view p')) ->
       (Obj.isArrayIndex c = false -> Obj.isArrayIndex c' = false ->
        precedes c c' (columns (Analysis.view p')) = precedes c c' (map fst row))
       /\ (Obj.isArrayIndex c = true -> Obj.isArrayIndex c' = true ->
           (precedes c c' (columns (Analysis.view p')) = true
            <-> Obj.indexValue c < Obj.indexValue c'))
       /\ (Obj.isArrayIndex c = true -> Obj.isArrayIndex c' = false ->
           precedes c c' (columns (Analysis.view p')) = true).
Proof.
  intros ND E. unfold Analysis.fetchEnd in E. injection E as <- _. simpl.
  split; [| split].
  - eapply Permutation_NoDup; [apply Permutation_sym, keys_perm | exact ND].
  - intro c. rewrite hasColumn_In. split; apply Permutation_in;
      [apply keys_perm | apply Permutation_sym, keys_perm].
  - intros c c'. apply keys_order.
Qed.

Lemma fetched_columns_witness :
  exists p',
    Analysis.fetchEnd
      (Analysis.FetchRecord
         {| data := [ [("region", VStr "A"); ("2024", VNum 10); ("2023", VNum 20)] ] |})
      (Analysis.initialPage (Some "f1")) = (p', [])
    /\ columns (Analysis.view p') = ["2023"; "2024"; "region"]
    /\ NoDup (columns (Analysis.view p')).
Proof.
  eexists. split; [reflexivity |]. split; [reflexivity |].
  eapply (fetched_columns (Analysis.initialPage (Some "f1")));
    [| reflexivity].
  repeat constructor; simpl; intuition discriminate.
Defined.

(** ** The data preview *)

(** X6.  The data preview is rendered exactly when the page is not loading
    and a record is loaded.  It then has the offered columns as its header,
    one line for each of the first ten rows and for no other, and in every
    line one cell per column: what the row reads under that column, which
    is the cell of the row where it has one, and where it has none what it
    inherits from [Object.prototype] under that name, [undefined] when
    there is nothing to inherit. *)
Theorem preview_table_shape (p : Analysis.Page) :
  (Analysis.previewTable p <> None
   <-> Analysis.loading p = false /\ excelData (Analysis.view p) <> None)
  /\ forall header body,
       Analysis.previewTable p = Some (header, body) ->
       exists record,
         excelData (Analysis.view p) = Some record
         /\ header = columns (Analysis.view p)
         /\ List.length body = Nat.min 10 (List.length (data record))
         /\ (forall cells, In cells body ->
               List.length cells = List.length header)
         /\ forall i row, (i < 10)%nat ->
              nth_error (data record) i = Some row ->
              nth_error body i = Some (map (rowGet row) header)
              /\ forall j column, nth_error header j = Some column ->
                   exists cell,
                     nth_error (map (rowGet row) header) j = Some cell
                     /\ (forall v, ownCell row column v -> cell = v)
                     /\ (hasColumn row column = false ->
                         cell = inheritedCell column).
Proof.
  unfold Analysis.previewTable. split.
  - destruct (Analysis.loading p);
      destruct (excelData (Analysis.view p)) as [record |];
      split; try (intros [L E]); try intro H; try discriminate;
        try (now elim H); try (now elim E).
    split; [reflexivity | discriminate].
  - intros header body.
    destruct (Analysis.loading p); [discriminate |].
    destruct (excelData (Analysis.view p)) as [record |]; [| discriminate].
    intro H. exists record.
    assert (header = columns (Analysis.view p)) as -> by congruence.
    assert (body = map (fun row => map (fun column => rowGet row column)
                                       (columns (Analysis.view p)))
                     (firstn 10 (data record))) as -> by congruence.
    clear H. split; [reflexivity |]. split; [reflexivity |]. split; [| split].
    + now rewrite length_map, length_firstn.
    + intros cells H. apply in_map_iff in H. destruct H as (row & <- & _).
      apply length_map.
    + intros i row Hi Hr. split.
      * rewrite nth_error_map, nth_error_firstn.
        apply Nat.ltb_lt in Hi. rewrite Hi, Hr. reflexivity.
      * intros j column Hj. exists (rowGet row column).
        split; [now apply map_nth_error |]. split.
        -- intros v O. now apply rowGet_own.
        -- intro M. now apply rowGet_inherited.
Qed.

Lemma preview_table_shape_witness :
  Analysis.previewTable (Analysis.page chartShown)
  = Some (["region"; "sales"],
          [[VStr "A"; VStr "10"]; [VStr "B"; VStr "20"]; [VStr "A"; VStr "5"]])
  /\ (Analysis.previewTable (Analysis.page chartShown) <> None
      <-> Analysis.loading (Analysis.page chartShown) = false
          /\ excelData (Analysis.view (Analysis.page chartShown)) <> None)
  /\ Analysis.previewTable (Analysis.fetchStart (Analysis.page chartShown))
     = None.
Proof.
  split; [reflexivity |].
  split; [exact (proj1 (preview_table_shape (Analysis.page chartShown))) |].
  destruct (Analysis.previewTable
              (Analysis.fetchStart (Analysis.page chartShown))) eqn:E;
    [| reflexivity].
  assert (Analysis.previewTable
            (Analysis.fetchStart (Analysis.page chartShown)) <> None) as N
    by (rewrite E; discriminate).
  apply (proj1 (preview_table_shape _)) in N. destruct N as [L _].
  discriminate L.
Defined.

(** ** Changing the configuration *)

Lemma getProperty_put_same (f v : string) (l : list (string * string)) :
  Analysis.getProperty (Analysis.putProperty f v l) f = Some v.
Proof.
  induction l as [| [k x] l IH]; simpl.
  - now rewrite String.eqb_refl.
  - destruct (String.eqb k f) eqn:E; simpl; now rewrite E.
Qed.

Lemma getProperty_put_other (f g v : string) (l : list (string * string)) :
  g <> f ->
  Analysis.getProperty (Analysis.putProperty f v l) g = Analysis.getProperty l g.
Proof.
  intro N. induction l as [| [k x] l IH]; simpl.
  - apply not_eq_sym, String.eqb_neq in N. now rewrite N.
  - destruct (String.eqb k f) eqn:E; simpl.
    + apply String.eqb_eq in E. subst k.
      apply not_eq_sym, String.eqb_neq in N. now rewrite N.
    + now rewrite IH.
Qed.

Lemma putProperty_twice (f v u : string) (l : list (string * string)) :
  Analysis.putProperty f u (Analysis.putProperty f v l) = Analysis.putProperty f u l.
Proof.
  induction l as [| [k x] l IH]; simpl.
  - now rewrite String.eqb_refl.
  - destruct (String.eqb k f) eqn:E; simpl; rewrite E; [reflexivity |].
    now rewrite IH.
Qed.

(** Deciding the tests on property names, one after the other. *)
Ltac name_cases :=
  repeat match goal with
         | |- context [String.eqb ?a ?b] =>
             destruct (String.eqb_spec a b); subst; simpl in *; try congruence
         end.

(** X7.  [handleConfigChange] writes one property of the configuration: the
    property reads back as the value written; every other property reads as
    before; a second write to the same property makes the first one
    forgotten; writes to two different properties give the same readings in
    either order; and the record, the columns, the chart, the file id and
    the two flags stay as they were. *)
Theorem config_change_laws (p : Analysis.Page) (f g v u : string) :
  g <> f ->
  Analysis.readConfig (Analysis.handleConfigChange f v p) f = Some v
  /\ Analysis.readConfig (Analysis.handleConfigChange f v p) g
     = Analysis.readConfig p g
  /\ Analysis.handleConfigChange f u (Analysis.handleConfigChange f v p)
     = Analysis.handleConfigChange f u p
  /\ (forall h,
        Analysis.readConfig
          (Analysis.handleConfigChange f v (Analysis.handleConfigChange g u p)) h
        = Analysis.readConfig
            (Analysis.handleConfigChange g u (Analysis.handleConfigChange f v p)) h)
  /\ excelData (Analysis.view (Analysis.handleConfigChange f v p))
     = excelData (Analysis.view p)
  /\ columns (Analysis.view (Analysis.handleConfigChange f v p))
     = columns (Analysis.view p)
  /\ chartData (Analysis.view (Analysis.handleConfigChange f v p))
     = chartData (Analysis.view p)
  /\ Analysis.fileId (Analysis.handleConfigChange f v p) = Analysis.fileId p
  /\ Analysis.loading (Analysis.handleConfigChange f v p) = Analysis.loading p
  /\ Analysis.saving (Analysis.handleConfigChange f v p) = Analysis.saving p.
Proof.
  intro N. destruct p as [[e c [ty ti x y] cd] o i l s].
  unfold Analysis.handleConfigChange, Analysis.readConfig. simpl.
  repeat split.
  - name_cases; try reflexivity. apply getProperty_put_same.
  - name_cases; try reflexivity. now apply getProperty_put_other.
  - name_cases; try reflexivity. now rewrite putProperty_twice.
  - intro h. name_cases; try reflexivity.
    destruct (string_dec h f) as [-> | Nf].
    + rewrite getProperty_put_same, getProperty_put_other by congruence.
      now rewrite getProperty_put_same.
    + rewrite (getProperty_put_other f h) by assumption.
      destruct (string_dec h g) as [-> | Ng].
      * now rewrite !getProperty_put_same.
      * now rewrite !getProperty_put_other by assumption.
  - name_cases; reflexivity.
  - name_cases; reflexivity.
  - name_cases; reflexivity.
  - name_cases; reflexivity.
  - name_cases; reflexivity.
  - name_cases; reflexivity.
Qed.

Lemma config_change_laws_witness :
  Analysis.readConfig
    (Analysis.handleConfigChange "xAxis" "region" (Analysis.initialPage None))
    "xAxis" = Some "region"
  /\ Analysis.readConfig
       (Analysis.handleConfigChange "xAxis" "region" (Analysis.initialPage None))
       "type" = Some "bar".
Proof.
  destruct (config_change_laws (Analysis.initialPage None)
              "xAxis" "type" "region" "pie") as (A & B & _).
  - discriminate.
  - split; [exact A | exact B].
Defined.

Lemma aggregate_same_axes (e : option ExcelRecord) (cfg cfg' : ChartConfig) :
  type cfg' = type cfg -> xAxis cfg' = xAxis cfg -> yAxis cfg' = yAxis cfg ->
  aggregate e cfg' = aggregate e cfg.
Proof.
  destruct cfg as [ty ti x y], cfg' as [ty' ti' x' y']. simpl.
  intros -> -> ->. reflexivity.
Qed.

(** X8.  The title, and any property other than [type], [xAxis] and
    [yAxis], plays no part in the series: changing it and generating the
    chart can be done in either order. *)
Theorem generate_ignores_title (p : Analysis.Page) (f v : string) :
  f <> "type" -> f <> "xAxis" -> f <> "yAxis" ->
  Analysis.clickGenerate (Analysis.handleConfigChange f v p)
  = Analysis.handleConfigChange f v (Analysis.clickGenerate p).
Proof.
  intros Nt Nx Ny. destruct p as [[e c [ty ti x y] cd] o i l s].
  unfold Analysis.clickGenerate, Analysis.handleConfigChange, generateChartData.
  simpl. name_cases.
  - rewrite (aggregate_same_axes e
               {| type := ty; title := v; xAxis := x; yAxis := y |}
               {| type := ty; title := ti; xAxis := x; yAxis := y |})
      by reflexivity.
    destruct (aggregate e _); reflexivity.
  - destruct (aggregate e _); reflexivity.
Qed.

Lemma generate_ignores_title_witness :
  Analysis.clickGenerate
    (Analysis.handleConfigChange "title" "Sales"
       {| Analysis.view := samplePage "pie" None; Analysis.otherConfig := [];
          Analysis.fileId := Some "f1"; Analysis.loading := false;
          Analysis.saving := false |})
  = Analysis.handleConfigChange "title" "Sales"
      (Analysis.clickGenerate
         {| Analysis.view := samplePage "pie" None; Analysis.otherConfig := [];
            Analysis.fileId := Some "f1"; Analysis.loading := false;
            Analysis.saving := false |}).
Proof.
  apply generate_ignores_title; discriminate.
Defined.

(** ** Saving the chart *)

(** X9.  On a page that is not saving, [handleSaveChart] either refuses
    with one error toast and leaves the page as it is, which it does exactly
    when there is no chart or the title is empty; or it sends one request
    that carries the chart on the page, the title, the type, the
    configuration and the file id, disables the save button while the
    request is in flight, and leaves the page as it was before the click
    once the request has settled, whatever its outcome. *)
Theorem save_round_trip (p : Analysis.Page) (ok : bool) :
  Analysis.saving p = false ->
  match Analysis.saveStart p with
  | (p1, Analysis.Sends (Analysis.SaveChart q)) =>
      chartData (Analysis.view p) = Some (Analysis.payloadData q)
      /\ Analysis.payloadTitle q = title (chartConfig (Analysis.view p))
      /\ Analysis.payloadTitle q <> ""
      /\ Analysis.payloadType q = type (chartConfig (Analysis.view p))
      /\ Analysis.payloadConfig q
         = (chartConfig (Analysis.view p), Analysis.otherConfig p)
      /\ Analysis.excelRecordId q = Analysis.fileId p
      /\ Analysis.saveDisabled p1 = true
      /\ fst (Analysis.saveEnd ok p1) = p
      /\ snd (Analysis.saveEnd ok p1)
         = Analysis.Shows (if ok then ToastSuccess "Chart saved successfully!"
                           else ToastError "Failed to save chart")
  | (p1, Analysis.Sends (Analysis.GetExcelData _)) => False
  | (p1, Analysis.Shows t) =>
      p1 = p
      /\ t = ToastError "Please configure the chart and add a title"
      /\ (chartData (Analysis.view p) = None
          \/ title (chartConfig (Analysis.view p)) = "")
  end.
Proof.
  intro S. destruct p as [[e c [ty ti x y] cd] o i l s]. simpl in S. subst s.
  unfold Analysis.saveStart. simpl. destruct cd as [cd |].
  - destruct (String.eqb_spec ti "") as [-> | N]; simpl.
    + auto.
    + repeat split; try reflexivity. exact N.
  - auto.
Qed.

Lemma save_round_trip_witness :
  match
    Analysis.saveStart
      {| Analysis.view :=
           generateChartData
             {| excelData := Some {| data := sampleRows |};
                columns := ["region"; "sales"];
                chartConfig := {| type := "bar"; title := "Sales";
                                  xAxis := "region"; yAxis := "sales" |};
                chartData := None |};
         Analysis.otherConfig := []; Analysis.fileId := Some "f1";
         Analysis.loading := false; Analysis.saving := false |}
  with
  | (_, Analysis.Sends (Analysis.SaveChart q)) =>
      Analysis.payloadTitle q = "Sales"
      /\ Analysis.excelRecordId q = Some "f1"
  | _ => False
  end.
Proof.
  pose proof (save_round_trip
                {| Analysis.view :=
                     generateChartData
                       {| excelData := Some {| data := sampleRows |};
                          columns := ["region"; "sales"];
                          chartConfig := {| type := "bar"; title := "Sales";
                                            xAxis := "region"; yAxis := "sales" |};
                          chartData := None |};
                   Analysis.otherConfig := []; Analysis.fileId := Some "f1";
                   Analysis.loading := false; Analysis.saving := false |}
                true eq_refl) as H.
  vm_compute in H. vm_compute. tauto.
Defined.

(** ** The page over time *)

Lemma takeOut_split {A : Type} (f : A -> bool) (l r : list A) :
  Analysis.takeOut f l = Some r ->
  exists x l1 l2, l = l1 ++ x :: l2 /\ r = l1 ++ l2 /\ f x = true.
Proof.
  revert r. induction l as [| a l IH]; simpl; intros r H; [discriminate H |].
  destruct (f a) eqn:E.
  - injection H as <-. now exists a, [], l.
  - destruct (Analysis.takeOut f l) as [r' |]; [| discriminate H].
    injection H as <-. destruct (IH r' eq_refl) as (x & l1 & l2 & -> & -> & F).
    now exists x, (a :: l1), l2.
Qed.

(** A property of the page that holds at the start, and that every event
    of a kind [allowed] keeps, holds after every run of such events. *)
Lemma analysis_run_invariant (I : Analysis.World -> Prop)
  (allowed : Analysis.Event -> bool) :
  (forall w e w', allowed e = true -> I w -> Analysis.step w e = Some w' -> I w') ->
  forall es w w',
    forallb allowed es = true -> I w -> Analysis.run es w = Some w' -> I w'.
Proof.
  intros Step es. induction es as [| e es IH]; simpl; intros w w' A Hw R.
  - now injection R as <-.
  - apply andb_true_iff in A. destruct A as [Ae A].
    destruct (Analysis.step w e) as [w1 |] eqn:S; [| discriminate R].
    apply (IH w1 w' A); [| exact R]. now apply (Step w e).
Qed.

Lemma forallb_always {A : Type} (l : list A) :
  forallb (fun _ => true) l = true.
Proof. induction l; simpl; auto. Qed.

Lemma fetchEnd_keeps (o : Analysis.FetchOutcome) (p : Analysis.Page) :
  Analysis.saving (fst (Analysis.fetchEnd o p)) = Analysis.saving p
  /\ Analysis.loading (fst (Analysis.fetchEnd o p)) = false
  /\ chartData (Analysis.view (fst (Analysis.fetchEnd o p)))
     = chartData (Analysis.view p)
  /\ chartConfig (Analysis.view (fst (Analysis.fetchEnd o p)))
     = chartConfig (Analysis.view p).
Proof. destruct o; repeat split. Qed.

Lemma generateChartData_keeps (st : PageState) :
  excelData (generateChartData st) = excelData st
  /\ columns (generateChartData st) = columns st
  /\ chartConfig (generateChartData st) = chartConfig st
  /\ (chartData st <> None -> chartData (generateChartData st) <> None).
Proof.
  unfold generateChartData.
  destruct (aggregate (excelData st) (chartConfig st)); simpl; repeat split; auto.
  discriminate.
Qed.

Lemma handleConfigChange_keeps (f v : string) (p : Analysis.Page) :
  excelData (Analysis.view (Analysis.handleConfigChange f v p))
  = excelData (Analysis.view p)
  /\ columns (Analysis.view (Analysis.handleConfigChange f v p))
     = columns (Analysis.view p)
  /\ chartData (Analysis.view (Analysis.handleConfigChange f v p))
     = chartData (Analysis.view p)
  /\ Analysis.fileId (Analysis.handleConfigChange f v p) = Analysis.fileId p
  /\ Analysis.loading (Analysis.handleConfigChange f v p) = Analysis.loading p
  /\ Analysis.saving (Analysis.handleConfigChange f v p) = Analysis.saving p.
Proof.
  unfold Analysis.handleConfigChange. name_cases; repeat split.
Qed.

Lemma saveStart_cases (p : Analysis.Page) :
  (exists t, Analysis.saveStart p = (p, Analysis.Shows t))
  \/ (exists q, Analysis.saveStart p
                = (Analysis.withSaving p true, Analysis.Sends (Analysis.SaveChart q))).
Proof.
  unfold Analysis.saveStart. destruct (chartData (Analysis.view p)).
  - destruct (String.eqb _ _); eauto.
  - eauto.
Qed.

Lemma runEffect_cases (w : Analysis.World) :
  Analysis.runEffect w = w
  \/ exists id,
       Analysis.runEffect w
       = {| Analysis.page := Analysis.fetchStart (Analysis.page w);
            Analysis.pending := Analysis.pending w ++ [Analysis.GetExcelData id];
            Analysis.toasts := Analysis.toasts w;
            Analysis.sent := Analysis.GetExcelData id :: Analysis.sent w |}.
Proof.
  unfold Analysis.runEffect. destruct (Analysis.fileId (Analysis.page w)); auto.
  destruct (String.eqb s ""); eauto.
Qed.

Lemma isGet_not_isSave (id : string) (r : Analysis.Request) :
  Analysis.isGet id r = true -> Analysis.isSave r = false.
Proof. destruct r; [reflexivity | discriminate]. Qed.

Lemma flags_step (w : Analysis.World) (e : Analysis.Event) (w' : Analysis.World) :
  flagsFollowRequests w -> Analysis.step w e = Some w' -> flagsFollowRequests w'.
Proof.
  unfold flagsFollowRequests. intros [C L] S. destruct e as [id | id o | f v | | | ok]; simpl in S.
  - (* Visit *)
    destruct (Analysis.sameId id _); [injection S as <-; auto |].
    injection S as <-.
    destruct (runEffect_cases
                (Analysis.withPage w (Analysis.withFileId (Analysis.page w) id)))
      as [-> | [i ->]]; simpl; [auto |].
    rewrite filter_app, existsb_app. simpl. rewrite app_nil_r.
    split; [exact C | intros _; apply orb_true_r].
  - (* FetchDone *)
    destruct (Analysis.takeOut _ _) as [rest |] eqn:T; [| discriminate S].
    injection S as <-. simpl.
    destruct (fetchEnd_keeps o (Analysis.page w)) as (-> & -> & _).
    destruct (takeOut_split _ _ _ T) as (x & l1 & l2 & E & -> & F).
    apply isGet_not_isSave in F. rewrite E in C.
    rewrite filter_app in *. simpl in C. rewrite F in C.
    split; [exact C | discriminate].
  - (* Change *)
    destruct (Analysis.loading (Analysis.page w)) eqn:Ld; [discriminate S |].
    injection S as <-. simpl.
    destruct (handleConfigChange_keeps f v (Analysis.page w))
      as (_ & _ & _ & _ & -> & ->).
    split; [exact C | congruence].
  - (* Generate *)
    destruct (Analysis.loading (Analysis.page w)) eqn:Ld; [discriminate S |].
    injection S as <-. simpl. split; [exact C | congruence].
  - (* SaveClick *)
    destruct (Analysis.loading (Analysis.page w)) eqn:Ld; [discriminate S |].
    simpl in S.
    destruct (Analysis.saveDisabled (Analysis.page w)) eqn:Dis; [discriminate S |].
    injection S as <-. unfold Analysis.saveDisabled in Dis.
    apply orb_false_iff in Dis. destruct Dis as [Sv _]. rewrite Sv in C.
    destruct (saveStart_cases (Analysis.page w)) as [[t ->] | [q ->]];
      unfold Analysis.applyEffect; simpl.
    + rewrite Sv. split; [exact C | congruence].
    + rewrite filter_app, length_app, C. simpl. split; [reflexivity | congruence].
  - (* SaveDone *)
    destruct (Analysis.takeOut _ _) as [rest |] eqn:T; [| discriminate S].
    injection S as <-. unfold Analysis.applyEffect. simpl.
    destruct (takeOut_split _ _ _ T) as (x & l1 & l2 & E & -> & F).
    rewrite E in C, L. rewrite filter_app in *. simpl in C. rewrite F in C.
    rewrite length_app in *. simpl in C. split.
    + destruct (Analysis.saving (Analysis.page w)); lia.
    + intro Ld. specialize (L Ld). rewrite existsb_app in *. simpl in L.
      rewrite F in L. exact L.
Qed.

Lemma flags_mount (id : option string) : flagsFollowRequests (Analysis.mount id).
Proof.
  unfold flagsFollowRequests, Analysis.mount.
  destruct (runEffect_cases
              {| Analysis.page := Analysis.initialPage id; Analysis.pending := [];
                 Analysis.toasts := []; Analysis.sent := [] |})
    as [-> | [i ->]]; simpl; split; auto; discriminate.
Qed.

(** X10.  At every moment after the page has mounted, whatever the user
    and the server have done: the page is [saving] exactly while one save
    request is in flight, and never is more than one; and while the page is
    [loading], a request for the record is in flight. *)
Theorem flags_follow_requests (id : option string) (es : list Analysis.Event)
  (w : Analysis.World) :
  Analysis.run es (Analysis.mount id) = Some w ->
  List.length (filter Analysis.isSave (Analysis.pending w))
  = (if Analysis.saving (Analysis.page w) then 1 else 0)%nat
  /\ (Analysis.loading (Analysis.page w) = true ->
      existsb (fun r => negb (Analysis.isSave r)) (Analysis.pending w) = true).
Proof.
  intro R.
  apply (analysis_run_invariant flagsFollowRequests (fun _ => true)
           (fun w e w' _ => flags_step w e w') es (Analysis.mount id) w
           (forallb_always es) (flags_mount id) R).
Qed.

Lemma flags_follow_requests_witness :
  exists w,
    Analysis.run
      saveSession
      (Analysis.mount (Some "f1")) = Some w
    /\ List.length (filter Analysis.isSave (Analysis.pending w))
       = (if Analysis.saving (Analysis.page w) then 1 else 0)%nat
    /\ Analysis.saving (Analysis.page w) = true.
Proof.
  eexists. split; [lazy; reflexivity |]. split; [| reflexivity].
  apply (flags_follow_requests (Some "f1") saveSession). lazy. reflexivity.
Defined.



(** X12.  No event takes a chart away: once the page shows a chart, it
    shows one after every further run of events, the loading of another
    record and a failed save included. *)
Theorem chart_stays (es : list Analysis.Event) (w w' : Analysis.World) :
  Analysis.run es w = Some w' ->
  chartData (Analysis.view (Analysis.page w)) <> None ->
  chartData (Analysis.view (Analysis.page w')) <> None
  /\ Analysis.renderChart (Analysis.page w') <> None.
Proof.
  intros R H.
  assert (chartData (Analysis.view (Analysis.page w')) <> None) as H'.
  { apply (analysis_run_invariant
             (fun w => chartData (Analysis.view (Analysis.page w)) <> None)
             (fun _ => true)) with (es := es) (w := w);
      [| apply forallb_always | exact H | exact R].
    clear. intros w e w' _ I S.
    destruct e as [id | id o | f v | | | ok]; simpl in S.
    - destruct (Analysis.sameId id _); [injection S as <-; exact I |].
      injection S as <-.
      destruct (runEffect_cases
                  (Analysis.withPage w (Analysis.withFileId (Analysis.page w) id)))
        as [-> | [i ->]]; exact I.
    - destruct (Analysis.takeOut _ _) as [pend |]; [| discriminate S].
      injection S as <-. simpl.
      destruct (fetchEnd_keeps o (Analysis.page w)) as (_ & _ & -> & _). exact I.
    - destruct (Analysis.loading _); [discriminate S |]. injection S as <-.
      simpl.
      destruct (handleConfigChange_keeps f v (Analysis.page w))
        as (_ & _ & -> & _). exact I.
    - destruct (Analysis.loading _); [discriminate S |]. injection S as <-.
      simpl. now apply generateChartData_keeps.
    - destruct (_ || _); [discriminate S |]. injection S as <-.
      destruct (saveStart_cases (Analysis.page w)) as [[t ->] | [q ->]];
        exact I.
    - destruct (Analysis.takeOut _ _) as [pend |]; [| discriminate S].
      injection S as <-. exact I. }
  split; [exact H' |]. unfold Analysis.renderChart.
  destruct (chartData (Analysis.view (Analysis.page w'))); [discriminate | tauto].
Qed.

Lemma chart_stays_witness :
  exists w',
    Analysis.run lostRecord chartShown = Some w'
    /\ excelData (Analysis.view (Analysis.page w')) = None
    /\ chartData (Analysis.view (Analysis.page w')) <> None
    /\ Analysis.renderChart (Analysis.page w') <> None.
Proof.
  eexists. split; [lazy; reflexivity |]. split; [reflexivity |].
  apply (chart_stays lostRecord chartShown); [lazy; reflexivity | discriminate].
Defined.

(** X13.  A page that was opened without a file id, or with an empty one,
    and whose address has not since named a file, never loads a record,
    never sends a request and never gets a chart, whatever is selected and
    however often the chart is generated: the preview and the chart stay
    absent and the save button stays disabled. *)
Theorem no_file_no_chart (id : option string) (es : list Analysis.Event)
  (w : Analysis.World) :
  Analysis.namesFile id = false ->
  forallb (fun e => negb (Analysis.isVisitOfFile e)) es = true ->
  Analysis.run es (Analysis.mount id) = Some w ->
  excelData (Analysis.view (Analysis.page w)) = None
  /\ chartData (Analysis.view (Analysis.page w)) = None
  /\ Analysis.sent w = []
  /\ Analysis.previewTable (Analysis.page w) = None
  /\ Analysis.renderChart (Analysis.page w) = None
  /\ Analysis.saveDisabled (Analysis.page w) = true.
Proof.
  intros N A R.
  assert (excelData (Analysis.view (Analysis.page w)) = None
          /\ chartData (Analysis.view (Analysis.page w)) = None
          /\ Analysis.sent w = [] /\ Analysis.pending w = []
          /\ Analysis.namesFile (Analysis.fileId (Analysis.page w)) = false)
    as (E & C & S & _ & _).
  { apply (analysis_run_invariant
             (fun w => excelData (Analysis.view (Analysis.page w)) = None
                       /\ chartData (Analysis.view (Analysis.page w)) = None
                       /\ Analysis.sent w = [] /\ Analysis.pending w = []
                       /\ Analysis.namesFile (Analysis.fileId (Analysis.page w))
                          = false)
             (fun e => negb (Analysis.isVisitOfFile e)))
      with (es := es) (w := Analysis.mount id); [| exact A | | exact R].
    - clear. intros w e w' Al (E & C & S & P & F) St.
      destruct e as [id | id o | f v | | | ok]; simpl in St, Al.
      + destruct (Analysis.sameId id _); [injection St as <-; auto |].
        injection St as <-. apply negb_true_iff in Al.
        unfold Analysis.runEffect. simpl.
        destruct id as [i |]; [| simpl; auto]. simpl in Al.
        apply negb_false_iff in Al. rewrite Al. simpl. rewrite Al. auto.
      + rewrite P in St. discriminate St.
      + destruct (Analysis.loading _); [discriminate St |]. injection St as <-.
        simpl.
        destruct (handleConfigChange_keeps f v (Analysis.page w))
          as (-> & _ & -> & -> & _). auto.
      + destruct (Analysis.loading _); [discriminate St |]. injection St as <-.
        simpl. unfold generateChartData. rewrite E. simpl. auto.
      + unfold Analysis.saveDisabled in St. rewrite C in St.
        rewrite !orb_true_r in St. discriminate St.
      + rewrite P in St. discriminate St.
    - unfold Analysis.mount, Analysis.runEffect. simpl.
      destruct id as [i |]; [| simpl; auto]. simpl in N.
      apply negb_false_iff in N. rewrite N. simpl. rewrite N. auto. }
  repeat split; try assumption.
  - unfold Analysis.previewTable. rewrite E.
    now destruct (Analysis.loading _).
  - unfold Analysis.renderChart. now rewrite C.
  - unfold Analysis.saveDisabled. rewrite C. apply orb_true_r.
Qed.

Lemma no_file_no_chart_witness :
  exists w,
    Analysis.run
      blindSession
      (Analysis.mount None) = Some w
    /\ chartData (Analysis.view (Analysis.page w)) = None
    /\ Analysis.saveDisabled (Analysis.page w) = true.
Proof.
  eexists. split; [lazy; reflexivity |].
  destruct (no_file_no_chart None blindSession _ eq_refl eq_refl eq_refl)
    as (_ & C & _ & _ & _ & D).
  split; [exact C | exact D].
Defined.

(** X14.  At every moment after the page has mounted, every request it has
    sent is well formed: a request for a record names a file id that is not
    empty, and a request to save a chart has a title that is not empty, and
    its title and type are those of the configuration it carries. *)
Theorem requests_are_well_formed (id : option string) (es : list Analysis.Event)
  (w : Analysis.World) (r : Analysis.Request) :
  Analysis.run es (Analysis.mount id) = Some w ->
  In r (Analysis.sent w) ->
  wellFormed r.
Proof.
  intro R. revert r.
  assert (forall w0,
             (forall r, In r (Analysis.sent w0) -> wellFormed r) ->
             forall r, In r (Analysis.sent (Analysis.runEffect w0)) -> wellFormed r)
    as Eff.
  { intros w0 I r. unfold Analysis.runEffect.
    destruct (Analysis.fileId (Analysis.page w0)) as [i |]; [| apply I].
    destruct (String.eqb_spec i "") as [-> | N]; [apply I |].
    simpl. intros [<- | H]; [exact N | now apply I]. }
  apply (analysis_run_invariant
           (fun w => forall r, In r (Analysis.sent w) -> wellFormed r)
           (fun _ => true)) with (es := es) (w := Analysis.mount id);
    [| apply forallb_always | | exact R].
  - clear R. intros w0 e w' _ I S.
    destruct e as [i | i o | f v | | | ok]; simpl in S.
    + destruct (Analysis.sameId i _); [injection S as <-; exact I |].
      injection S as <-. apply Eff. exact I.
    + destruct (Analysis.takeOut _ _) as [pend |]; [| discriminate S].
      injection S as <-. exact I.
    + destruct (Analysis.loading _); [discriminate S |]. injection S as <-.
      exact I.
    + destruct (Analysis.loading _); [discriminate S |]. injection S as <-.
      exact I.
    + destruct (_ || _); [discriminate S |]. injection S as <-.
      unfold Analysis.saveStart.
      destruct (chartData (Analysis.view (Analysis.page w0))) as [cd |];
        [| exact I].
      destruct (String.eqb_spec
                  (title (chartConfig (Analysis.view (Analysis.page w0)))) "")
        as [E | N]; [exact I |].
      unfold Analysis.applyEffect. simpl. intros r [<- | H]; [| now apply I].
      simpl. auto.
    + destruct (Analysis.takeOut _ _) as [pend |]; [| discriminate S].
      injection S as <-. exact I.
  - apply Eff. simpl. tauto.
Qed.

Lemma requests_are_well_formed_witness :
  exists w,
    Analysis.run saveSession (Analysis.mount (Some "f1")) = Some w
    /\ List.length (Analysis.sent w) = 2%nat
    /\ Forall wellFormed (Analysis.sent w).
Proof.
  eexists. split; [lazy; reflexivity |]. split; [reflexivity |].
  apply Forall_forall. intros r H.
  eapply (requests_are_well_formed (Some "f1") saveSession);
    [lazy; reflexivity | exact H].
Defined.

Opaque aggregate.

(** X15.  A chart outlives the record it was made from.  When the address
    changes to another file after a chart was generated, whatever the
    request for that file brings, the chart stays on the page, and a save
    sends the chart of the first record under the id of the second file. *)
Theorem chart_outlives_its_record (id1 id2 : string) (r1 : ExcelRecord)
  (o2 : Analysis.FetchOutcome) (x y t : string) (cd : ChartData) :
  id1 <> "" -> id2 <> "" -> id2 <> id1 -> t <> "" ->
  aggregate (Some r1) {| type := "bar"; title := t; xAxis := x; yAxis := y |}
  = Some cd ->
  exists w,
    Analysis.run
      [ Analysis.FetchDone id1 (Analysis.FetchRecord r1);
        Analysis.Change "xAxis" x; Analysis.Change "yAxis" y;
        Analysis.Change "title" t; Analysis.Generate;
        Analysis.Visit (Some id2); Analysis.FetchDone id2 o2;
        Analysis.SaveClick ]
      (Analysis.mount (Some id1)) = Some w
    /\ chartData (Analysis.view (Analysis.page w)) = Some cd
    /\ Analysis.sent w
       = [ Analysis.SaveChart
             {| Analysis.payloadTitle := t;
                Analysis.payloadType := "bar";
                Analysis.payloadConfig :=
                  ({| type := "bar"; title := t; xAxis := x; yAxis := y |}, []);
                Analysis.payloadData := cd;
                Analysis.excelRecordId := Some id2 |};
           Analysis.GetExcelData id2; Analysis.GetExcelData id1 ].
Proof.
  intros N1 N2 N21 Nt A.
  apply String.eqb_neq in N1, N2, N21, Nt.
  unfold Analysis.mount.
  destruct o2 as [| | r2];
    repeat (simpl;
            match goal with
            | |- context [String.eqb ?a ?a] => rewrite (String.eqb_refl a)
            | H : String.eqb ?a ?b = false |- context [String.eqb ?a ?b] =>
                rewrite H
            | |- context [aggregate _ _] => rewrite A
            | |- context [Analysis.runEffect _] => unfold Analysis.runEffect
            | |- context [Analysis.clickGenerate _] =>
                unfold Analysis.clickGenerate, generateChartData
            | |- context [Analysis.saveStart _] => unfold Analysis.saveStart
            | |- context [Analysis.applyEffect _ _] => unfold Analysis.applyEffect
            end);
    eexists; repeat split.
Qed.

Transparent aggregate.

Lemma chart_outlives_its_record_witness :
  exists w,
    Analysis.run
      [ Analysis.FetchDone "f1" (Analysis.FetchRecord {| data := sampleRows |});
        Analysis.Change "xAxis" "region"; Analysis.Change "yAxis" "sales";
        Analysis.Change "title" "Sales"; Analysis.Generate;
        Analysis.Visit (Some "f2");
        Analysis.FetchDone "f2" (Analysis.FetchRecord {| data := yearRows |});
        Analysis.SaveClick ]
      (Analysis.mount (Some "f1")) = Some w
    /\ chartData (Analysis.view (Analysis.page w))
       = Some {| labels := [VStr "A"; VStr "B"; VStr "A"];
                 datasets := [XYDataset "sales" [10; 20; 5]%float
                                (Some "rgba(54, 162, 235, 0.6)")
                                "rgba(54, 162, 235, 1)" 2 false] |}
    /\ Analysis.sent w
       = [ Analysis.SaveChart
             {| Analysis.payloadTitle := "Sales";
                Analysis.payloadType := "bar";
                Analysis.payloadConfig :=
                  ({| type := "bar"; title := "Sales"; xAxis := "region";
                      yAxis := "sales" |}, []);
                Analysis.payloadData :=
                  {| labels := [VStr "A"; VStr "B"; VStr "A"];
                     datasets := [XYDataset "sales" [10; 20; 5]%float
                                    (Some "rgba(54, 162, 235, 0.6)")
                                    "rgba(54, 162, 235, 1)" 2 false] |};
                Analysis.excelRecordId := Some "f2" |};
           Analysis.GetExcelData "f2"; Analysis.GetExcelData "f1" ].
Proof.
  apply (chart_outlives_its_record "f1" "f2" {| data := sampleRows |}
           (Analysis.FetchRecord {| data := yearRows |}) "region" "sales" "Sales");
    try discriminate.
  vm_compute. reflexivity.
Defined.

(** ** Rendering *)

(** X16.  Right after a chart was generated, what [renderChart] draws fits
    the series: the component is [Pie] exactly for the series made for a
    pie, which is exactly when the axes are left out of the options; every
    type other than [line], [pie] and [scatter] is drawn as [Bar]; the data
    is the series just generated; and the title shown is never empty. *)
Theorem render_after_generate (p : Analysis.Page) (cd : ChartData) :
  aggregate (excelData (Analysis.view p)) (chartConfig (Analysis.view p)) = Some cd ->
  exists c o,
    Analysis.renderChart (Analysis.clickGenerate p) = Some (c, cd, o)
    /\ (c = Analysis.Pie
        <-> exists d, datasets cd = [PieDataset d piePalette])
    /\ (c = Analysis.Pie <-> Analysis.scales o = None)
    /\ (c = Analysis.Bar
        <-> type (chartConfig (Analysis.view p)) <> "line"
            /\ type (chartConfig (Analysis.view p)) <> "pie"
            /\ type (chartConfig (Analysis.view p)) <> "scatter")
    /\ Analysis.titleText o <> "".
Proof.
  intro A. destruct p as [[e c [ty ti x y] cdo] o i l s]. simpl in A.
  unfold Analysis.clickGenerate, Analysis.renderChart, generateChartData.
  simpl. rewrite A. simpl. do 2 eexists. split; [reflexivity |].
  assert (forall d, datasets cd = [PieDataset d piePalette] -> ty = "pie") as P1.
  { intros d H. unfold aggregate in A. destruct e as [r |]; [| discriminate A].
    simpl in A. destruct (_ || _); [discriminate A |].
    destruct (String.eqb_spec ty "pie") as [E | E]; [exact E |].
    injection A as <-. discriminate H. }
  assert (ty = "pie" -> exists d, datasets cd = [PieDataset d piePalette]) as P2.
  { intros ->. unfold aggregate in A. destruct e as [r |]; [| discriminate A].
    simpl in A. destruct (_ || _); [discriminate A |].
    injection A as <-. simpl. eauto. }
  simpl. repeat split.
  - intro H. apply P2. revert H. name_cases; discriminate.
  - intros [d H]. rewrite (P1 d H). reflexivity.
  - name_cases; discriminate.
  - name_cases; discriminate.
  - intros ->. discriminate H.
  - intros ->. discriminate H.
  - intros ->. discriminate H.
  - intros (? & ? & ?). name_cases; reflexivity.
  - name_cases; try discriminate; assumption.
Qed.

Lemma render_after_generate_witness :
  exists c o,
    Analysis.renderChart
      (Analysis.clickGenerate
         {| Analysis.view := samplePage "pie" None; Analysis.otherConfig := [];
            Analysis.fileId := Some "f1"; Analysis.loading := false;
            Analysis.saving := false |})
    = Some (c,
            {| labels := [VStr "A"; VStr "B"];
               datasets := [PieDataset [VNum 15; VNum 20] piePalette] |}, o)
    /\ c = Analysis.Pie /\ Analysis.scales o = None.
Proof.
  destruct (render_after_generate
              {| Analysis.view := samplePage "pie" None; Analysis.otherConfig := [];
                 Analysis.fileId := Some "f1"; Analysis.loading := false;
                 Analysis.saving := false |}
              {| labels := [VStr "A"; VStr "B"];
                 datasets := [PieDataset [VNum 15; VNum 20] piePalette] |})
    as (c & o & R & P & S & _).
  - vm_compute. reflexivity.
  - exists c, o. split; [exact R |].
    assert (c = Analysis.Pie) as E by (apply P; eexists; reflexivity).
    split; [exact E | now apply S].
Defined.

(** ** The request interceptor *)

Lemma update_twice (k : string) (v : value) (o : Obj.object) :
  Obj.update k v (Obj.update k v o) = Obj.update k v o.
Proof.
  induction o as [| [k' v'] o IH]; simpl; [reflexivity |].
  destruct (String.eqb k k') eqn:E; simpl; rewrite E; [reflexivity |].
  now rewrite IH.
Qed.

Lemma update_app_absent (k : string) (v : value) (o1 o2 : Obj.object) :
  Obj.lookup k o1 = None ->
  Obj.update k v (o1 ++ o2) = o1 ++ Obj.update k v o2.
Proof.
  induction o1 as [| [k' v'] o1 IH]; simpl; [reflexivity |].
  destruct (String.eqb k k'); [discriminate |]. intro L. now rewrite IH.
Qed.

Lemma set_twice (o : Obj.object) (k : string) (v : value) :
  Obj.set (Obj.set o k v) k v = Obj.set o k v.
Proof.
  unfold Obj.set. destruct (String.eqb k "__proto__") eqn:P; [reflexivity |].
  destruct (Obj.lookup k o) eqn:L.
  - rewrite lookup_update, String.eqb_refl, L. simpl. apply update_twice.
  - rewrite lookup_app, L. simpl. rewrite String.eqb_refl.
    rewrite update_app_absent by assumption. simpl.
    now rewrite String.eqb_refl.
Qed.

(** X17.  The request interceptor leaves the address and the method of a
    request alone, and every header other than [Authorization]; running it
    twice is running it once; with a token in [localStorage] that is not
    empty the header [Authorization] is [Bearer] and the token; and without
    one the request passes as it is, an [Authorization] header it already
    has included. *)
Theorem auth_interceptor_laws (localStorage : Api.Storage)
  (config : Api.RequestConfig) :
  Api.url (Api.authInterceptor localStorage config) = Api.url config
  /\ Api.method (Api.authInterceptor localStorage config) = Api.method config
  /\ (forall k, k <> "Authorization" ->
        Obj.lookup k (Api.headers (Api.authInterceptor localStorage config))
        = Obj.lookup k (Api.headers config))
  /\ Api.authInterceptor localStorage (Api.authInterceptor localStorage config)
     = Api.authInterceptor localStorage config
  /\ match Api.getItem localStorage "token" with
     | Some token =>
         if String.eqb token "" then
           Api.authInterceptor localStorage config = config
         else
           Obj.lookup "Authorization"
             (Api.headers (Api.authInterceptor localStorage config))
           = Some (VStr (String.append "Bearer " token))
     | None => Api.authInterceptor localStorage config = config
     end.
Proof.
  unfold Api.authInterceptor.
  destruct (Api.getItem localStorage "token") as [token |]; [| repeat split].
  destruct (String.eqb token ""); [repeat split |]. simpl.
  repeat split.
  - intros k N. rewrite lookup_set by discriminate.
    apply String.eqb_neq in N. now rewrite N.
  - now rewrite set_twice.
  - now rewrite lookup_set by discriminate.
Qed.

(** ** The dashboard over time *)

Lemma dashboard_run_invariant (I : Dashboard.World -> Prop)
  (allowed : Dashboard.Event -> bool) :
  (forall w e w', allowed e = true -> I w -> Dashboard.step w e = Some w' -> I w') ->
  forall es w w',
    forallb allowed es = true -> I w -> Dashboard.run es w = Some w' -> I w'.
Proof.
  intros Step es. induction es as [| e es IH]; simpl; intros w w' A Hw R.
  - now injection R as <-.
  - apply andb_true_iff in A. destruct A as [Ae A].
    destruct (Dashboard.step w e) as [w1 |] eqn:S; [| discriminate R].
    apply (IH w1 w' A); [| exact R]. now apply (Step w e).
Qed.

(** X18.  At every moment after the dashboard has mounted: the dashboard is
    [uploading] exactly while one upload timer is set, and never is more
    than one; the upload button is disabled while it is; and the list is
    [loading] exactly while the timer of [fetchFiles] is set. *)
Theorem uploads_one_at_a_time (es : list Dashboard.Event) (w : Dashboard.World) :
  Dashboard.run es Dashboard.mount = Some w ->
  List.length (Dashboard.uploadTimers w)
  = (if Dashboard.uploading (Dashboard.dash w) then 1 else 0)%nat
  /\ (Dashboard.uploadTimers w <> [] ->
      Dashboard.uploadDisabled (Dashboard.dash w) = true)
  /\ Dashboard.loading (Dashboard.dash w) = Dashboard.filesTimerSet w.
Proof.
  intro R.
  assert (List.length (Dashboard.uploadTimers w)
          = (if Dashboard.uploading (Dashboard.dash w) then 1 else 0)%nat
          /\ Dashboard.loading (Dashboard.dash w) = Dashboard.filesTimerSet w)
    as [C L].
  { apply (dashboard_run_invariant
             (fun w => List.length (Dashboard.uploadTimers w)
                       = (if Dashboard.uploading (Dashboard.dash w) then 1 else 0)%nat
                       /\ Dashboard.loading (Dashboard.dash w)
                          = Dashboard.filesTimerSet w)
             (fun _ => true)) with (es := es) (w := Dashboard.mount);
      [| apply forallb_always | split; reflexivity | exact R].
    clear. intros w e w' _ [C L] S. destruct e as [| f | | now iso]; simpl in S.
    - destruct (Dashboard.filesTimerSet w); [| discriminate S].
      injection S as <-. simpl. auto.
    - injection S as <-. simpl. auto.
    - unfold Dashboard.uploadDisabled, Dashboard.handleFileUpload in S.
      destruct (Dashboard.uploading (Dashboard.dash w)); [discriminate S |].
      destruct (Dashboard.uploadFile (Dashboard.dash w)) as [f |];
        [| discriminate S].
      simpl in S. injection S as <-. simpl. rewrite length_app, C. auto.
    - destruct (Dashboard.uploadTimers w) as [| f rest]; [discriminate S |].
      injection S as <-. simpl in *.
      destruct (Dashboard.uploading (Dashboard.dash w)); [| discriminate C].
      split; [lia | exact L]. }
  split; [exact C |]. split; [| exact L].
  intro N. unfold Dashboard.uploadDisabled.
  destruct (Dashboard.uploading (Dashboard.dash w)); [reflexivity |].
  destruct (Dashboard.uploadTimers w); [now elim N | discriminate C].
Qed.

Lemma uploads_one_at_a_time_witness :
  exists w,
    Dashboard.run uploadSession Dashboard.mount = Some w
    /\ Dashboard.uploading (Dashboard.dash w) = true
    /\ List.length (Dashboard.uploadTimers w)
       = (if Dashboard.uploading (Dashboard.dash w) then 1 else 0)%nat
    /\ (Dashboard.uploadTimers w <> [] ->
        Dashboard.uploadDisabled (Dashboard.dash w) = true)
    /\ Dashboard.loading (Dashboard.dash w) = Dashboard.filesTimerSet w.
Proof.
  eexists. split; [lazy; reflexivity |]. split; [reflexivity |].
  apply (uploads_one_at_a_time uploadSession). lazy. reflexivity.
Defined.

(** X19.  As long as the timer of [fetchFiles] does not fire, the list of
    files only grows, at its front: after a run of events it is the list
    from before with one file put in front for each upload timer that
    fired, the latest first, each under the id and the date of the moment
    its timer fired. *)
Theorem uploads_accumulate (es : list Dashboard.Event) (w w' : Dashboard.World) :
  forallb (fun e => negb (Dashboard.isFilesTimer e)) es = true ->
  Dashboard.run es w = Some w' ->
  exists added,
    Dashboard.excelFiles (Dashboard.dash w')
    = added ++ Dashboard.excelFiles (Dashboard.dash w)
    /\ map (fun f => (Dashboard._id f, Dashboard.uploadDate f)) added
       = rev (stamps es).
Proof.
  revert w. induction es as [| e es IH]; simpl; intros w A R.
  - injection R as <-. now exists [].
  - apply andb_true_iff in A. destruct A as [Ae A].
    destruct (Dashboard.step w e) as [w1 |] eqn:S; [| discriminate R].
    destruct (IH w1 A R) as (added & E & M).
    destruct e as [| f | | now iso]; simpl in S, Ae.
    + discriminate Ae.
    + injection S as <-. exists added. split; assumption.
    + unfold Dashboard.handleFileUpload in S.
      destruct (Dashboard.uploadDisabled _); [discriminate S |].
      destruct (Dashboard.uploadFile (Dashboard.dash w)) as [f |];
        injection S as <-; exists added; split; assumption.
    + destruct (Dashboard.uploadTimers w) as [| f rest]; [discriminate S |].
      injection S as <-. simpl in E.
      exists (added
              ++ [{| Dashboard._id := numberToString now;
                     Dashboard.filename := DOM.name f;
                     Dashboard.uploadDate := iso;
                     Dashboard.size := DOM.size f |}]).
      split.
      * now rewrite <- app_assoc.
      * unfold stamps. simpl. fold (stamps es). rewrite map_app, M. reflexivity.
Qed.

Lemma uploads_accumulate_witness :
  exists w' added,
    Dashboard.run uploadCompleted Dashboard.listLoaded = Some w'
    /\ Dashboard.excelFiles (Dashboard.dash w')
       = added ++ Dashboard.excelFiles (Dashboard.dash Dashboard.listLoaded)
    /\ map (fun f => (Dashboard._id f, Dashboard.uploadDate f)) added
       = [("1700000000000", "2023-11-14T22:13:20.000Z")].
Proof.
  eexists.
  destruct (uploads_accumulate uploadCompleted Dashboard.listLoaded _
              eq_refl eq_refl) as (added & E & M).
  exists added. split; [reflexivity |]. split; [exact E |].
  rewrite M. vm_compute. reflexivity.
Defined.
